(** * Nirantar control plane: controller, relay manager and credential helpers

    A shallow embedding of three Go sources of the repository:

    - [apps/controller/crypto.go]  (module [Crypto]): [InitCrypto],
      [HashToken], [Encrypt], [Decrypt];
    - [apps/controller/main.go]    (module [Controller]): the reconciler
      ([ReconcileChannel], [UpdateHealthHistory], [IsStable]), the log buffer
      ([Log], [LogsHandler]) and the webhook and operator handlers that write
      the same in-memory maps and the store; (module [Supervisor]): the
      container side of a tick, [EnsureContainerRunning],
      [EnsureContainerStopped], [ReconcileDestinations], [EnsureRelayRunning],
      over a Docker daemon held as a map of containers; (module [Admin]):
      [generateToken] and the creation of a channel in [ChannelsHandler];
    - the relay manager            (module [Relay]): [main], [handleUpdate],
      [handleConfigChange], [manageDistributors], [startDistributor], the two
      pumps, [triggerFailover], [monitorSRS], the transcoder and [cleanup].

    Go strings are byte sequences, so a Go [string] is a Rocq [string] and a
    [[]byte] is a [list ascii].  Go maps are [gmap]s.  Mutable package or
    receiver state is passed explicitly; calls that leave the process (Docker,
    child processes, goroutines) are recorded as a trace of effects.  A
    handler of the controller runs as one step, under the locks of the source.
    The relay's handler and goroutines are taken in steps: a configuration
    change, the halves of a goroutine before and after its [Wait], and, since
    no lock joins them, the test and the start of [startTranscoderProcess];
    within a step nothing else is taken to run.  The store answers the queries of the handlers, except in
    [authenticateOn], where the outcome of a query, an error included, is an
    argument; Docker's errors that the source only logs are not modelled, and
    texts of HTTP answers are shortened to their first words.

    The definitions come first (modules [Crypto], [JSON], [Controller],
    [Relay], [Supervisor], [Admin]); the properties follow, one module per
    part of the system. *)

From Stdlib Require Import ZArith NArith Lia Ascii String List.
From Stdlib Require DecimalString.
From stdpp Require Import gmap strings list.

Local Open Scope Z_scope.
Local Set Warnings "-register-all".

(** ** encoding/hex, crypto/sha256 and the credential helpers *)

Module Crypto.

(** [hex.EncodeToString]: two lower-case digits per byte, taken from
    [hextable] at [v >> 4] and [v & 0x0f]. *)
Definition hextable : string := "0123456789abcdef".

Definition hexDigit (n : N) : ascii :=
  match String.get (N.to_nat n) hextable with
  | Some c => c
  | None => "0"%char
  end.

Fixpoint EncodeToString (src : list ascii) : string :=
  match src with
  | [] => EmptyString
  | v :: rest =>
      String (hexDigit (N.shiftr (N_of_ascii v) 4))
        (String (hexDigit (N.land (N_of_ascii v) 15)) (EncodeToString rest))
  end.

(** [fromHexChar]: the three accepted ranges of [encoding/hex]. *)
Definition fromHexChar (c : ascii) : option N :=
  let n := N_of_ascii c in
  if (48 <=? n)%N && (n <=? 57)%N then Some (n - 48)%N
  else if (97 <=? n)%N && (n <=? 102)%N then Some (n - 97 + 10)%N
  else if (65 <=? n)%N && (n <=? 70)%N then Some (n - 65 + 10)%N
  else None.

(** [hex.DecodeString]: [None] stands for either of its errors
    ([InvalidByteError], [ErrLength]); every caller in the repository drops
    the partial output on error. *)
Fixpoint DecodeString (s : string) : option (list ascii) :=
  match s with
  | EmptyString => Some []
  | String _ EmptyString => None
  | String a (String b rest) =>
      match fromHexChar a, fromHexChar b with
      | Some x, Some y =>
          match DecodeString rest with
          | Some bs => Some (ascii_of_N (N.lor (N.shiftl x 4) y) :: bs)
          | None => None
          end
      | _, _ => None
      end
  end.

Definition isHexChar (c : ascii) : bool :=
  match String.index 0 (String c EmptyString) hextable with
  | Some _ => true
  | None => false
  end.

(** *** SHA-256 (FIPS 180-4), on 32-bit words held in [Z] *)

Definition w32 (x : Z) : Z := x mod 4294967296.
Definition add32 (x y : Z) : Z := w32 (x + y).
Definition rotr (n x : Z) : Z := Z.lor (Z.shiftr x n) (w32 (Z.shiftl x (32 - n))).
Definition not32 (x : Z) : Z := Z.lxor x 4294967295.

Definition Ch (x y z : Z) : Z := Z.lxor (Z.land x y) (Z.land (not32 x) z).
Definition Maj (x y z : Z) : Z :=
  Z.lxor (Z.lxor (Z.land x y) (Z.land x z)) (Z.land y z).
Definition bigSigma0 (x : Z) : Z := Z.lxor (Z.lxor (rotr 2 x) (rotr 13 x)) (rotr 22 x).
Definition bigSigma1 (x : Z) : Z := Z.lxor (Z.lxor (rotr 6 x) (rotr 11 x)) (rotr 25 x).
Definition smallSigma0 (x : Z) : Z := Z.lxor (Z.lxor (rotr 7 x) (rotr 18 x)) (Z.shiftr x 3).
Definition smallSigma1 (x : Z) : Z := Z.lxor (Z.lxor (rotr 17 x) (rotr 19 x)) (Z.shiftr x 10).

Definition roundConstants : list Z :=
  [ 1116352408; 1899447441; 3049323471; 3921009573; 961987163; 1508970993;
    2453635748; 2870763221; 3624381080; 310598401; 607225278; 1426881987;
    1925078388; 2162078206; 2614888103; 3248222580; 3835390401; 4022224774;
    264347078; 604807628; 770255983; 1249150122; 1555081692; 1996064986;
    2554220882; 2821834349; 2952996808; 3210313671; 3336571891; 3584528711;
    113926993; 338241895; 666307205; 773529912; 1294757372; 1396182291;
    1695183700; 1986661051; 2177026350; 2456956037; 2730485921; 2820302411;
    3259730800; 3345764771; 3516065817; 3600352804; 4094571909; 275423344;
    430227734; 506948616; 659060556; 883997877; 958139571; 1322822218;
    1537002063; 1747873779; 1955562222; 2024104815; 2227730452; 2361852424;
    2428436474; 2756734187; 3204031479; 3329325298 ].

Record digestState := Digest
  { h0 : Z; h1 : Z; h2 : Z; h3 : Z; h4 : Z; h5 : Z; h6 : Z; h7 : Z }.

Definition initialDigest : digestState :=
  Digest 1779033703 3144134277 1013904242 2773480762
         1359893119 2600822924 528734635 1541459225.

(** The message schedule, produced from a sliding window of the sixteen most
    recent words. *)
Fixpoint schedule (n : nat) (win : list Z) : list Z :=
  match n with
  | O => []
  | S n' =>
      let at_ i := nth i win 0 in
      let next :=
        add32 (add32 (smallSigma1 (at_ 14%nat)) (at_ 9%nat))
              (add32 (smallSigma0 (at_ 1%nat)) (at_ 0%nat)) in
      at_ 0%nat :: schedule n' (tl win ++ [next])
  end.

Definition round (st : digestState) (kw : Z * Z) : digestState :=
  let '(Digest a b c d e f g h) := st in
  let t1 := add32 (add32 (add32 h (bigSigma1 e)) (add32 (Ch e f g) (fst kw))) (snd kw) in
  let t2 := add32 (bigSigma0 a) (Maj a b c) in
  Digest (add32 t1 t2) a b c (add32 d t1) e f g.

Definition compress (st : digestState) (block : list Z) : digestState :=
  let '(Digest a b c d e f g h) :=
    fold_left round (combine roundConstants (schedule 64 block)) st in
  Digest (add32 (h0 st) a) (add32 (h1 st) b) (add32 (h2 st) c) (add32 (h3 st) d)
         (add32 (h4 st) e) (add32 (h5 st) f) (add32 (h6 st) g) (add32 (h7 st) h).

Definition bigEndian (width : nat) (x : Z) : list Z :=
  map (fun i => Z.land (Z.shiftr x (8 * Z.of_nat i)) 255) (rev (seq 0 width)).

Definition padding (len : Z) : list Z :=
  128 :: repeat 0 (Z.to_nat ((55 - len) mod 64)) ++ bigEndian 8 (8 * len).

Fixpoint wordsOf (n : nat) (bs : list Z) : list Z :=
  match n, bs with
  | S n', b3 :: b2 :: b1 :: b0 :: rest =>
      (b3 * 16777216 + b2 * 65536 + b1 * 256 + b0) :: wordsOf n' rest
  | _, _ => []
  end.

Fixpoint blocks (fuel : nat) (st : digestState) (bs : list Z) : digestState :=
  match fuel, bs with
  | S fuel', _ :: _ => blocks fuel' (compress st (wordsOf 16 bs)) (skipn 64 bs)
  | _, _ => st
  end.

Definition digestBytes (st : digestState) : list Z :=
  bigEndian 4 (h0 st) ++ bigEndian 4 (h1 st) ++ bigEndian 4 (h2 st) ++
  bigEndian 4 (h3 st) ++ bigEndian 4 (h4 st) ++ bigEndian 4 (h5 st) ++
  bigEndian 4 (h6 st) ++ bigEndian 4 (h7 st).

(** [sha256.New(); h.Write(data); h.Sum(nil)]. *)
Definition sha256Sum (data : list ascii) : list ascii :=
  let bs := map (fun c => Z.of_N (N_of_ascii c)) data in
  let padded := bs ++ padding (Z.of_nat (List.length bs)) in
  map (fun b => ascii_of_N (Z.to_N b))
      (digestBytes (blocks (S (List.length padded)) initialDigest padded)).

(** [HashToken] (crypto.go:27). *)
Definition HashToken (token : string) : string :=
  EncodeToString (sha256Sum (list_ascii_of_string token)).

(** *** AES-GCM behind Go's [cipher.AEAD] interface

    [crypto/aes] and [crypto/cipher] are Go's standard library.  The code uses
    them through the [cipher.AEAD] interface only, so the interface is a class
    whose law is the interface's contract: [Open] inverts [Seal] under the
    same nonce (of [NonceSize] = 12 bytes) and empty additional data. *)
Class AEAD := {
  Seal : list ascii -> list ascii -> list ascii;
  Open : list ascii -> list ascii -> option (list ascii);
  Open_Seal : forall nonce plaintext,
    List.length nonce = 12%nat -> Open nonce (Seal nonce plaintext) = Some plaintext
}.

(** What a call of [Encrypt] or [Decrypt] ends in: a value, an error return,
    or the panic [Open] raises on a nonce of the wrong length. *)
Inductive outcome (A : Type) : Type :=
| Value (a : A)
| Failed
| Panicked.
Arguments Value {A} a.
Arguments Failed {A}.
Arguments Panicked {A}.

Section Credentials.

(** [aes.NewCipher(key)] followed by [cipher.NewGCM(block)]: [None] when
    either returns an error (a key that is not 16, 24 or 32 bytes long). *)
Variable NewGCM : list ascii -> option AEAD.

(** [io.ReadFull(rand.Reader, nonce)] over the entropy [rand] the caller is
    given: the first [n] bytes, or an error when fewer are available. *)
Definition ReadFull (rand : list ascii) (n : nat) : option (list ascii) :=
  if (n <=? List.length rand)%nat then Some (firstn n rand) else None.

(** [Encrypt] (crypto.go:62), with the package variable [encryptionKey] and
    the random source as arguments. *)
Definition Encrypt (encryptionKey rand : list ascii) (plaintext : string)
  : outcome (string * string) :=
  match NewGCM encryptionKey with
  | None => Failed
  | Some aesgcm =>
      match ReadFull rand 12 with
      | None => Failed
      | Some nonce =>
          let ciphertext := Seal nonce (list_ascii_of_string plaintext) in
          Value (EncodeToString ciphertext, EncodeToString nonce)
      end
  end.

(** [Decrypt] (crypto.go:33). *)
Definition Decrypt (encryptionKey : list ascii) (encryptedHex ivHex : string)
  : outcome string :=
  match DecodeString encryptedHex with
  | None => Failed
  | Some ciphertext =>
      match DecodeString ivHex with
      | None => Failed
      | Some nonce =>
          match NewGCM encryptionKey with
          | None => Failed
          | Some aesgcm =>
              if negb (List.length nonce =? 12)%nat then Panicked
              else match Open nonce ciphertext with
                   | None => Failed
                   | Some plaintext => Value (string_of_list_ascii plaintext)
                   end
          end
      end
  end.

(** [InitCrypto] (crypto.go:15): the value of [encryptionKey] it leaves, or
    its panic.  [keyEnv] is [os.Getenv("ENCRYPTION_KEY")], the empty string
    when the variable is not set. *)
Definition defaultKeyHex : string :=
  "0123456789abcdef0123456789abcdef0123456789abcdef0123456789abcdef".

Definition InitCrypto (keyEnv : string) : outcome (list ascii) :=
  let keyHex := if String.eqb keyEnv "" then defaultKeyHex else keyEnv in
  match DecodeString keyHex with
  | Some key => Value key
  | None => Panicked
  end.

End Credentials.

(** *** The shape of GCM

    An implementation of the interface of the kind [cipher.NewGCM] returns:
    counter-mode encryption under a block cipher, followed by a sixteen-byte
    tag over the ciphertext.  The block cipher and the hash behind the tag are
    parameters (AES and GHASH in Go); blocks and tags are cut or padded to
    sixteen bytes. *)
Section CounterMode.

Variable blockEncrypt : list ascii -> list ascii -> list ascii.
Variable tagHash : list ascii -> list ascii -> list ascii.

Definition xorByte (a b : ascii) : ascii :=
  match a, b with
  | Ascii a0 a1 a2 a3 a4 a5 a6 a7, Ascii b0 b1 b2 b3 b4 b5 b6 b7 =>
      Ascii (xorb a0 b0) (xorb a1 b1) (xorb a2 b2) (xorb a3 b3)
            (xorb a4 b4) (xorb a5 b5) (xorb a6 b6) (xorb a7 b7)
  end.

Fixpoint xorBytes (data stream : list ascii) : list ascii :=
  match data, stream with
  | d :: data', k :: stream' => xorByte d k :: xorBytes data' stream'
  | _, _ => data
  end.

Definition fit (n : nat) (l : list ascii) : list ascii :=
  firstn n (l ++ repeat zero n).

Definition counterBlock (nonce : list ascii) (i : nat) : list ascii :=
  nonce ++ map (fun b => ascii_of_N (Z.to_N b)) (bigEndian 4 (Z.of_nat i)).

Fixpoint keystream (key nonce : list ascii) (blocks i : nat) : list ascii :=
  match blocks with
  | O => []
  | S blocks' =>
      fit 16 (blockEncrypt key (counterBlock nonce i)) ++ keystream key nonce blocks' (S i)
  end.

Definition counterMode (key nonce data : list ascii) : list ascii :=
  xorBytes data (keystream key nonce (List.length data) 2).

Definition gcmTag (key nonce ciphertext : list ascii) : list ascii :=
  xorBytes (fit 16 (tagHash (blockEncrypt key (repeat zero 16)) ciphertext))
           (fit 16 (blockEncrypt key (counterBlock nonce 1))).

Definition gcmSeal (key nonce plaintext : list ascii) : list ascii :=
  let ciphertext := counterMode key nonce plaintext in
  ciphertext ++ gcmTag key nonce ciphertext.

Definition gcmOpen (key nonce sealed : list ascii) : option (list ascii) :=
  let n := (List.length sealed - 16)%nat in
  if (List.length sealed <? 16)%nat then None
  else if decide (skipn n sealed = gcmTag key nonce (firstn n sealed))
       then Some (counterMode key nonce (firstn n sealed))
       else None.

End CounterMode.

End Crypto.


(** ** encoding/json, as far as the handlers depend on it *)

Module JSON.

(** A JSON number keeps what [strconv.ParseInt] makes of its literal: an
    integer, or a literal (fraction, exponent) that is no integer literal. *)
Inductive NumLit :=
| IntLit (n : Z)
| OtherLit.

Inductive Value :=
| Null
| Bool (b : bool)
| Number (n : NumLit)
| Str (s : string)
| Array (elems : list Value)
| Object (fields : list (string * Value)).

(** A request body: its bytes; the first JSON value in it, as the scanner
    reads it ([None]: the scanner reports a syntax error or the end of the
    input before a value is complete, and nothing is stored); and whether
    bytes other than white space follow that value.  [json.Unmarshal] checks
    the whole input and fails on such bytes before it stores anything;
    [json.Decoder.Decode] reads the first value and leaves the rest of the
    input unread. *)
Record Body := { raw : string; scanned : option Value; trailing : bool }.

(** What [json.Unmarshal] decodes: the value, unless anything follows it. *)
Definition whole (req : Body) : option Value :=
  if trailing req then None else scanned req.

Definition lowerChar (c : ascii) : ascii :=
  let n := N_of_ascii c in
  if (65 <=? n)%N && (n <=? 90)%N then ascii_of_N (n + 32) else c.

(** The folding under which a key is compared with the field tags: Unicode
    simple case folding.  The tags decoded here are ASCII, and the runes that
    fold to an ASCII letter are the letter in its other case, U+212A (the
    Kelvin sign, bytes 226 132 170) for [k] and U+017F (the long s, bytes 197 191)
    for [s]; every other byte of a key is kept. *)
Fixpoint foldName (s : string) : string :=
  match s with
  | EmptyString => EmptyString
  | String "226" (String "132" (String "170" rest)) => String "k" (foldName rest)
  | String "197" (String "191" rest) => String "s" (foldName rest)
  | String c rest => String (lowerChar c) (foldName rest)
  end.

(** An object key selects the struct field whose tag it equals, exactly or
    under case folding.  The structs decoded here have tags that stay distinct
    under folding, so the folded comparison alone decides. *)
Definition keyIs (tag key : string) : bool := String.eqb (foldName tag) (foldName key).

(** Storing a value into a field of the given Go type: the new field value and
    whether an [UnmarshalTypeError] was recorded.  [null] leaves a string or an
    int as it is and makes a slice nil; a value of the wrong kind is skipped. *)
Definition storeString (v : Value) (old : string) : string * bool :=
  match v with
  | Str s => (s, false)
  | Null => (old, false)
  | _ => (old, true)
  end.

Definition storeInt (v : Value) (old : Z) : Z * bool :=
  match v with
  | Number (IntLit n) =>
      if (-9223372036854775808 <=? n) && (n <=? 9223372036854775807)
      then (n, false) else (old, true)
  | Null => (old, false)
  | _ => (old, true)
  end.

Definition storeStringSlice (v : Value) (old : list string) : list string * bool :=
  match v with
  | Array elems =>
      (map (fun e => fst (storeString e EmptyString)) elems,
       existsb (fun e => snd (storeString e EmptyString)) elems)
  | Null => ([], false)
  | _ => (old, true)
  end.

End JSON.

(** ** The controller (apps/controller/main.go) *)

Module Controller.

Definition Second : Z := 1000000000.

(** Go's [int], [int64] and [time.Duration] are 64-bit and wrap. *)
Definition wrap64 (x : Z) : Z := (x + 9223372036854775808) mod 18446744073709551616 - 9223372036854775808.

(** [strings.HasSuffix], [strings.TrimSuffix], [strings.TrimPrefix]. *)
Definition HasPrefix (s p : string) : bool := String.prefix p s.
Definition HasSuffix (s suffix : string) : bool :=
  String.prefix (String.rev suffix) (String.rev s).
Definition TrimSuffix (s suffix : string) : string :=
  if HasSuffix s suffix
  then String.substring 0 (String.length s - String.length suffix) s
  else s.
Definition TrimPrefix (s p : string) : string :=
  if HasPrefix s p
  then String.substring (String.length p) (String.length s - String.length p) s
  else s.

(** The fields of [Config] that the functions below read. *)
Record Config := { StabilityWindow : Z }.

Record Destination := {
  dest_ID : Z;
  dest_ChannelID : Z;
  dest_Name : string;
  RTMPURL : string;
  StreamKey : string;
  dest_Enabled : bool;
  dest_Status : string
}.

Record Channel := {
  ID : Z;
  Name : string;
  OBSToken : string;
  LoopToken : string;
  LoopEnabled : bool;
  Enabled : bool;
  ActiveSource : string;
  OBSOverrideEnabled : bool;
  FailoverTimeout : Z;
  Destinations : list Destination;
  ObsSourceStream : string
}.

Definition with_source (ch : Channel) (obsSourceStream activeSource : string) : Channel :=
  {| ID := ID ch; Name := Name ch; OBSToken := OBSToken ch; LoopToken := LoopToken ch;
     LoopEnabled := LoopEnabled ch; Enabled := Enabled ch; ActiveSource := activeSource;
     OBSOverrideEnabled := OBSOverrideEnabled ch; FailoverTimeout := FailoverTimeout ch;
     Destinations := Destinations ch; ObsSourceStream := obsSourceStream |}.

(** The fields of [SRSStream] the reconciler reads: [Kbps.Recv],
    [Video.Width], [Publish.Active]. *)
Record SRSStream := { KbpsRecv : Z; VideoWidth : Z; PublishActive : bool }.

Record LogEntry := {
  log_ID : Z;
  Timestamp : Z;
  Level : string;
  Component : string;
  Message : string
}.

(** The receiver [*Controller]: the maps and the log buffer ([DB] and [Docker]
    are handles to the outside and are modelled apart).  [time.Time] is a count
    of nanoseconds. *)
Record Controller := {
  Cfg : Config;
  HealthHistory : gmap string (list bool);
  LogBuffer : list LogEntry;
  takeoverCooldown : gmap string Z;
  activeSourceMap : gmap string string;
  manualLoopOverride : gmap string bool;
  logID : Z
}.

Definition set_HealthHistory (h : gmap string (list bool)) (c : Controller) : Controller :=
  {| Cfg := Cfg c; HealthHistory := h; LogBuffer := LogBuffer c;
     takeoverCooldown := takeoverCooldown c; activeSourceMap := activeSourceMap c;
     manualLoopOverride := manualLoopOverride c; logID := logID c |}.

Definition set_takeoverCooldown (m : gmap string Z) (c : Controller) : Controller :=
  {| Cfg := Cfg c; HealthHistory := HealthHistory c; LogBuffer := LogBuffer c;
     takeoverCooldown := m; activeSourceMap := activeSourceMap c;
     manualLoopOverride := manualLoopOverride c; logID := logID c |}.

Definition set_activeSourceMap (m : gmap string string) (c : Controller) : Controller :=
  {| Cfg := Cfg c; HealthHistory := HealthHistory c; LogBuffer := LogBuffer c;
     takeoverCooldown := takeoverCooldown c; activeSourceMap := m;
     manualLoopOverride := manualLoopOverride c; logID := logID c |}.

Definition set_manualLoopOverride (m : gmap string bool) (c : Controller) : Controller :=
  {| Cfg := Cfg c; HealthHistory := HealthHistory c; LogBuffer := LogBuffer c;
     takeoverCooldown := takeoverCooldown c; activeSourceMap := activeSourceMap c;
     manualLoopOverride := m; logID := logID c |}.

(** [Log] (main.go:243): a ring of at most 1000 entries with a running id. *)
Definition Log (now : Z) (level component message : string) (c : Controller) : Controller :=
  let id := wrap64 (logID c + 1) in
  let entry := {| log_ID := id; Timestamp := now; Level := level;
                  Component := component; Message := message |} in
  let buf := LogBuffer c ++ [entry] in
  {| Cfg := Cfg c; HealthHistory := HealthHistory c;
     LogBuffer := if (1000 <? List.length buf)%nat then tl buf else buf;
     takeoverCooldown := takeoverCooldown c; activeSourceMap := activeSourceMap c;
     manualLoopOverride := manualLoopOverride c; logID := id |}.

(** [NewController] (main.go:203), once the store and Docker answer: the
    maps and the log buffer are made empty and the first line is logged;
    [started] is the time of that call. *)
Definition NewController (started : Z) (cfg : Config) : Controller :=
  Log started "info" "controller" "Controller initialized successfully"
      {| Cfg := cfg; HealthHistory := ∅; LogBuffer := []; takeoverCooldown := ∅;
         activeSourceMap := ∅; manualLoopOverride := ∅; logID := 0 |}.

(** [UpdateHealthHistory] (main.go:460). *)
Definition UpdateHealthHistory (key : string) (healthy : bool) (c : Controller) : Controller :=
  let history := default [] (HealthHistory c !! key) in
  let history := history ++ [healthy] in
  let history :=
    if StabilityWindow (Cfg c) <? Z.of_nat (List.length history) then tl history else history in
  set_HealthHistory (<[key := history]> (HealthHistory c)) c.

(** [IsStable] (main.go:472). *)
Definition IsStable (key : string) (expectedState : bool) (c : Controller) : bool :=
  let history := default [] (HealthHistory c !! key) in
  if Z.of_nat (List.length history) <? StabilityWindow (Cfg c) then false
  else forallb (fun h => Bool.eqb h expectedState) history.

(** Calls that leave the controller.  The three [Ensure...]/[Reconcile...]
    calls go to the Docker supervisor; a [Go...] call is a goroutine started
    with [go], which runs later. *)
Inductive Call :=
| EnsureContainerStopped (containerName : string)
| EnsureContainerRunning (ch : Channel) (containerName : string)
| ReconcileDestinations (ch : Channel) (streamActive : bool)
| GoUpdateActiveSource (channelID : Z) (source : string)
| GoEnsureContainerStopped (containerName : string).

(** *** ReconcileChannel (main.go:305), block by block *)

Definition loopContainer (name : string) : string := "loop-" +:+ name.

(** Lines 318-329: the stream taken as the OBS stream and its name: the
    [{channel}-obs] stream, else the stream named by the OBS token. *)
Definition detectOBS (ch : Channel) (streams : gmap string SRSStream)
  : option SRSStream * string :=
  match streams !! (Name ch +:+ "-obs") with
  | Some s => (Some s, Name ch +:+ "-obs")
  | None =>
      if negb (String.eqb (OBSToken ch) "") then
        match streams !! OBSToken ch with
        | Some s => (Some s, OBSToken ch)
        | None => (None, Name ch +:+ "-obs")
        end
      else (None, Name ch +:+ "-obs")
  end.

(** Lines 333 and 335: robust liveness of the loop and of the primary. *)
Definition isLoopRobust (ch : Channel) (streams : gmap string SRSStream) : bool :=
  match streams !! Name ch with
  | Some s => PublishActive s && ((0 <? KbpsRecv s) || (0 <? VideoWidth s))
  | None => false
  end.

Definition isObsRobust (ch : Channel) (streams : gmap string SRSStream) : bool :=
  match fst (detectOBS ch streams) with
  | Some s => PublishActive s && (100 <? KbpsRecv s)
  | None => false
  end.

(** Lines 346-360: the current source, read from the map (default LOOP) and
    overridden by the persisted value when that differs; the map is corrected. *)
Definition mapSource (ch : Channel) (c : Controller) : string :=
  let currentSource := default EmptyString (activeSourceMap c !! Name ch) in
  if String.eqb currentSource "" then "LOOP" else currentSource.

Definition storeDiffers (ch : Channel) (c : Controller) : bool :=
  negb (String.eqb (ActiveSource ch) "") && negb (String.eqb (ActiveSource ch) (mapSource ch c)).

Definition resolvedSource (ch : Channel) (c : Controller) : string :=
  if storeDiffers ch c then ActiveSource ch else mapSource ch c.

Definition syncFromStore (ch : Channel) (c : Controller) : Controller :=
  if storeDiffers ch c
  then set_activeSourceMap (<[Name ch := ActiveSource ch]> (activeSourceMap c)) c
  else c.

(** Lines 362-374: the manual LOOP override, cleared when the primary is down. *)
Definition hasOverride (ch : Channel) (c : Controller) : bool :=
  default false (manualLoopOverride c !! Name ch).

Definition clearOverride (ch : Channel) (obsRobust : bool) (c : Controller) : Controller * bool :=
  if negb obsRobust && hasOverride ch c
  then (set_manualLoopOverride (delete (Name ch) (manualLoopOverride c)) c, false)
  else (c, hasOverride ch c).

(** Lines 376-390: the auto-switch to OBS. *)
Definition autoSwitchFires (ch : Channel) (obsRobust : bool) (currentSource : string)
    (hasManualLoopOverride : bool) : bool :=
  OBSOverrideEnabled ch && obsRobust && negb (String.eqb currentSource "OBS")
  && negb hasManualLoopOverride.

Definition autoSwitchMessage (ch : Channel) : string :=
  "Channel " +:+ Name ch +:+ " auto-switched to OBS (connected)".

Definition autoSwitch (now : Z) (ch : Channel) (obsRobust : bool) (currentSource : string)
    (hasManualLoopOverride : bool) (c : Controller) : Controller * list Call * string :=
  if autoSwitchFires ch obsRobust currentSource hasManualLoopOverride then
    let c := set_activeSourceMap (<[Name ch := "OBS"]> (activeSourceMap c)) c in
    let c := Log now "info" "switch" (autoSwitchMessage ch) c in
    (c, [GoUpdateActiveSource (ID ch) "OBS"], "OBS")
  else (c, [], currentSource).

(** Lines 412-415: the cooldown window, 60 s when the channel's is not positive. *)
Definition failoverTimeout (ch : Channel) : Z :=
  let t := wrap64 (FailoverTimeout ch * Second) in
  if t <=? 0 then wrap64 (60 * Second) else t.

(** Lines 343-390: the health samples, then the source for this tick: the
    controller, the goroutines started, and [currentSource]. *)
Definition selectSource (now : Z) (ch : Channel) (streams : gmap string SRSStream)
    (c : Controller) : Controller * list Call * string :=
  let obsRobust := isObsRobust ch streams in
  let c := UpdateHealthHistory (Name ch +:+ "_loop") (isLoopRobust ch streams) c in
  let c := UpdateHealthHistory (Name ch +:+ "_obs") obsRobust c in
  let currentSource := resolvedSource ch c in
  let c := syncFromStore ch c in
  let cleared := clearOverride ch obsRobust c in
  autoSwitch now ch obsRobust currentSource (snd cleared) (fst cleared).

(** Lines 407-437: the takeover cooldown, then the loop container and the
    relay. *)
Definition superviseLoop (now : Z) (ch : Channel) (obsAlive loopAlive : bool)
    (c : Controller) : Controller * list Call :=
  let containerName := loopContainer (Name ch) in
  let supervise :=
    [ if LoopEnabled ch then EnsureContainerRunning ch containerName
      else EnsureContainerStopped containerName;
      ReconcileDestinations ch (obsAlive || loopAlive || LoopEnabled ch) ] in
  match takeoverCooldown c !! Name ch with
  | Some cooldownTime =>
      if now - cooldownTime <? failoverTimeout ch then
        (c, [ EnsureContainerStopped containerName;
              ReconcileDestinations ch (obsAlive || loopAlive) ])
      else
        (set_takeoverCooldown (delete (Name ch) (takeoverCooldown c)) c, supervise)
  | None => (c, supervise)
  end.

Definition ReconcileChannel (now : Z) (ch : Channel) (streams : gmap string SRSStream)
    (c : Controller) : Controller * list Call :=
  if negb (Enabled ch) then
    (c, [EnsureContainerStopped (loopContainer (Name ch)); ReconcileDestinations ch false])
  else
    let loopAlive := bool_decide (is_Some (streams !! Name ch)) in
    let obsAlive := bool_decide (is_Some (fst (detectOBS ch streams))) in
    let selected := selectSource now ch streams c in
    let ch := with_source ch (snd (detectOBS ch streams)) (snd selected) in
    let supervised := superviseLoop now ch obsAlive loopAlive (fst (fst selected)) in
    (fst supervised, snd (fst selected) ++ snd supervised).

(** *** The store: the columns of [channels] and [audit_logs] the handlers use *)

Record ChannelRow := {
  row_id : Z;
  row_name : string;
  row_enabled : bool;
  obs_token : string;
  loop_token : string;
  obs_token_hash : option string;
  loop_token_hash : option string;
  current_active_source : string;
  loop_enabled : bool;
  obs_override_enabled : bool;
  failover_timeout_seconds : Z
}.

Record AuditLog := {
  action : string;
  resource_type : string;
  resource_id : string;
  details : string;
  ip_address : string
}.

Record DB := {
  channels : list ChannelRow;
  destinations : list Destination;
  audit_logs : list AuditLog
}.

Definition set_source (source : string) (r : ChannelRow) : ChannelRow :=
  {| row_id := row_id r; row_name := row_name r; row_enabled := row_enabled r;
     obs_token := obs_token r; loop_token := loop_token r;
     obs_token_hash := obs_token_hash r; loop_token_hash := loop_token_hash r;
     current_active_source := source; loop_enabled := loop_enabled r;
     obs_override_enabled := obs_override_enabled r;
     failover_timeout_seconds := failover_timeout_seconds r |}.

(** [UPDATE channels SET current_active_source = $1 WHERE name = $2]. *)
Definition setSourceByName (db : DB) (name source : string) : DB :=
  {| channels := map (fun r => if String.eqb (row_name r) name then set_source source r else r)
                     (channels db);
     destinations := destinations db; audit_logs := audit_logs db |}.

(** [UpdateActiveSource] (main.go:889): the same update, [WHERE id = $2]. *)
Definition UpdateActiveSource (db : DB) (channelID : Z) (source : string) : DB :=
  {| channels := map (fun r => if row_id r =? channelID then set_source source r else r)
                     (channels db);
     destinations := destinations db; audit_logs := audit_logs db |}.

(** [INSERT INTO audit_logs ...]. *)
Definition insertAudit (db : DB) (entry : AuditLog) : DB :=
  {| channels := channels db; destinations := destinations db;
     audit_logs := audit_logs db ++ [entry] |}.

(** [SELECT ... FROM channels WHERE name = $1 AND enabled = true], and the
    same by [obs_token] and by [id]; [QueryRow] takes the first row. *)
Definition queryByName (db : DB) (name : string) : option ChannelRow :=
  List.find (fun r => String.eqb (row_name r) name && row_enabled r) (channels db).
Definition queryByObsToken (db : DB) (token : string) : option ChannelRow :=
  List.find (fun r => String.eqb (obs_token r) token && row_enabled r) (channels db).
Definition queryByID (db : DB) (id : Z) : option ChannelRow :=
  List.find (fun r => row_id r =? id) (channels db).
Definition queryAnyByName (db : DB) (name : string) : option ChannelRow :=
  List.find (fun r => String.eqb (row_name r) name) (channels db).

(** One turn of the loop of [GetChannels] (main.go:826-861), without the
    live enrichment, for a row whose [Scan] succeeds: the scanned columns, the
    destinations of the channel, and as tokens what lines 838-847 leave, which
    is the plaintext column, or the result of [Decrypt] on the encrypted
    columns when both are set and decrypt.  A row whose [Scan] fails is
    skipped, and [Decrypt] panics on a stored IV that is not 12 bytes long:
    then the tick has no channel for the row. *)
Definition channelWithTokens (db : DB) (r : ChannelRow) (obsToken loopToken : string)
  : Channel :=
  {| ID := row_id r; Name := row_name r; OBSToken := obsToken; LoopToken := loopToken;
     LoopEnabled := loop_enabled r; Enabled := row_enabled r;
     ActiveSource := current_active_source r;
     OBSOverrideEnabled := obs_override_enabled r;
     FailoverTimeout := failover_timeout_seconds r;
     Destinations := List.filter (fun d => dest_ChannelID d =? row_id r) (destinations db);
     ObsSourceStream := EmptyString |}.

(** [GetChannels] (main.go:803) over a store whose rows scan and whose
    encrypted token columns are NULL, as in the rows the schema seeds: one
    [Channel] per row, the tokens being the plaintext columns. *)
Definition channelOfRow (db : DB) (r : ChannelRow) : Channel :=
  {| ID := row_id r; Name := row_name r; OBSToken := obs_token r; LoopToken := loop_token r;
     LoopEnabled := loop_enabled r; Enabled := row_enabled r;
     ActiveSource := current_active_source r;
     OBSOverrideEnabled := obs_override_enabled r;
     FailoverTimeout := failover_timeout_seconds r;
     Destinations := List.filter (fun d => dest_ChannelID d =? row_id r) (destinations db);
     ObsSourceStream := EmptyString |}.

Definition GetChannels (db : DB) : list Channel := map (channelOfRow db) (channels db).

(** [Reconcile] (main.go:282): one tick over every channel of the store. *)
Definition Reconcile (now : Z) (streams : gmap string SRSStream) (db : DB) (c : Controller)
  : Controller * list Call :=
  fold_left
    (fun acc ch => let '(c', calls) := ReconcileChannel now ch streams (fst acc) in
                   (c', snd acc ++ calls))
    (GetChannels db) (c, []).

(** What a goroutine started by [go] does to the store once it runs. *)
Definition runCall (db : DB) (call : Call) : DB :=
  match call with
  | GoUpdateActiveSource channelID source => UpdateActiveSource db channelID source
  | _ => db
  end.

(** *** The SRS hooks and the operator endpoints *)

Record Response := { status : Z; body : string }.

Record HookPayload := { Action : string; Stream : string; Param : string; IP : string }.

Definition storeHookField (acc : HookPayload * bool) (kv : string * JSON.Value)
  : HookPayload * bool :=
  let p := fst acc in
  let put (old : string) := JSON.storeString (snd kv) old in
  if JSON.keyIs "action" (fst kv) then
    ({| Action := fst (put (Action p)); Stream := Stream p; Param := Param p; IP := IP p |},
     snd acc || snd (put (Action p)))
  else if JSON.keyIs "stream" (fst kv) then
    ({| Action := Action p; Stream := fst (put (Stream p)); Param := Param p; IP := IP p |},
     snd acc || snd (put (Stream p)))
  else if JSON.keyIs "param" (fst kv) then
    ({| Action := Action p; Stream := Stream p; Param := fst (put (Param p)); IP := IP p |},
     snd acc || snd (put (Param p)))
  else if JSON.keyIs "ip" (fst kv) then
    ({| Action := Action p; Stream := Stream p; Param := Param p; IP := fst (put (IP p)) |},
     snd acc || snd (put (IP p)))
  else acc.

(** [json.Unmarshal(body, &payload)]; [None] when it returns an error. *)
Definition unmarshalHook (req : JSON.Body) : option HookPayload :=
  let zero := {| Action := EmptyString; Stream := EmptyString;
                 Param := EmptyString; IP := EmptyString |} in
  match JSON.whole req with
  | None => None
  | Some JSON.Null => Some zero
  | Some (JSON.Object fields) =>
      let r := fold_left storeHookField fields (zero, false) in
      if snd r then None else Some (fst r)
  | Some _ => None
  end.

Definition hashIs (h : option string) (tokenHash : string) : bool :=
  match h with
  | Some s => String.eqb s tokenHash
  | None => false
  end.

Definition hashDiffers (h : option string) (tokenHash : string) : bool :=
  match h with
  | Some s => negb (String.eqb s tokenHash)
  | None => false
  end.

(** Lines 1962-1981: which token the publisher presented. *)
Definition matchSource (r : ChannelRow) (token tokenHash : string) : option string :=
  if hashIs (obs_token_hash r) tokenHash then Some "OBS"
  else if hashIs (loop_token_hash r) tokenHash then Some "LOOP"
  else if String.eqb token (obs_token r) then Some "OBS"
  else if String.eqb token (loop_token r) then Some "LOOP"
  else None.

(** The verdict of lines 1909-1987 of [OnPublishHandler]. *)
Inductive Verdict :=
| BadRequest
| UnknownStream (payload : HookPayload) (streamName : string)
| InvalidOBSToken (payload : HookPayload)
| InvalidToken (payload : HookPayload)
| Accepted (payload : HookPayload) (streamName sourceType : string).

(** What [QueryRow(...).Scan(...)] ends in: a row; [sql.ErrNoRows]; or any
    other error (the store cannot be reached, a column cannot be converted),
    with the columns [Scan] had assigned by then, the others at their zero
    values. *)
Inductive QueryOutcome :=
| Row (r : ChannelRow)
| NoRows
| QueryFailed (assigned : ChannelRow).

(** The answer of a store that can be reached and whose rows convert. *)
Definition answered (found : option ChannelRow) : QueryOutcome :=
  match found with
  | Some r => Row r
  | None => NoRows
  end.

(** What [Scan] leaves when it assigns nothing: [var ch Channel] and the two
    [sql.NullString] as declared. *)
Definition unassigned : ChannelRow :=
  {| row_id := 0; row_name := EmptyString; row_enabled := false;
     obs_token := EmptyString; loop_token := EmptyString;
     obs_token_hash := None; loop_token_hash := None;
     current_active_source := EmptyString; loop_enabled := false;
     obs_override_enabled := false; failover_timeout_seconds := 0 |}.

(** Lines 1909-1987, for the outcomes [byName] and [byToken] of the two
    queries.  The handler compares the error with [sql.ErrNoRows] only: on
    any other error it goes on with what [Scan] assigned. *)
Definition authenticateOn (req : JSON.Body) (byName byToken : string -> QueryOutcome)
  : Verdict :=
  match unmarshalHook req with
  | None => BadRequest
  | Some payload =>
      let token := TrimPrefix (Param payload) "?token=" in
      let suffixed := HasSuffix (Stream payload) "-obs" in
      let streamName :=
        if suffixed then TrimSuffix (Stream payload) "-obs" else Stream payload in
      let tokenHash := Crypto.HashToken token in
      let found :=
        match byName streamName with
        | Row r | QueryFailed r => Some (r, suffixed)
        | NoRows =>
            match byToken streamName with
            | Row r | QueryFailed r => Some (r, true)
            | NoRows => None
            end
        end in
      match found with
      | None => UnknownStream payload streamName
      | Some (r, isOBSStream) =>
          if isOBSStream && negb (String.eqb token (obs_token r))
             && hashDiffers (obs_token_hash r) tokenHash
          then InvalidOBSToken payload
          else match matchSource r token tokenHash with
               | None => InvalidToken payload
               | Some sourceType => Accepted payload streamName sourceType
               end
      end
  end.

(** The same over a store that answers both queries. *)
Definition authenticate (req : JSON.Body) (db : DB) : Verdict :=
  authenticateOn req (fun name => answered (queryByName db name))
                     (fun token => answered (queryByObsToken db token)).

Definition dq : string := String "034"%char EmptyString.

Definition publishAudit (payload : HookPayload) (sourceType : string) : AuditLog :=
  {| action := "STREAM_PUBLISH"; resource_type := "channel";
     resource_id := Stream payload;
     details := "{" +:+ dq +:+ "source" +:+ dq +:+ ": " +:+ dq +:+ sourceType +:+ dq +:+ "}";
     ip_address := IP payload |}.

(** [OnPublishHandler] (main.go:1897). *)
Definition OnPublishHandler (now : Z) (req : JSON.Body) (c : Controller) (db : DB)
  : Controller * DB * Response * list Call :=
  let c := Log now "info" "auth" ("Raw Publish Body: " +:+ JSON.raw req) c in
  match authenticate req db with
  | BadRequest =>
      (Log now "error" "auth" "Unmarshal failed" c, db,
       {| status := 400; body := "Bad request" |}, [])
  | UnknownStream payload streamName =>
      (Log now "warn" "auth"
           ("Rejected unknown stream: " +:+ Stream payload +:+ " (base: " +:+ streamName +:+ ")") c,
       db, {| status := 403; body := "Unknown stream" |}, [])
  | InvalidOBSToken payload =>
      (Log now "warn" "auth" ("Invalid OBS token for stream: " +:+ Stream payload) c,
       db, {| status := 403; body := "Invalid token" |}, [])
  | InvalidToken payload =>
      (Log now "warn" "auth"
           ("Invalid token for stream: " +:+ Stream payload +:+ " from " +:+ IP payload) c,
       db, {| status := 403; body := "Invalid token" |}, [])
  | Accepted payload streamName sourceType =>
      let c := Log now "info" "auth"
                   ("Accepted " +:+ sourceType +:+ " publish for " +:+ Stream payload
                    +:+ " from " +:+ IP payload) c in
      let '(c, db, calls) :=
        if String.eqb sourceType "OBS" then
          let c := Log now "info" "failover"
                       ("OBS connected for " +:+ streamName
                        +:+ " - stopping loop container for automatic takeover") c in
          let c := set_takeoverCooldown (<[streamName := now]> (takeoverCooldown c)) c in
          (c, setSourceByName db streamName "OBS",
           [GoEnsureContainerStopped (loopContainer streamName)])
        else (c, db, []) in
      (c, insertAudit db (publishAudit payload sourceType),
       {| status := 200; body := "0" |}, calls)
  end.

(** [OnUnpublishHandler] (main.go:2016). *)
Definition OnUnpublishHandler (now : Z) (req : JSON.Body) (c : Controller) (db : DB)
  : Controller * DB * Response :=
  let accept := {| status := 200; body := "0" |} in
  match unmarshalHook req with
  | None => (c, db, accept)
  | Some payload =>
      let token := TrimPrefix (Param payload) "?token=" in
      let streamName :=
        if HasSuffix (Stream payload) "-obs" then TrimSuffix (Stream payload) "-obs"
        else Stream payload in
      match queryAnyByName db streamName with
      | Some r =>
          if String.eqb token (obs_token r) then
            let c := Log now "info" "failover"
                         ("OBS disconnected for " +:+ streamName
                          +:+ " - clearing cooldown to allow loop restart") c in
            let c := set_takeoverCooldown (delete streamName (takeoverCooldown c)) c in
            let db := setSourceByName db streamName "LOOP" in
            let db := insertAudit db
                        {| action := "STREAM_UNPUBLISH"; resource_type := "channel";
                           resource_id := Stream payload;
                           details := "{" +:+ dq +:+ "source" +:+ dq +:+ ": " +:+ dq +:+ "OBS"
                                      +:+ dq +:+ ", " +:+ dq +:+ "action" +:+ dq +:+ ": " +:+ dq
                                      +:+ "failback_to_loop" +:+ dq +:+ "}";
                           ip_address := IP payload |} in
            (c, db, accept)
          else (c, db, accept)
      | None => (c, db, accept)
      end
  end.

(** [TakeoverHandler] (main.go:2071). *)
Definition TakeoverHandler (now : Z) (method path remoteAddr : string)
    (c : Controller) (db : DB) : Controller * DB * Response * list Call :=
  if String.eqb method "OPTIONS" then (c, db, {| status := 200; body := "" |}, [])
  else if negb (String.eqb method "POST") then
    (c, db, {| status := 405; body := "Method not allowed" |}, [])
  else
    let channelName := TrimSuffix (TrimPrefix path "/api/takeover/") "/" in
    if String.eqb channelName "" then
      (c, db, {| status := 400; body := "Channel name required" |}, [])
    else
      match queryByName db channelName with
      | None => (c, db, {| status := 404; body := "Channel not found or disabled" |}, [])
      | Some r =>
          let c := Log now "info" "api"
                       ("OBS takeover requested for " +:+ channelName
                        +:+ " - stopping loop container") c in
          let c := set_takeoverCooldown (<[channelName := now]> (takeoverCooldown c)) c in
          let db := UpdateActiveSource db (row_id r) "OBS" in
          let db := insertAudit db
                      {| action := "OBS_TAKEOVER"; resource_type := "channel";
                         resource_id := channelName;
                         details := "{" +:+ dq +:+ "action" +:+ dq +:+ ": " +:+ dq
                                    +:+ "loop_stopped" +:+ dq +:+ "}";
                         ip_address := remoteAddr |} in
          (c, db, {| status := 200; body := "success" |},
           [EnsureContainerStopped (loopContainer channelName)])
      end.

(** The [switch-to-loop] and [switch-to-obs] arms of [ChannelActionHandler]
    (main.go:1545 and 1557), after the handler has read the channel's row. *)
Definition switchToLoop (now : Z) (channelID : Z) (c : Controller) (db : DB)
  : Controller * DB * Response :=
  match queryByID db channelID with
  | None => (c, db, {| status := 404; body := "Channel not found" |})
  | Some r =>
      let c := Log now "info" "api"
                   ("Manually switching channel " +:+ row_name r +:+ " to LOOP") c in
      let db := UpdateActiveSource db channelID "LOOP" in
      let c := set_activeSourceMap (<[row_name r := "LOOP"]> (activeSourceMap c)) c in
      let c := set_manualLoopOverride (<[row_name r := true]> (manualLoopOverride c)) c in
      let c := Log now "info" "switch"
                   ("Channel " +:+ row_name r +:+ " switched to LOOP (manual override active)") c in
      (c, db, {| status := 200; body := "switched" |})
  end.

Definition switchToOBS (now : Z) (channelID : Z) (c : Controller) (db : DB)
  : Controller * DB * Response :=
  match queryByID db channelID with
  | None => (c, db, {| status := 404; body := "Channel not found" |})
  | Some r =>
      let c := Log now "info" "api"
                   ("Manually switching channel " +:+ row_name r +:+ " to OBS") c in
      let db := UpdateActiveSource db channelID "OBS" in
      let c := set_activeSourceMap (<[row_name r := "OBS"]> (activeSourceMap c)) c in
      let c := set_manualLoopOverride (delete (row_name r) (manualLoopOverride c)) c in
      let c := Log now "info" "switch"
                   ("Channel " +:+ row_name r +:+ " switched to OBS (manual)") c in
      (c, db, {| status := 200; body := "switched" |})
  end.

(** [LogsHandler] (main.go:1853).  [level] is the query parameter of that
    name and [limitStr] what [strconv.Atoi] makes of the parameter [limit]
    ([None]: it returns an error).  The loop runs from the newest entry to the
    oldest while fewer than [limit] entries have been kept; [remaining] holds
    the entries at the indices [i], [i-1], ..., [0]. *)
Definition logMatches (level : string) (entry : LogEntry) : bool :=
  String.eqb level "" || String.eqb level "all" || String.eqb (Level entry) level.

Fixpoint scanLogs (level : string) (limit : Z) (remaining filtered : list LogEntry)
  : list LogEntry :=
  match remaining with
  | [] => filtered
  | entry :: rest =>
      if Z.of_nat (List.length filtered) <? limit then
        scanLogs level limit rest
          (if logMatches level entry then filtered ++ [entry] else filtered)
      else filtered
  end.

Definition logLimit (limitStr : option Z) : Z :=
  match limitStr with
  | Some l => if 0 <? l then l else 100
  | None => 100
  end.

Definition LogsHandler (level : string) (limitStr : option Z) (c : Controller)
  : list LogEntry :=
  scanLogs level (logLimit limitStr) (rev (LogBuffer c)) [].

End Controller.

(** ** The relay manager *)

Module Relay.

Definition Second : Z := 1000000000.
Definition Millisecond : Z := 1000000.
Definition wrap64 (x : Z) : Z := Controller.wrap64 x.

Record Config := {
  SourceURL : string;
  Destinations : list string;
  VideoBitrate : Z;
  AudioBitrate : Z;
  KeyframeInterval : Z
}.

(** [var newConfig Config]: the zero value. *)
Definition zeroConfig : Config :=
  {| SourceURL := EmptyString; Destinations := []; VideoBitrate := 0;
     AudioBitrate := 0; KeyframeInterval := 0 |}.

Definition pipePath : string := "/tmp/stream_pipe".
Definition cleanStream : string := "rtmp://srs:1935/live/relay_clean".
Definition loopStream : string := "rtmp://srs:1935/live/waheguru".

(** An [exec.Cmd] as the code reads it: [Setpgid] is the flag of its
    [SysProcAttr] (false when the code sets none), [Process] is set by a
    successful [Start], [ProcessState] once [Wait] has returned.  Variables of
    type [*exec.Cmd] are indices into a heap of such objects; [None] is nil. *)
Record Cmd := { Args : list string; Setpgid : bool; Process : option Z; ProcessState : bool }.

(** The bodies of the three [go func() { ... }()] in [startOBSPump],
    [startTranscoderProcess] and [startDistributor]. *)
Inductive Task :=
| ObsPump (url : string)
| TranscoderWait (cmd : nat)
| Distributor (destURL : string).

(** What leaves the relay: signals to process groups, sleeps, started child
    processes, started goroutines and log lines. *)
Inductive Effect :=
| Kill (pgid : Z) (signal : string)
| Sleep (duration : Z)
| Start (args : list string) (pid : Z)
| Go (task : Task)
| LogLine (message : string).

(** The package-level variables. *)
Record State := {
  currentConfig : Config;
  currentMode : string;
  loopCmd : option nat;
  obsCmd : option nat;
  transcoderCmd : option nat;
  distributors : gmap string (option nat);
  failureCounts : gmap string Z;
  heap : list Cmd;
  nextPid : Z
}.

Definition set_currentConfig (cfg : Config) (s : State) : State :=
  {| currentConfig := cfg; currentMode := currentMode s; loopCmd := loopCmd s;
     obsCmd := obsCmd s; transcoderCmd := transcoderCmd s; distributors := distributors s;
     failureCounts := failureCounts s; heap := heap s; nextPid := nextPid s |}.

Definition set_currentMode (mode : string) (s : State) : State :=
  {| currentConfig := currentConfig s; currentMode := mode; loopCmd := loopCmd s;
     obsCmd := obsCmd s; transcoderCmd := transcoderCmd s; distributors := distributors s;
     failureCounts := failureCounts s; heap := heap s; nextPid := nextPid s |}.

Definition set_distributors (d : gmap string (option nat)) (s : State) : State :=
  {| currentConfig := currentConfig s; currentMode := currentMode s; loopCmd := loopCmd s;
     obsCmd := obsCmd s; transcoderCmd := transcoderCmd s; distributors := d;
     failureCounts := failureCounts s; heap := heap s; nextPid := nextPid s |}.

Definition set_failureCounts (f : gmap string Z) (s : State) : State :=
  {| currentConfig := currentConfig s; currentMode := currentMode s; loopCmd := loopCmd s;
     obsCmd := obsCmd s; transcoderCmd := transcoderCmd s; distributors := distributors s;
     failureCounts := f; heap := heap s; nextPid := nextPid s |}.

(** The state [main] starts from: mode LOOP, no configuration, empty maps. *)
Definition initialState : State :=
  {| currentConfig := zeroConfig; currentMode := "LOOP"; loopCmd := None; obsCmd := None;
     transcoderCmd := None; distributors := ∅; failureCounts := ∅; heap := []; nextPid := 2 |}.

Definition deref (s : State) (p : option nat) : option Cmd :=
  match p with
  | Some i => heap s !! i
  | None => None
  end.

(** [cmd != nil && cmd.Process != nil], giving the pid. *)
Definition processOf (s : State) (p : option nat) : option Z :=
  match deref s p with
  | Some cmd => Process cmd
  | None => None
  end.

(** [cmd != nil && cmd.ProcessState == nil]. *)
Definition isRunning (s : State) (p : option nat) : bool :=
  match deref s p with
  | Some cmd => negb (ProcessState cmd)
  | None => false
  end.

Section Processes.

(** Whether [cmd.Start()] succeeds for a command line: decided outside the
    relay (the executable, the process table). *)
Variable startOK : list string -> bool.

(** [exec.Command("ffmpeg", args...)], [cmd.SysProcAttr] as the caller sets
    it, and [cmd.Start()]: a new object on the heap, with a process (and its
    pid as result) when the start succeeds. *)
Definition startCmd (setpgid : bool) (args : list string) (s : State)
  : State * nat * option Z :=
  let pid := if startOK args then Some (nextPid s) else None in
  ({| currentConfig := currentConfig s; currentMode := currentMode s; loopCmd := loopCmd s;
      obsCmd := obsCmd s; transcoderCmd := transcoderCmd s; distributors := distributors s;
      failureCounts := failureCounts s;
      heap := heap s ++ [{| Args := args; Setpgid := setpgid; Process := pid;
                            ProcessState := false |}];
      nextPid := if startOK args then nextPid s + 1 else nextPid s |},
   List.length (heap s), pid).

Definition started (args : list string) (pid : option Z) : list Effect :=
  match pid with
  | Some p => [Start args p]
  | None => []
  end.

(** [cmd.Wait()] has returned: the object's [ProcessState] is set. *)
Definition markExited (cmd : nat) (s : State) : State :=
  {| currentConfig := currentConfig s; currentMode := currentMode s; loopCmd := loopCmd s;
     obsCmd := obsCmd s; transcoderCmd := transcoderCmd s; distributors := distributors s;
     failureCounts := failureCounts s;
     heap := alter (fun c => {| Args := Args c; Setpgid := Setpgid c; Process := Process c;
                               ProcessState := true |})
                   cmd (heap s);
     nextPid := nextPid s |}.

(** [switchMode] (line 261). *)
Definition switchMode (mode : string) (s : State) : State * list Effect :=
  (set_currentMode mode s, [LogLine ("[RELAY] Muxer Mode: " +:+ mode)]).

(** [startOBSPump] (line 174), up to the [go] statement. *)
Definition startOBSPump (url : string) (s : State) : State * list Effect :=
  (s,
   match processOf s (obsCmd s) with
   | Some pid => [Kill (- pid) "SIGKILL"; Sleep (100 * Millisecond)]
   | None => []
   end ++ [Go (ObsPump url)]).

Definition transcoderArgs : list string :=
  [ "-hide_banner"; "-loglevel"; "warning";
    "-f"; "mpegts"; "-probesize"; "32M"; "-analyzeduration"; "100000";
    "-i"; pipePath;
    "-c:v"; "libx264"; "-preset"; "ultrafast"; "-tune"; "zerolatency";
    "-b:v"; "4000k"; "-maxrate"; "4000k"; "-bufsize"; "8000k"; "-pix_fmt"; "yuv420p";
    "-g"; "60"; "-keyint_min"; "60"; "-sc_threshold"; "0";
    "-c:a"; "aac"; "-b:a"; "128k"; "-ac"; "2";
    "-f"; "flv"; cleanStream ].

(** [startTranscoderProcess] (line 374), in the two parts it runs in: the
    test of lines 375-377, and the start of lines 378-405.  The function
    holds no lock from the one to the other, and it is called from the HTTP
    handler (through [handleConfigChange]) and from the goroutine that waited
    for the last transcoder. *)
Definition spawnTranscoder (s : State) : State * list Effect :=
  let '(s1, cmd, pid) := startCmd true transcoderArgs s in
  ({| currentConfig := currentConfig s1; currentMode := currentMode s1;
      loopCmd := loopCmd s1; obsCmd := obsCmd s1; transcoderCmd := Some cmd;
      distributors := distributors s1; failureCounts := failureCounts s1;
      heap := heap s1; nextPid := nextPid s1 |},
   [LogLine "[RELAY] Starting Transcoder (Pipe -> SRS Clean)"]
   ++ started transcoderArgs pid ++ [Go (TranscoderWait cmd)]).

Definition startTranscoderProcess (s : State) : State * list Effect :=
  match processOf s (transcoderCmd s) with
  | Some _ => (s, [])
  | None => spawnTranscoder s
  end.

(** [startDistributor] (line 435): only the [go] statement runs in the caller. *)
Definition startDistributor (destURL : string) : list Effect := [Go (Distributor destURL)].

(** [manageDistributors] (line 408).  The first loop ranges over the
    [distributors] map, the second over the new list. *)
Definition dropStale (newDestSet : gset string) (s : State)
    (acc : gmap string (option nat) * gmap string Z * list Effect)
    (kv : string * option nat)
  : gmap string (option nat) * gmap string Z * list Effect :=
  if decide (fst kv ∈ newDestSet) then acc
  else (delete (fst kv) (fst (fst acc)),
        delete (fst kv) (snd (fst acc)),
        snd acc ++ match processOf s (snd kv) with
                   | Some pid => [Kill (- pid) "SIGTERM"]
                   | None => []
                   end).

Definition addMissing (acc : gmap string (option nat) * list Effect) (url : string)
  : gmap string (option nat) * list Effect :=
  match fst acc !! url with
  | Some _ => acc
  | None => (<[url := None]> (fst acc),
             snd acc ++ [LogLine ("[RELAY] Starting Dist: " +:+ url)] ++ startDistributor url)
  end.

Definition manageDistributors (destinations : list string) (s : State) : State * list Effect :=
  let newDestSet : gset string := list_to_set destinations in
  let dropped :=
    fold_left (dropStale newDestSet s) (map_to_list (distributors s))
              (distributors s, failureCounts s, []) in
  let added := fold_left addMissing destinations (fst (fst dropped), []) in
  (set_failureCounts (snd (fst dropped)) (set_distributors (fst added) s),
   snd dropped ++ snd added).

(** [handleConfigChange] (line 351), in its three blocks: the source change
    (lines 358-366), the transcoder (lines 368-370), the distributors. *)
Definition applySource (sourceChanged : bool) (oldSrc : string) (newConfig : Config)
    (s : State) : State * list Effect :=
  if sourceChanged then
    let switched :=
      if String.eqb (SourceURL newConfig) loopStream then switchMode "LOOP" s
      else startOBSPump (SourceURL newConfig) s in
    (fst switched,
     LogLine ("[RELAY] Source Change: " +:+ oldSrc +:+ " -> " +:+ SourceURL newConfig)
     :: snd switched)
  else (s, []).

Definition ensureTranscoder (s : State) : State * list Effect :=
  if negb (isRunning s (transcoderCmd s)) then startTranscoderProcess s else (s, []).

Definition handleConfigChange (newConfig : Config) (s : State) : State * list Effect :=
  let sourceChanged := negb (String.eqb (SourceURL newConfig) (SourceURL (currentConfig s))) in
  let oldSrc := SourceURL (currentConfig s) in
  let s := set_currentConfig newConfig s in
  let sourced := applySource sourceChanged oldSrc newConfig s in
  let transcoded := ensureTranscoder (fst sourced) in
  let managed := manageDistributors (Destinations newConfig) (fst transcoded) in
  (fst managed, snd sourced ++ snd transcoded ++ snd managed).

(** *** One distributor goroutine (line 436), in its two halves *)

Definition failsOf (s : State) (destURL : string) : Z :=
  default 0 (failureCounts s !! destURL).

(** [time.Duration(fails) * 2 * time.Second]. *)
Definition retryDelay (fails : Z) : Z := wrap64 (wrap64 (fails * 2) * Second).

Definition distributorArgs (destURL : string) : list string :=
  [ "-hide_banner"; "-loglevel"; "warning"; "-i"; cleanStream;
    "-c"; "copy"; "-f"; "flv"; destURL ].

(** From the top of the goroutine to [cmd.Wait()]: the back-off sleep, then
    the start.  A failed start counts as a failure and starts over.  The
    result names the started command, if any. *)
Definition distributorLaunch (destURL : string) (s : State)
  : State * option nat * list Effect :=
  let fails := failsOf s destURL in
  let slept := if 0 <? fails then [Sleep (retryDelay fails)] else [] in
  let '(s1, cmd, pid) := startCmd true (distributorArgs destURL) s in
  match pid with
  | None =>
      (set_failureCounts (<[destURL := wrap64 (failsOf s1 destURL + 1)]> (failureCounts s1)) s1,
       None, slept ++ startDistributor destURL)
  | Some p =>
      (set_distributors (<[destURL := Some cmd]> (distributors s1)) s1,
       Some cmd, slept ++ [Start (distributorArgs destURL) p])
  end.

(** From the return of [cmd.Wait()] on the command [cmd] to the end of the
    goroutine; [elapsed] is [time.Since(start)]. *)
Definition distributorExit (destURL : string) (cmd : nat) (elapsed : Z) (s : State)
  : State * list Effect :=
  let s := markExited cmd s in
  let s :=
    if 60 * Second <? elapsed
    then set_failureCounts (<[destURL := 0]> (failureCounts s)) s
    else set_failureCounts (<[destURL := wrap64 (failsOf s destURL + 1)]> (failureCounts s)) s in
  if bool_decide (destURL ∈ Destinations (currentConfig s))
  then (s, startDistributor destURL)
  else (set_distributors (delete destURL (distributors s)) s, []).

(** *** The control endpoints *)

Definition storeConfigField (acc : Config * bool) (kv : string * JSON.Value) : Config * bool :=
  let cfg := fst acc in
  let v := snd kv in
  if JSON.keyIs "source_url" (fst kv) then
    ({| SourceURL := fst (JSON.storeString v (SourceURL cfg));
        Destinations := Destinations cfg; VideoBitrate := VideoBitrate cfg;
        AudioBitrate := AudioBitrate cfg; KeyframeInterval := KeyframeInterval cfg |},
     snd acc || snd (JSON.storeString v (SourceURL cfg)))
  else if JSON.keyIs "destinations" (fst kv) then
    ({| SourceURL := SourceURL cfg;
        Destinations := fst (JSON.storeStringSlice v (Destinations cfg));
        VideoBitrate := VideoBitrate cfg;
        AudioBitrate := AudioBitrate cfg; KeyframeInterval := KeyframeInterval cfg |},
     snd acc || snd (JSON.storeStringSlice v (Destinations cfg)))
  else if JSON.keyIs "video_bitrate" (fst kv) then
    ({| SourceURL := SourceURL cfg; Destinations := Destinations cfg;
        VideoBitrate := fst (JSON.storeInt v (VideoBitrate cfg));
        AudioBitrate := AudioBitrate cfg; KeyframeInterval := KeyframeInterval cfg |},
     snd acc || snd (JSON.storeInt v (VideoBitrate cfg)))
  else if JSON.keyIs "audio_bitrate" (fst kv) then
    ({| SourceURL := SourceURL cfg; Destinations := Destinations cfg;
        VideoBitrate := VideoBitrate cfg;
        AudioBitrate := fst (JSON.storeInt v (AudioBitrate cfg));
        KeyframeInterval := KeyframeInterval cfg |},
     snd acc || snd (JSON.storeInt v (AudioBitrate cfg)))
  else if JSON.keyIs "keyframe_interval" (fst kv) then
    ({| SourceURL := SourceURL cfg; Destinations := Destinations cfg;
        VideoBitrate := VideoBitrate cfg; AudioBitrate := AudioBitrate cfg;
        KeyframeInterval := fst (JSON.storeInt v (KeyframeInterval cfg)) |},
     snd acc || snd (JSON.storeInt v (KeyframeInterval cfg)))
  else acc.

(** [json.NewDecoder(r.Body).Decode(&newConfig)] on a zero [newConfig]: what
    [newConfig] holds afterwards, and whether [Decode] returned an error.  A
    field of the wrong type is skipped and reported, and the remaining fields
    are still stored.  [Decode] reads the first value of the body only: what
    follows it is neither read nor an error. *)
Definition decodeConfig (req : JSON.Body) : Config * bool :=
  match JSON.scanned req with
  | None => (zeroConfig, true)
  | Some JSON.Null => (zeroConfig, false)
  | Some (JSON.Object fields) => fold_left storeConfigField fields (zeroConfig, false)
  | Some _ => (zeroConfig, true)
  end.

Record Response := { status : Z; body : string }.

(** [handleUpdate] (line 318): the error of [Decode] is dropped. *)
Definition handleUpdate (method : string) (req : JSON.Body) (s : State)
  : State * list Effect * Response :=
  if negb (String.eqb method "POST") then
    (s, [], {| status := 405; body := "POST only" |})
  else
    let newConfig := fst (decodeConfig req) in
    (handleConfigChange newConfig s, {| status := 200; body := "" |}).

(** [handleStatus] (line 329).  The destinations are listed in map order,
    which Go leaves unspecified: the answer keeps them as a map. *)
Record Status := {
  source : string;
  mode : string;
  destinations : gmap string bool;
  transcoder_running : bool
}.

Definition handleStatus (s : State) : Status :=
  {| source := SourceURL (currentConfig s);
     mode := currentMode s;
     destinations := (fun cmd => isRunning s cmd) <$> distributors s;
     transcoder_running := isRunning s (transcoderCmd s) |}.

(** *** The pumps, the failover and the monitor *)

Definition set_SourceURL (url : string) (cfg : Config) : Config :=
  {| SourceURL := url; Destinations := Destinations cfg; VideoBitrate := VideoBitrate cfg;
     AudioBitrate := AudioBitrate cfg; KeyframeInterval := KeyframeInterval cfg |}.

Definition set_loopCmd (cmd : option nat) (s : State) : State :=
  {| currentConfig := currentConfig s; currentMode := currentMode s; loopCmd := cmd;
     obsCmd := obsCmd s; transcoderCmd := transcoderCmd s; distributors := distributors s;
     failureCounts := failureCounts s; heap := heap s; nextPid := nextPid s |}.

Definition set_obsCmd (cmd : option nat) (s : State) : State :=
  {| currentConfig := currentConfig s; currentMode := currentMode s; loopCmd := loopCmd s;
     obsCmd := cmd; transcoderCmd := transcoderCmd s; distributors := distributors s;
     failureCounts := failureCounts s; heap := heap s; nextPid := nextPid s |}.

Definition set_transcoderCmd (cmd : option nat) (s : State) : State :=
  {| currentConfig := currentConfig s; currentMode := currentMode s; loopCmd := loopCmd s;
     obsCmd := obsCmd s; transcoderCmd := cmd; distributors := distributors s;
     failureCounts := failureCounts s; heap := heap s; nextPid := nextPid s |}.

(** [triggerFailover] (line 242). *)
Definition triggerFailover (reason : string) (s : State) : State * list Effect :=
  if String.eqb (currentMode s) "LOOP" then (s, [])
  else
    let switched := switchMode "LOOP" s in
    (set_currentConfig (set_SourceURL loopStream (currentConfig (fst switched))) (fst switched),
     LogLine ("[RELAY] FAILOVER (" +:+ reason +:+ ") -> Switching to Running Loop (Seamless)...")
     :: snd switched).

(** [cmd.Wait()] on a command: it sets [ProcessState] when the command was
    started, and returns an error at once, leaving it nil, when it was not. *)
Definition waited (cmd : nat) (s : State) : State :=
  match processOf s (Some cmd) with
  | Some _ => markExited cmd s
  | None => s
  end.

(** The goroutine of [startOBSPump] (lines 182-239), from its start to the
    read loop.  [StdoutPipe] cannot fail on a command that was just made. *)
Definition obsPumpArgs (url : string) : list string :=
  [ "-hide_banner"; "-loglevel"; "error"; "-rw_timeout"; "5000000"; "-i"; url;
    "-c"; "copy"; "-bsf:v"; "h264_mp4toannexb"; "-f"; "mpegts"; "pipe:1" ].

Definition obsPumpLaunch (url : string) (s : State) : State * option nat * list Effect :=
  let begun := startCmd true (obsPumpArgs url) s in
  match snd begun with
  | None =>
      let failed := triggerFailover "ObsStartError" (fst (fst begun)) in
      (fst failed, None,
       [ LogLine ("[RELAY] Starting OBS Pump: " +:+ url);
         LogLine "[RELAY] OBS Pump Start Error" ] ++ snd failed)
  | Some pid =>
      let s2 := set_obsCmd (Some (snd (fst begun))) (fst (fst begun)) in
      let switched :=
        if String.eqb (SourceURL (currentConfig s2)) url then switchMode "OBS" s2
        else (s2, []) in
      (fst switched, Some (snd (fst begun)),
       [ LogLine ("[RELAY] Starting OBS Pump: " +:+ url); Start (obsPumpArgs url) pid ]
       ++ snd switched)
  end.

(** Its end (lines 228-238), once the read loop has stopped. *)
Definition obsPumpExit (cmd : nat) (s : State) : State * list Effect :=
  let s := waited cmd s in
  if String.eqb (currentMode s) "OBS" then
    let failed := triggerFailover "ObsProcessExit" s in
    (fst failed, LogLine "[RELAY] OBS Pump Exited" :: snd failed)
  else (s, [LogLine "[RELAY] OBS Pump Exited"]).

(** One turn of [loopPumpLoop] (line 116), in the same two halves. *)
Definition loopPumpArgs : list string :=
  [ "-hide_banner"; "-loglevel"; "error"; "-re"; "-i"; loopStream;
    "-c"; "copy"; "-bsf:v"; "h264_mp4toannexb"; "-flush_packets"; "1";
    "-f"; "mpegts"; "pipe:1" ].

Definition loopPumpLaunch (s : State) : State * option nat * list Effect :=
  let begun := startCmd false loopPumpArgs s in
  match snd begun with
  | None =>
      (fst (fst begun), None,
       [LogLine "[RELAY] Starting Loop Pump (Background)"; Sleep (100 * Millisecond)])
  | Some pid =>
      (set_loopCmd (Some (snd (fst begun))) (fst (fst begun)), Some (snd (fst begun)),
       [LogLine "[RELAY] Starting Loop Pump (Background)"; Start loopPumpArgs pid])
  end.

Definition loopPumpExit (cmd : nat) (s : State) : State * list Effect :=
  (waited cmd s, [Sleep (50 * Millisecond)]).

(** What a pump does with a chunk it has read (lines 149-157 and 218-226):
    the chunk is sent to [streamChan] when the mode is the pump's own. *)
Definition loopPumpForward (data : list ascii) (s : State) : option (list ascii) :=
  if String.eqb (currentMode s) "LOOP" then Some data else None.

Definition obsPumpForward (data : list ascii) (s : State) : option (list ascii) :=
  if String.eqb (currentMode s) "OBS" then Some data else None.

(** The goroutine of [startTranscoderProcess] (lines 395-405). *)
Definition transcoderExit (cmd : nat) (s : State) : State * list Effect :=
  let s := waited cmd s in
  let s := if bool_decide (transcoderCmd s = Some cmd) then set_transcoderCmd None s else s in
  let restarted := startTranscoderProcess s in
  (fst restarted,
   [LogLine "[RELAY] Transcoder exited"; Sleep (500 * Millisecond)] ++ snd restarted).

(** [strings.Contains], and [strings.Split] for a separator of one byte. *)
Definition Contains (s substr : string) : bool :=
  match String.index 0 substr s with
  | Some _ => true
  | None => false
  end.

Fixpoint Split (s : string) (sep : ascii) : list string :=
  match s with
  | EmptyString => [EmptyString]
  | String c rest =>
      if Ascii.eqb c sep then EmptyString :: Split rest sep
      else match Split rest sep with
           | part :: parts => String c part :: parts
           | [] => [String c EmptyString]
           end
  end.

(** One turn of the loop of [monitorSRS] (line 268).  [srs] is the answer of
    SRS to GET /api/v1/streams as the turn decodes it: the name and the
    [publish.active] flag of every stream, or [None] when the request or the
    decoding fails. *)
Definition monitorSRS (srs : option (list (string * bool))) (s : State) : State * list Effect :=
  let src := SourceURL (currentConfig s) in
  if String.eqb src loopStream then (s, [Sleep (1 * Second)])
  else if negb (Contains src "srs:1935") && negb (Contains src "localhost")
  then (s, [Sleep (1 * Second)])
  else
    let streamName := List.last (Split src "/"%char) EmptyString in
    match srs with
    | None => (s, [Sleep (1 * Second)])
    | Some streams =>
        if existsb (fun st => String.eqb (fst st) streamName && snd st) streams
        then (s, [Sleep (1 * Second)])
        else
          let failed := triggerFailover ("TrackerLost" +:+ streamName) s in
          (fst failed, Sleep (1 * Second) :: snd failed)
    end.




(** The configuration [main] applies at start (lines 92-98), from the two
    environment variables. *)
Definition initialConfig (initialSourceURL initialDestination : string) : Config :=
  {| SourceURL := initialSourceURL; Destinations := [initialDestination];
     VideoBitrate := 0; AudioBitrate := 0; KeyframeInterval := 0 |}.

Definition main (initialSourceURL initialDestination : string) : State * list Effect :=
  if negb (String.eqb initialSourceURL "")
  then handleConfigChange (initialConfig initialSourceURL initialDestination) initialState
  else (initialState, []).

End Processes.

End Relay.

(** ** The controller's container supervisor (main.go:508-797) *)

Module Supervisor.
Import Controller.

(** [strconv.Itoa] and the verb [%d] of [fmt.Sprintf]. *)
Definition Itoa (x : Z) : string := DecimalString.NilZero.string_of_int (Z.to_int x).

(** The fields of [Config] the supervisor reads. *)
Record Settings := {
  DockerNetwork : string;
  LoopImage : string;
  RelayImage : string;
  MediaHostPath : string
}.

(** The fields of [Channel] that only the supervisor reads: the loop's file
    and the stream settings.  The reconciler carries them along untouched;
    here they are looked up by the channel's id. *)
Record Encoding := {
  LoopSourceFile : string;
  KeyframeInterval : Z;
  VideoBitrate : Z;
  AudioBitrate : Z;
  OutputResolution : string
}.

(** A container as [ContainerInspect] shows it: what [ContainerCreate] was
    given ([container.Config], [container.HostConfig]) and [State.Running]. *)
Record Container := {
  Image : string;
  Env : list string;
  Labels : gmap string string;
  NetworkMode : string;
  RestartPolicy : string;
  MaximumRetryCount : Z;
  Memory : Z;
  NanoCPUs : Z;
  Binds : list string;
  Running : bool
}.

(** The Docker daemon: its containers by name.  The daemon is taken to be
    reachable and the images to exist, so [ContainerCreate] fails only on a
    name that is in use, and a container's name stands for its id. *)
Abbreviation Docker := (gmap string Container).

Definition ContainerInspect (d : Docker) (containerName : string) : option Container :=
  d !! containerName.

(** [ContainerRemove] with [Force: true]. *)
Definition ContainerRemove (d : Docker) (containerName : string) : Docker :=
  delete containerName d.

Definition ContainerCreate (d : Docker) (containerName : string) (config : Container)
  : option Docker :=
  match d !! containerName with
  | Some _ => None
  | None => Some (<[containerName := config]> d)
  end.

Definition running (k : Container) : Container :=
  {| Image := Image k; Env := Env k; Labels := Labels k;
     NetworkMode := NetworkMode k; RestartPolicy := RestartPolicy k;
     MaximumRetryCount := MaximumRetryCount k; Memory := Memory k;
     NanoCPUs := NanoCPUs k; Binds := Binds k; Running := true |}.

Definition ContainerStart (d : Docker) (containerName : string) : Docker :=
  alter running containerName d.

(** The defaults of lines 524-535 and 684-695. *)
Definition orDefault (value fallback : Z) : Z := if value <=? 0 then fallback else value.

(** Lines 522-564: the container of the loop publisher. *)
Definition loopConfig (cfg : Settings) (enc : Encoding) (ch : Channel) : Container :=
  {| Image := LoopImage cfg;
     Env := [ "RTMP_URL=" +:+ "rtmp://srs:1935/live/" +:+ Name ch +:+ "?token=" +:+ LoopToken ch;
              "SOURCE_FILE=/app/media/" +:+ LoopSourceFile enc;
              "CHANNEL_NAME=" +:+ Name ch;
              "VIDEO_BITRATE=" +:+ Itoa (orDefault (VideoBitrate enc) 4500);
              "AUDIO_BITRATE=" +:+ Itoa (orDefault (AudioBitrate enc) 128);
              "KEYFRAME_INTERVAL=" +:+ Itoa (orDefault (KeyframeInterval enc) 2);
              "OUTPUT_RESOLUTION=" +:+ OutputResolution enc ];
     Labels := {[ "managed_by" := "livestream-controller"; "channel" := Name ch ]};
     NetworkMode := DockerNetwork cfg;
     RestartPolicy := "on-failure"; MaximumRetryCount := 5;
     Memory := 1024 * 1024 * 1024; NanoCPUs := 1000000000;
     Binds := [MediaHostPath cfg +:+ ":/app/media"];
     Running := false |}.

(** [EnsureContainerRunning] (main.go:508), from the log line of line 520 on:
    create, on a conflict remove and create once more, then start. *)
Definition startLoop (now : Z) (cfg : Settings) (enc : Encoding) (ch : Channel)
    (containerName : string) (c : Controller) (d : Docker) : Controller * Docker :=
  let c := Log now "info" "docker" ("Starting loop container for " +:+ Name ch) c in
  match ContainerCreate d containerName (loopConfig cfg enc ch) with
  | Some d => (c, ContainerStart d containerName)
  | None =>
      let c := Log now "warn" "docker"
                   ("Container conflict for " +:+ containerName
                    +:+ ", removing old container and retrying...") c in
      let d := ContainerRemove d containerName in
      match ContainerCreate d containerName (loopConfig cfg enc ch) with
      | Some d => (c, ContainerStart d containerName)
      | None =>
          (Log now "error" "docker" ("Failed to create container " +:+ containerName) c, d)
      end
  end.

Definition EnsureContainerRunning (now : Z) (cfg : Settings) (enc : Encoding) (ch : Channel)
    (containerName : string) (c : Controller) (d : Docker) : Controller * Docker :=
  match ContainerInspect d containerName with
  | Some info =>
      if Running info then (c, d)
      else startLoop now cfg enc ch containerName c (ContainerRemove d containerName)
  | None => startLoop now cfg enc ch containerName c d
  end.

(** [EnsureContainerStopped] (main.go:587). *)
Definition EnsureContainerStopped (containerName : string) (d : Docker) : Docker :=
  ContainerRemove d containerName.

(** [UpdateDestinationStatus] (main.go:792):
    [UPDATE destinations SET status = $1 WHERE id = $2]. *)
Definition set_status (status : string) (dest : Destination) : Destination :=
  {| dest_ID := dest_ID dest; dest_ChannelID := dest_ChannelID dest;
     dest_Name := dest_Name dest; RTMPURL := RTMPURL dest; StreamKey := StreamKey dest;
     dest_Enabled := dest_Enabled dest; dest_Status := status |}.

Definition UpdateDestinationStatus (db : DB) (destID : Z) (status : string) : DB :=
  {| channels := channels db;
     destinations := map (fun dest => if dest_ID dest =? destID then set_status status dest
                                      else dest) (destinations db);
     audit_logs := audit_logs db |}.

(** The loops of lines 611-615 and 784-788. *)
Definition markAll (status : string) (dests : list Destination) (db : DB) : DB :=
  fold_left (fun db dest => if negb (String.eqb (dest_Status dest) status)
                            then UpdateDestinationStatus db (dest_ID dest) status else db)
            dests db.

(** Lines 658-666: the relay's source. *)
Definition relaySource (ch : Channel) : string :=
  if String.eqb (ActiveSource ch) "OBS" then
    "rtmp://srs:1935/live/"
    +:+ (if String.eqb (ObsSourceStream ch) "" then Name ch +:+ "-obs" else ObsSourceStream ch)
  else "rtmp://srs:1935/live/" +:+ Name ch.

(** Lines 670-681: the URL of one destination. *)
Definition destURL (dest : Destination) : string :=
  if negb (String.eqb (StreamKey dest) "") then
    if HasSuffix (RTMPURL dest) "/" then RTMPURL dest +:+ StreamKey dest
    else RTMPURL dest +:+ "/" +:+ StreamKey dest
  else RTMPURL dest.

(** Lines 697-703 and 768: the payload as [json.Marshal] writes it, the keys
    of the map in sorted order and a nil slice as [null]. *)
Definition relayPayload (enc : Encoding) (ch : Channel) (destinations : list Destination)
  : JSON.Value :=
  JSON.Object
    [ ("audio_bitrate", JSON.Number (JSON.IntLit (orDefault (AudioBitrate enc) 128)));
      ("destinations", match destinations with
                       | [] => JSON.Null
                       | _ => JSON.Array (map (fun dest => JSON.Str (destURL dest)) destinations)
                       end);
      ("keyframe_interval", JSON.Number (JSON.IntLit (orDefault (KeyframeInterval enc) 2)));
      ("source_url", JSON.Str (relaySource ch));
      ("video_bitrate", JSON.Number (JSON.IntLit (orDefault (VideoBitrate enc) 4500))) ].

(** An HTTP POST of the controller. *)
Inductive Request := Post (url : string) (payload : JSON.Value).

Definition relayConfig (cfg : Settings) (ch : Channel) (firstURL : string) : Container :=
  {| Image := RelayImage cfg;
     Env := [ "INITIAL_SOURCE_URL=" +:+ relaySource ch; "INITIAL_DESTINATION=" +:+ firstURL ];
     Labels := {[ "managed_by" := "livestream-controller"; "channel" := Name ch ]};
     NetworkMode := DockerNetwork cfg;
     RestartPolicy := "on-failure"; MaximumRetryCount := 10;
     Memory := 1024 * 1024 * 1024; NanoCPUs := 1000000000;
     Binds := [];
     Running := false |}.

Section Relay.

(** The relay's answer to a POST: its status code, or [None] when the request
    fails (no listener yet, or the timeout of two seconds). *)
Variable answer : Request -> option Z.

(** Lines 706-714: the inspection, and the removal of a relay of another
    image. *)
Definition inspectRelay (now : Z) (cfg : Settings) (containerName : string)
    (c : Controller) (d : Docker) : Controller * Docker * option Container :=
  match ContainerInspect d containerName with
  | Some info =>
      if negb (String.eqb (Image info) (RelayImage cfg)) then
        (Log now "info" "relay"
             ("Upgrading relay " +:+ containerName +:+ " to new image " +:+ RelayImage cfg) c,
         ContainerRemove d containerName, None)
      else (c, d, Some info)
  | None => (c, d, None)
  end.

(** [EnsureRelayRunning] (main.go:655).  [None] is the run-time panic of
    [destUrls[0]] on an empty list. *)
Definition EnsureRelayRunning (now : Z) (cfg : Settings) (enc : Encoding) (ch : Channel)
    (destinations : list Destination) (containerName : string)
    (c : Controller) (d : Docker) (db : DB)
  : option (Controller * Docker * DB * list Request) :=
  let destUrls := map destURL destinations in
  let inspected := inspectRelay now cfg containerName c d in
  let c := fst (fst inspected) in
  let d := snd (fst inspected) in
  match snd inspected with
  | None =>
      let c := Log now "info" "relay" ("Creating relay manager for " +:+ Name ch) c in
      match destUrls with
      | [] => None
      | firstURL :: _ =>
          match ContainerCreate d containerName (relayConfig cfg ch firstURL) with
          | None =>
              Some (Log now "error" "relay" ("Failed to create container " +:+ containerName) c,
                    d, db, [])
          | Some d =>
              Some (Log now "info" "relay" ("Started relay manager for " +:+ Name ch) c,
                    ContainerStart d containerName, db, [])
          end
      end
  | Some info =>
      if negb (Running info) then Some (c, ContainerStart d containerName, db, [])
      else
        let request := Post ("http://" +:+ containerName +:+ ":8080/update")
                            (relayPayload enc ch destinations) in
        match answer request with
        | None => Some (c, d, db, [request])
        | Some statusCode =>
            if statusCode =? 200
            then Some (c, d, markAll "CONNECTED" destinations db, [request])
            else Some (c, d, db, [request])
        end
  end.

(** [ReconcileDestinations] (main.go:596). *)
Definition relayContainer (name : string) : string := "relay-" +:+ name.

Definition ReconcileDestinations (now : Z) (cfg : Settings) (enc : Encoding) (ch : Channel)
    (streamActive : bool) (c : Controller) (d : Docker) (db : DB)
  : option (Controller * Docker * DB * list Request) :=
  let containerName := relayContainer (Name ch) in
  let enabledDests := List.filter dest_Enabled (Destinations ch) in
  if negb streamActive || (List.length enabledDests =? 0)%nat then
    Some (c, EnsureContainerStopped containerName d,
          markAll "DISCONNECTED" (Destinations ch) db, [])
  else EnsureRelayRunning now cfg enc ch enabledDests containerName c d db.

(** The calls a tick makes, carried out: each constructor of [Call] by the
    function it names; a goroutine runs where it is started.  [encoding] gives
    the stream settings of a channel by its id. *)
Definition perform (now : Z) (cfg : Settings) (encoding : Z -> Encoding) (call : Call)
    (c : Controller) (d : Docker) (db : DB)
  : option (Controller * Docker * DB * list Request) :=
  match call with
  | Controller.EnsureContainerStopped containerName =>
      Some (c, EnsureContainerStopped containerName d, db, [])
  | Controller.EnsureContainerRunning ch containerName =>
      let started := EnsureContainerRunning now cfg (encoding (ID ch)) ch containerName c d in
      Some (fst started, snd started, db, [])
  | Controller.ReconcileDestinations ch streamActive =>
      ReconcileDestinations now cfg (encoding (ID ch)) ch streamActive c d db
  | GoUpdateActiveSource channelID source =>
      Some (c, d, UpdateActiveSource db channelID source, [])
  | GoEnsureContainerStopped containerName =>
      Some (c, EnsureContainerStopped containerName d, db, [])
  end.

Fixpoint performAll (now : Z) (cfg : Settings) (encoding : Z -> Encoding) (calls : list Call)
    (c : Controller) (d : Docker) (db : DB)
  : option (Controller * Docker * DB * list Request) :=
  match calls with
  | [] => Some (c, d, db, [])
  | call :: rest =>
      match perform now cfg encoding call c d db with
      | None => None
      | Some (c1, d1, db1, requests) =>
          match performAll now cfg encoding rest c1 d1 db1 with
          | None => None
          | Some (c2, d2, db2, requests') => Some (c2, d2, db2, requests ++ requests')
          end
      end
  end.

End Relay.

End Supervisor.

(** ** Creating a channel (main.go:961-965, 1307-1364) *)

Module Admin.
Import Controller.

(** [crypto/rand.Read(b)] on the entropy the caller is given; it fills [b]. *)
Definition readRandom (n : nat) (rand : list ascii) : list ascii :=
  firstn n (rand ++ repeat zero n).

(** [generateToken] (main.go:961). *)
Definition generateToken (rand : list ascii) : string :=
  Crypto.EncodeToString (readRandom 16 rand).

(** The request of POST /api/channels. *)
Record CreateRequest := {
  req_Name : string;
  req_DisplayName : string;
  req_LoopSourceFile : string;
  req_Enabled : bool
}.

Definition storeBool (v : JSON.Value) (old : bool) : bool * bool :=
  match v with
  | JSON.Bool b => (b, false)
  | JSON.Null => (old, false)
  | _ => (old, true)
  end.

Definition storeCreateField (acc : CreateRequest * bool) (kv : string * JSON.Value)
  : CreateRequest * bool :=
  let r := fst acc in
  let v := snd kv in
  if JSON.keyIs "name" (fst kv) then
    ({| req_Name := fst (JSON.storeString v (req_Name r)); req_DisplayName := req_DisplayName r;
        req_LoopSourceFile := req_LoopSourceFile r; req_Enabled := req_Enabled r |},
     snd acc || snd (JSON.storeString v (req_Name r)))
  else if JSON.keyIs "display_name" (fst kv) then
    ({| req_Name := req_Name r; req_DisplayName := fst (JSON.storeString v (req_DisplayName r));
        req_LoopSourceFile := req_LoopSourceFile r; req_Enabled := req_Enabled r |},
     snd acc || snd (JSON.storeString v (req_DisplayName r)))
  else if JSON.keyIs "loop_source_file" (fst kv) then
    ({| req_Name := req_Name r; req_DisplayName := req_DisplayName r;
        req_LoopSourceFile := fst (JSON.storeString v (req_LoopSourceFile r));
        req_Enabled := req_Enabled r |},
     snd acc || snd (JSON.storeString v (req_LoopSourceFile r)))
  else if JSON.keyIs "enabled" (fst kv) then
    ({| req_Name := req_Name r; req_DisplayName := req_DisplayName r;
        req_LoopSourceFile := req_LoopSourceFile r;
        req_Enabled := fst (storeBool v (req_Enabled r)) |},
     snd acc || snd (storeBool v (req_Enabled r)))
  else acc.

(** [json.NewDecoder(r.Body).Decode(&req)]; [None] when it returns an error.
    Only the first value of the body is read. *)
Definition decodeCreate (req : JSON.Body) : option CreateRequest :=
  let zero := {| req_Name := EmptyString; req_DisplayName := EmptyString;
                 req_LoopSourceFile := EmptyString; req_Enabled := false |} in
  match JSON.scanned req with
  | None => None
  | Some JSON.Null => Some zero
  | Some (JSON.Object fields) =>
      let r := fold_left storeCreateField fields (zero, false) in
      if snd r then None else Some (fst r)
  | Some _ => None
  end.

(** The row [INSERT INTO channels ... RETURNING id] adds, in the columns of
    the store model (the encrypted columns, which this handler writes from
    [Encrypt] with its error dropped, are not among them). *)
Definition createdRow (id : Z) (r : CreateRequest) (obsToken loopToken : string) : ChannelRow :=
  {| row_id := id; row_name := req_Name r; row_enabled := req_Enabled r;
     obs_token := obsToken; loop_token := loopToken;
     obs_token_hash := Some (Crypto.HashToken obsToken);
     loop_token_hash := Some (Crypto.HashToken loopToken);
     current_active_source := "NONE"; loop_enabled := false;
     obs_override_enabled := true; failover_timeout_seconds := 10 |}.

(** The error of lib/pq for an insert that breaks [name TEXT UNIQUE], as the
    verb [%v] prints it. *)
Definition duplicateName : string :=
  "pq: duplicate key value violates unique constraint " +:+ dq +:+ "channels_name_key" +:+ dq.

Definition insertChannel (db : DB) (row : ChannelRow) : DB :=
  {| channels := channels db ++ [row]; destinations := destinations db;
     audit_logs := audit_logs db |}.

(** The POST arm of [ChannelsHandler] (main.go:1313-1364).  [rand] is the
    entropy read by the two calls of [generateToken], [orgID] the result of
    [SELECT id FROM organizations LIMIT 1] and [id] the value the sequence of
    [channels.id] hands out; the insert fails on a name that is taken
    ([name TEXT UNIQUE]). *)
Definition ChannelsHandler (now : Z) (req : JSON.Body) (rand : list ascii)
    (orgID : option string) (id : Z) (c : Controller) (db : DB)
  : Controller * DB * Response :=
  match decodeCreate req with
  | None => (c, db, {| status := 400; body := "Bad request" |})
  | Some r =>
      if String.eqb (req_Name r) "" || String.eqb (req_DisplayName r) "" then
        (c, db, {| status := 400; body := "Name and Display Name required" |})
      else
        let obsToken := generateToken rand in
        let loopToken := generateToken (skipn 16 rand) in
        match orgID with
        | None =>
            (Log now "error" "api" "No organization found" c, db,
             {| status := 500; body := "System not initialized" |})
        | Some _ =>
            match queryAnyByName db (req_Name r) with
            | Some _ =>
                (Log now "error" "api" ("Failed to create channel: " +:+ duplicateName) c, db,
                 {| status := 500; body := "Failed to create channel" |})
            | None =>
                (Log now "info" "api"
                     ("Created channel " +:+ req_Name r +:+ " (" +:+ Supervisor.Itoa id +:+ ")") c,
                 insertChannel db (createdRow id r obsToken loopToken),
                 {| status := 200; body := "created" |})
            end
        end
  end.

End Admin.

(** * Properties *)

(** ** Credentials (crypto.go) *)

Module CryptoProofs.
Import Crypto.

(** Known answers of FIPS 180-4, one and two blocks long. *)
Example HashToken_abc :
  HashToken "abc" = "ba7816bf8f01cfea414140de5dae2223b00361a396177a9cb410ff61f20015ad".
Proof. vm_compute. reflexivity. Qed.

Example HashToken_two_blocks :
  HashToken "aaaaaaaaaaaaaaaaaaaaaaaaaaaaaaaaaaaaaaaaaaaaaaaaaaaaaaaa"
  = "b35439a4ac6f0948b6d6f9e3c6af0f5f590ce20f1bde7090ef7970686ec6738a".
Proof. vm_compute. reflexivity. Qed.

(** [hex.DecodeString] takes both cases and rejects odd lengths and other
    characters. *)
Example DecodeString_mixed_case : DecodeString "0aFf" = Some ["010"%char; "255"%char].
Proof. reflexivity. Qed.

Example DecodeString_odd_length : DecodeString "0aF" = None.
Proof. reflexivity. Qed.

Example DecodeString_invalid_byte : DecodeString "zz" = None.
Proof. reflexivity. Qed.

(** Each byte is written as two digits that read back as its two halves. *)
Lemma hex_byte_round_trip (v : ascii) :
  fromHexChar (hexDigit (N.shiftr (N_of_ascii v) 4)) = Some (N.shiftr (N_of_ascii v) 4)
  /\ fromHexChar (hexDigit (N.land (N_of_ascii v) 15)) = Some (N.land (N_of_ascii v) 15)
  /\ ascii_of_N (N.lor (N.shiftl (N.shiftr (N_of_ascii v) 4) 4) (N.land (N_of_ascii v) 15)) = v.
Proof.
  destruct v as [[] [] [] [] [] [] [] []]; vm_compute; repeat split; reflexivity.
Qed.

Lemma DecodeString_EncodeToString (src : list ascii) :
  DecodeString (EncodeToString src) = Some src.
Proof.
  induction src as [|v rest IH]; [reflexivity|].
  destruct (hex_byte_round_trip v) as (Hhi & Hlo & Hv).
  cbn [EncodeToString DecodeString].
  rewrite Hhi, Hlo, IH, Hv. reflexivity.
Qed.

Lemma EncodeToString_length (src : list ascii) :
  String.length (EncodeToString src) = (2 * List.length src)%nat.
Proof.
  induction src as [|v rest IH]; [reflexivity|].
  cbn [EncodeToString String.length List.length]. rewrite IH. lia.
Qed.

Lemma hexDigit_is_hex (v : ascii) :
  isHexChar (hexDigit (N.shiftr (N_of_ascii v) 4)) = true
  /\ isHexChar (hexDigit (N.land (N_of_ascii v) 15)) = true.
Proof.
  destruct v as [[] [] [] [] [] [] [] []]; vm_compute; split; reflexivity.
Qed.

Lemma EncodeToString_hex (src : list ascii) :
  Forall (fun ch => isHexChar ch = true) (list_ascii_of_string (EncodeToString src)).
Proof.
  induction src as [|v rest IH]; [constructor|].
  destruct (hexDigit_is_hex v) as [Hhi Hlo].
  cbn [EncodeToString list_ascii_of_string]. repeat constructor; assumption.
Qed.

Lemma sha256Sum_length (data : list ascii) : List.length (sha256Sum data) = 32%nat.
Proof. unfold sha256Sum. rewrite List.length_map. reflexivity. Qed.

Lemma ReadFull_length (rand : list ascii) (n : nat) (out : list ascii) :
  ReadFull rand n = Some out -> List.length out = n.
Proof.
  unfold ReadFull. destruct (n <=? List.length rand)%nat eqn:Hle; [|discriminate].
  intros [= <-]. apply Nat.leb_le in Hle. rewrite List.length_firstn. lia.
Qed.

(** Counter mode with a tag meets the interface's contract, whatever the
    block cipher and the hash. *)
Lemma xorByte_involutive (a k : ascii) : xorByte (xorByte a k) k = a.
Proof.
  destruct a, k. cbn [xorByte]. rewrite !xorb_assoc, !xorb_nilpotent, !xorb_false_r.
  reflexivity.
Qed.

Lemma xorBytes_length (data stream : list ascii) :
  List.length (xorBytes data stream) = List.length data.
Proof.
  revert stream. induction data as [|d data IH]; intros [|k stream]; cbn; try reflexivity.
  rewrite IH. reflexivity.
Qed.

Lemma xorBytes_involutive (data stream : list ascii) :
  xorBytes (xorBytes data stream) stream = data.
Proof.
  revert stream. induction data as [|d data IH]; intros [|k stream]; cbn; try reflexivity.
  rewrite xorByte_involutive, IH. reflexivity.
Qed.

Lemma fit_length (n : nat) (l : list ascii) : List.length (fit n l) = n.
Proof. unfold fit. rewrite List.length_firstn, List.length_app, List.repeat_length. lia. Qed.

Section CounterModeLaw.

Variable blockEncrypt : list ascii -> list ascii -> list ascii.
Variable tagHash : list ascii -> list ascii -> list ascii.
Variable key : list ascii.

Lemma gcmOpen_gcmSeal (nonce plaintext : list ascii) :
  List.length nonce = 12%nat ->
  gcmOpen blockEncrypt tagHash key nonce (gcmSeal blockEncrypt tagHash key nonce plaintext)
  = Some plaintext.
Proof.
  intros _. unfold gcmOpen, gcmSeal.
  set (ciphertext := counterMode blockEncrypt key nonce plaintext).
  assert (Htag : List.length (gcmTag blockEncrypt tagHash key nonce ciphertext) = 16%nat).
  { unfold gcmTag. rewrite xorBytes_length. apply fit_length. }
  rewrite List.length_app, Htag.
  destruct (_ <? 16)%nat eqn:Hlt; [apply Nat.ltb_lt in Hlt; lia|].
  replace (List.length ciphertext + 16 - 16)%nat with (List.length ciphertext) by lia.
  rewrite List.skipn_app, List.skipn_all, Nat.sub_diag, List.firstn_app, List.firstn_all,
    Nat.sub_diag.
  cbn [skipn firstn app]. rewrite List.app_nil_r.
  destruct (decide _) as [_|Hne]; [|contradiction]. f_equal.
  subst ciphertext. unfold counterMode. rewrite xorBytes_length. apply xorBytes_involutive.
Qed.

Definition gcmAEAD : AEAD :=
  {| Seal := gcmSeal blockEncrypt tagHash key;
     Open := gcmOpen blockEncrypt tagHash key;
     Open_Seal := gcmOpen_gcmSeal |}.

End CounterModeLaw.

(** [aes.NewCipher] accepts keys of 16, 24 and 32 bytes.  The block function
    and the hash used to run the definitions are simple mixers, not AES. *)
Definition mixBlock (key block : list ascii) : list ascii :=
  xorBytes (rev block) (key ++ key).

Definition mixHash (subkey data : list ascii) : list ascii := xorBytes subkey data.

Definition sampleNewGCM (key : list ascii) : option AEAD :=
  if bool_decide (List.length key ∈ [16; 24; 32]%nat)
  then Some (gcmAEAD mixBlock mixHash key) else None.

(** C8: what [Encrypt] returns for a token decrypts, under the same key, to
    that token; [HashToken] gives equal outputs on equal inputs, and every
    output is 64 hexadecimal characters (the SHA-256 digest in hex). *)
Theorem encrypt_decrypt_round_trip
    (NewGCM : list ascii -> option AEAD) (encryptionKey rand : list ascii)
    (t encryptedHex ivHex : string) :
  Encrypt NewGCM encryptionKey rand t = Value (encryptedHex, ivHex) ->
  Decrypt NewGCM encryptionKey encryptedHex ivHex = Value t
  /\ (forall t', t' = t -> HashToken t' = HashToken t)
  /\ HashToken t = EncodeToString (sha256Sum (list_ascii_of_string t))
  /\ String.length (HashToken t) = 64%nat
  /\ Forall (fun ch => isHexChar ch = true) (list_ascii_of_string (HashToken t)).
Proof.
  intros Henc. split; [|split; [|split; [|split]]].
  - unfold Encrypt in Henc. unfold Decrypt.
    destruct (NewGCM encryptionKey) as [aesgcm|]; [|discriminate].
    destruct (ReadFull rand 12) as [nonce|] eqn:Hrand; [|discriminate].
    injection Henc as <- <-.
    rewrite !DecodeString_EncodeToString.
    pose proof (ReadFull_length _ _ _ Hrand) as Hlen.
    rewrite Hlen. cbn [Nat.eqb negb].
    rewrite (Open_Seal nonce _ Hlen).
    rewrite string_of_list_ascii_of_string. reflexivity.
  - intros t' ->. reflexivity.
  - reflexivity.
  - unfold HashToken. rewrite EncodeToString_length, sha256Sum_length. reflexivity.
  - apply EncodeToString_hex.
Qed.

Definition sampleKey : list ascii := repeat "K"%char 32.
Definition sampleRand : list ascii := list_ascii_of_string "0123456789abcdef".

Lemma encrypt_decrypt_round_trip_witness :
  Decrypt sampleNewGCM sampleKey
    "2524243b045917100e180a2424243b66382e28392e3f3433323130"
    "303132333435363738396162" = Value "loop-secret"
  /\ String.length (HashToken "loop-secret") = 64%nat.
Proof.
  pose proof (encrypt_decrypt_round_trip sampleNewGCM sampleKey sampleRand "loop-secret"
                "2524243b045917100e180a2424243b66382e28392e3f3433323130"
                "303132333435363738396162" ltac:(vm_compute; reflexivity)) as H.
  split; [exact (proj1 H) | exact (proj1 (proj2 (proj2 (proj2 H))))].
Defined.

(** *** The key [InitCrypto] installs *)

Lemma DecodeString_length (bs : list ascii) :
  forall s, DecodeString s = Some bs -> String.length s = (2 * List.length bs)%nat.
Proof.
  induction bs as [|b bs IH]; intros s Hs.
  - destruct s as [|a [|a' rest]]; [reflexivity | discriminate |].
    cbn [DecodeString] in Hs.
    destruct (fromHexChar a), (fromHexChar a'); try discriminate.
    destruct (DecodeString rest); discriminate.
  - destruct s as [|a [|a' rest]]; [discriminate | discriminate |].
    cbn [DecodeString] in Hs.
    destruct (fromHexChar a), (fromHexChar a'); try discriminate.
    destruct (DecodeString rest) as [bs'|] eqn:Hrest; [|discriminate].
    injection Hs as _ <-. cbn [String.length List.length]. rewrite (IH rest Hrest). lia.
Qed.

(** The contract of [aes.NewCipher]: a key of 16, 24 or 32 bytes, and no
    other, is accepted. *)
Definition acceptsAESKeys (NewGCM : list ascii -> option AEAD) : Prop :=
  forall key, is_Some (NewGCM key) <-> In (List.length key) [16; 24; 32]%nat.

(** The key in hexadecimal that [InitCrypto] decodes. *)
Definition effectiveKeyHex (keyEnv : string) : string :=
  if String.eqb keyEnv "" then defaultKeyHex else keyEnv.

(** X28: [InitCrypto] accepts keys that can encrypt nothing.  [InitCrypto]
    panics exactly when the key in hexadecimal (ENCRYPTION_KEY, or the
    built-in key when that is empty or not set) is not valid hexadecimal; it
    does not look at the key's length.  With an AES that accepts keys of 16,
    24 and 32 bytes: when the hexadecimal key has 32, 48 or 64 characters,
    [Encrypt] succeeds whenever 12 random bytes are available and [Decrypt]
    gives the plaintext back; when it has any other length, [InitCrypto]
    still succeeds but every [Encrypt] and every [Decrypt] returns an error,
    and none panics. *)
Theorem key_length_is_checked_at_use_only
    (NewGCM : list ascii -> option AEAD) (keyEnv : string) :
  acceptsAESKeys NewGCM ->
  (InitCrypto keyEnv = Panicked <-> DecodeString (effectiveKeyHex keyEnv) = None)
  /\ forall key, InitCrypto keyEnv = Value key ->
       (In (String.length (effectiveKeyHex keyEnv)) [32; 48; 64]%nat ->
        forall rand plaintext, (12 <= List.length rand)%nat ->
          exists encryptedHex ivHex,
            Encrypt NewGCM key rand plaintext = Value (encryptedHex, ivHex)
            /\ Decrypt NewGCM key encryptedHex ivHex = Value plaintext)
       /\ (~ In (String.length (effectiveKeyHex keyEnv)) [32; 48; 64]%nat ->
           (forall rand plaintext, Encrypt NewGCM key rand plaintext = Failed)
           /\ (forall encryptedHex ivHex, Decrypt NewGCM key encryptedHex ivHex = Failed)).
Proof.
  intros Haes. unfold InitCrypto. fold (effectiveKeyHex keyEnv).
  split.
  { destruct (DecodeString (effectiveKeyHex keyEnv)); split; congruence. }
  intros key Hkey.
  destruct (DecodeString (effectiveKeyHex keyEnv)) as [k|] eqn:Hdec; [|discriminate].
  injection Hkey as ->.
  pose proof (DecodeString_length _ _ Hdec) as Hlen.
  assert (Hiff : In (String.length (effectiveKeyHex keyEnv)) [32; 48; 64]%nat
                 <-> In (List.length key) [16; 24; 32]%nat).
  { rewrite Hlen. cbn [In]. lia. }
  split.
  - intros Hin rand plaintext Hrand.
    apply Hiff, Haes in Hin. destruct Hin as [aesgcm Hgcm].
    unfold Encrypt, Decrypt. rewrite Hgcm. unfold ReadFull.
    destruct (12 <=? List.length rand)%nat eqn:Hle; [|apply Nat.leb_gt in Hle; lia].
    eexists _, _. split; [reflexivity|].
    rewrite !DecodeString_EncodeToString.
    assert (Hnonce : List.length (firstn 12 rand) = 12%nat)
      by (rewrite List.length_firstn; lia).
    rewrite Hnonce. cbn [Nat.eqb negb].
    rewrite (Open_Seal _ _ Hnonce), string_of_list_ascii_of_string. reflexivity.
  - intros Hout.
    assert (Hnone : NewGCM key = None).
    { destruct (NewGCM key) as [aesgcm|] eqn:Hgcm; [|reflexivity].
      exfalso. apply Hout, Hiff, Haes. rewrite Hgcm. eauto. }
    split.
    + intros rand plaintext. unfold Encrypt. rewrite Hnone. reflexivity.
    + intros encryptedHex ivHex. unfold Decrypt. rewrite Hnone.
      destruct (DecodeString encryptedHex); [|reflexivity].
      destruct (DecodeString ivHex); reflexivity.
Qed.

Lemma sampleNewGCM_accepts : acceptsAESKeys sampleNewGCM.
Proof.
  intros key. unfold sampleNewGCM. destruct (bool_decide _) eqn:Hd.
  - apply bool_decide_eq_true_1 in Hd. split; [intros _ | eauto].
    apply list_elem_of_In. exact Hd.
  - apply bool_decide_eq_false_1 in Hd. split.
    + intros [x Hx]. discriminate.
    + intros Hin. exfalso. apply Hd, list_elem_of_In. exact Hin.
Qed.

Lemma key_length_is_checked_at_use_only_witness :
  InitCrypto "00112233445566778899" = Value (map ascii_of_nat [0; 17; 34; 51; 68; 85; 102; 119; 136; 153]%nat)
  /\ Encrypt sampleNewGCM (map ascii_of_nat [0; 17; 34; 51; 68; 85; 102; 119; 136; 153]%nat)
       sampleRand "loop-secret" = Failed.
Proof.
  split; [reflexivity|].
  destruct (key_length_is_checked_at_use_only sampleNewGCM "00112233445566778899"
              sampleNewGCM_accepts) as [_ Huse].
  destruct (Huse _ eq_refl) as [_ Hshort].
  apply Hshort. vm_compute. intuition discriminate.
Defined.

(** X29: a stored IV of the wrong length makes [Decrypt] panic.  [Decrypt]
    panics exactly when both of its arguments are valid hexadecimal, the key
    is one AES accepts, and the IV does not have 24 hexadecimal characters
    (12 bytes); in every other case it returns, with a value or an error.
    For what [Encrypt] returned it never panics. *)
Theorem decrypt_panics_on_short_iv
    (NewGCM : list ascii -> option AEAD) (encryptionKey : list ascii)
    (encryptedHex ivHex : string) :
  (Decrypt NewGCM encryptionKey encryptedHex ivHex = Panicked
   <-> is_Some (DecodeString encryptedHex) /\ is_Some (DecodeString ivHex)
       /\ is_Some (NewGCM encryptionKey) /\ String.length ivHex <> 24%nat)
  /\ (forall rand plaintext,
        Encrypt NewGCM encryptionKey rand plaintext = Value (encryptedHex, ivHex) ->
        String.length ivHex = 24%nat).
Proof.
  split.
  - unfold Decrypt.
    destruct (DecodeString encryptedHex) as [ciphertext|].
    2:{ split; [discriminate | intros ([x Hx] & _); discriminate]. }
    destruct (DecodeString ivHex) as [nonce|] eqn:Hiv.
    2:{ split; [discriminate | intros (_ & [x Hx] & _); discriminate]. }
    destruct (NewGCM encryptionKey) as [aesgcm|].
    2:{ split; [discriminate | intros (_ & _ & [x Hx] & _); discriminate]. }
    pose proof (DecodeString_length _ _ Hiv) as Hlen.
    destruct (Nat.eqb_spec (List.length nonce) 12) as [He|Hne]; cbn [negb].
    + split.
      * destruct (Open nonce ciphertext); discriminate.
      * intros (_ & _ & _ & Hbad). lia.
    + split; [intros _ | reflexivity]. repeat split; eauto. lia.
  - intros rand plaintext. unfold Encrypt.
    destruct (NewGCM encryptionKey) as [aesgcm|]; [|discriminate].
    destruct (ReadFull rand 12) as [nonce|] eqn:Hrand; [|discriminate].
    intros [= _ <-]. rewrite EncodeToString_length, (ReadFull_length _ _ _ Hrand).
    reflexivity.
Qed.

End CryptoProofs.

(** ** The controller's health history (main.go:460-486) *)

Module HealthProofs.
Import Controller.

Definition historyOf (key : string) (c : Controller) : list bool :=
  default [] (HealthHistory c !! key).

(** The states the controller can be in: [NewController], then any sequence
    of the operations that write its maps. *)
Inductive reachable (cfg : Config) : Controller -> Prop :=
| reach_new started : reachable cfg (NewController started cfg)
| reach_health key healthy c :
    reachable cfg c -> reachable cfg (UpdateHealthHistory key healthy c)
| reach_log now level component message c :
    reachable cfg c -> reachable cfg (Log now level component message c)
| reach_tick now ch streams c :
    reachable cfg c -> reachable cfg (fst (ReconcileChannel now ch streams c))
| reach_publish now req db c :
    reachable cfg c -> reachable cfg (fst (fst (fst (OnPublishHandler now req c db))))
| reach_unpublish now req db c :
    reachable cfg c -> reachable cfg (fst (fst (OnUnpublishHandler now req c db)))
| reach_takeover now method path addr db c :
    reachable cfg c ->
    reachable cfg (fst (fst (fst (TakeoverHandler now method path addr c db))))
| reach_switch_loop now id db c :
    reachable cfg c -> reachable cfg (fst (fst (switchToLoop now id c db)))
| reach_switch_obs now id db c :
    reachable cfg c -> reachable cfg (fst (fst (switchToOBS now id c db))).

(** Which operations leave the history and the configuration alone. *)
Definition sameHealth (c c' : Controller) : Prop :=
  HealthHistory c' = HealthHistory c /\ Cfg c' = Cfg c.

Lemma sameHealth_refl c : sameHealth c c.
Proof. split; reflexivity. Qed.

Lemma sameHealth_trans c1 c2 c3 : sameHealth c1 c2 -> sameHealth c2 c3 -> sameHealth c1 c3.
Proof. intros [H1 H2] [H3 H4]. split; congruence. Qed.

Lemma sameHealth_Log now level component message c :
  sameHealth c (Log now level component message c).
Proof. split; reflexivity. Qed.

Lemma sameHealth_clearOverride ch b c : sameHealth c (fst (clearOverride ch b c)).
Proof. unfold clearOverride. destruct (_ && _); split; reflexivity. Qed.

Lemma sameHealth_syncFromStore ch c : sameHealth c (syncFromStore ch c).
Proof. unfold syncFromStore. destruct (storeDiffers ch c); split; reflexivity. Qed.

Lemma sameHealth_autoSwitch now ch b cur o c :
  sameHealth c (fst (fst (autoSwitch now ch b cur o c))).
Proof. unfold autoSwitch. destruct (autoSwitchFires _ _ _ _); split; reflexivity. Qed.

Lemma sameHealth_publish now req db c :
  sameHealth c (fst (fst (fst (OnPublishHandler now req c db)))).
Proof.
  unfold OnPublishHandler.
  destruct (authenticate req db) as [| | | |payload streamName sourceType];
    try (split; reflexivity).
  destruct (String.eqb sourceType "OBS"); split; reflexivity.
Qed.

Lemma sameHealth_unpublish now req db c :
  sameHealth c (fst (fst (OnUnpublishHandler now req c db))).
Proof.
  unfold OnUnpublishHandler.
  destruct (unmarshalHook req) as [payload|]; [|split; reflexivity].
  destruct (queryAnyByName db _) as [r|]; [|split; reflexivity].
  destruct (String.eqb _ (obs_token r)); split; reflexivity.
Qed.

Lemma sameHealth_takeover now method path addr db c :
  sameHealth c (fst (fst (fst (TakeoverHandler now method path addr c db)))).
Proof.
  unfold TakeoverHandler.
  repeat (match goal with
          | |- context [if ?b then _ else _] => destruct b
          | |- context [match queryByName ?d ?n with _ => _ end] => destruct (queryByName d n)
          end; try (split; reflexivity)).
Qed.

Lemma sameHealth_switchToLoop now id db c : sameHealth c (fst (fst (switchToLoop now id c db))).
Proof. unfold switchToLoop. destruct (queryByID db id); split; reflexivity. Qed.

Lemma sameHealth_switchToOBS now id db c : sameHealth c (fst (fst (switchToOBS now id c db))).
Proof. unfold switchToOBS. destruct (queryByID db id); split; reflexivity. Qed.

Definition bounded (c : Controller) : Prop :=
  forall key, Z.of_nat (List.length (historyOf key c)) <= StabilityWindow (Cfg c).

Lemma bounded_same c c' : sameHealth c c' -> bounded c -> bounded c'.
Proof. intros [Hh Hc] Hb key. unfold historyOf. rewrite Hh, Hc. apply Hb. Qed.

(** What one call stores under its key, and that it touches no other key. *)
Lemma historyOf_update key healthy c k :
  historyOf k (UpdateHealthHistory key healthy c)
  = if decide (k = key) then
      let history := historyOf key c ++ [healthy] in
      if StabilityWindow (Cfg c) <? Z.of_nat (List.length history) then tl history else history
    else historyOf k c.
Proof.
  unfold historyOf, UpdateHealthHistory. cbn [HealthHistory set_HealthHistory].
  destruct (decide (k = key)) as [->|Hne].
  - rewrite lookup_insert_eq. reflexivity.
  - rewrite lookup_insert_ne by congruence. reflexivity.
Qed.

Lemma bounded_update key healthy c :
  0 <= StabilityWindow (Cfg c) -> bounded c -> bounded (UpdateHealthHistory key healthy c).
Proof.
  intros Hw Hb k. rewrite historyOf_update.
  change (Cfg (UpdateHealthHistory key healthy c)) with (Cfg c).
  destruct (decide (k = key)) as [->|Hne]; [|apply Hb].
  cbn zeta. specialize (Hb key).
  destruct (StabilityWindow (Cfg c) <? _) eqn:Hlt.
  - destruct (historyOf key c) as [|h rest]; cbn [app tl List.length] in *;
      [lia | rewrite List.length_app in *; cbn [List.length] in *; lia].
  - apply Z.ltb_ge in Hlt. exact Hlt.
Qed.

Lemma sameHealth_superviseLoop now ch obsAlive loopAlive c :
  sameHealth c (fst (superviseLoop now ch obsAlive loopAlive c)).
Proof.
  unfold superviseLoop. destruct (takeoverCooldown c !! Name ch) as [t|]; [|split; reflexivity].
  destruct (now - t <? _); split; reflexivity.
Qed.

Lemma bounded_tick now ch streams c :
  0 <= StabilityWindow (Cfg c) -> bounded c ->
  bounded (fst (ReconcileChannel now ch streams c))
  /\ Cfg (fst (ReconcileChannel now ch streams c)) = Cfg c.
Proof.
  intros Hw Hb. unfold ReconcileChannel.
  destruct (negb (Enabled ch)); [split; [exact Hb | reflexivity]|].
  cbn [fst]. unfold selectSource.
  set (c1 := UpdateHealthHistory _ _ (UpdateHealthHistory _ _ c)).
  assert (Hb1 : bounded c1 /\ Cfg c1 = Cfg c).
  { split; [|reflexivity]. apply bounded_update; [exact Hw|]. apply bounded_update; assumption. }
  match goal with
  | |- context [superviseLoop ?n ?h ?a ?l ?c4] =>
      assert (H14 : sameHealth c1 (fst (superviseLoop n h a l c4)))
  end.
  { eapply sameHealth_trans; [|apply sameHealth_superviseLoop].
    eapply sameHealth_trans; [|apply sameHealth_autoSwitch].
    eapply sameHealth_trans; [|apply sameHealth_clearOverride].
    apply sameHealth_syncFromStore. }
  split; [eapply bounded_same; [exact H14 | apply Hb1]|].
  destruct H14 as [_ ->]. apply Hb1.
Qed.

(** Every reachable state keeps the configuration it was built with and has
    every history within the window. *)
Lemma reachable_bounded cfg c :
  0 <= StabilityWindow cfg -> reachable cfg c -> Cfg c = cfg /\ bounded c.
Proof.
  intros Hw Hr. induction Hr as
    [ | key healthy c Hr [IHc IHb] | now level component message c Hr [IHc IHb]
      | now ch streams c Hr [IHc IHb] | now req db c Hr [IHc IHb]
      | now req db c Hr [IHc IHb] | now method path addr db c Hr [IHc IHb]
      | now id db c Hr [IHc IHb] | now id db c Hr [IHc IHb] ].
  - split; [reflexivity|]. intros key. unfold historyOf. cbn. rewrite lookup_empty. cbn. lia.
  - split; [exact IHc|]. apply bounded_update; [rewrite IHc; exact Hw | exact IHb].
  - split; [exact IHc|]. exact IHb.
  - rewrite <- IHc in Hw. destruct (bounded_tick now ch streams c Hw IHb) as [Hb Hc].
    split; [congruence | exact Hb].
  - pose proof (sameHealth_publish now req db c) as Hs.
    split; [destruct Hs as [_ ->]; exact IHc | eapply bounded_same; eassumption].
  - pose proof (sameHealth_unpublish now req db c) as Hs.
    split; [destruct Hs as [_ ->]; exact IHc | eapply bounded_same; eassumption].
  - pose proof (sameHealth_takeover now method path addr db c) as Hs.
    split; [destruct Hs as [_ ->]; exact IHc | eapply bounded_same; eassumption].
  - pose proof (sameHealth_switchToLoop now id db c) as Hs.
    split; [destruct Hs as [_ ->]; exact IHc | eapply bounded_same; eassumption].
  - pose proof (sameHealth_switchToOBS now id db c) as Hs.
    split; [destruct Hs as [_ ->]; exact IHc | eapply bounded_same; eassumption].
Qed.

(** C7: in every reachable state, after [UpdateHealthHistory] every history is
    at most [StabilityWindow] long; the call appends the new sample to the
    history of its key, dropping the oldest sample exactly when the history
    was full, and leaves the other keys alone. *)
Theorem health_history_bounded_fifo (cfg : Config) (c : Controller) (key : string) (healthy : bool) :
  1 <= StabilityWindow cfg ->
  reachable cfg c ->
  let c' := UpdateHealthHistory key healthy c in
  (forall k, Z.of_nat (List.length (historyOf k c')) <= StabilityWindow cfg)
  /\ historyOf key c'
     = (if decide (Z.of_nat (List.length (historyOf key c)) = StabilityWindow cfg)
        then tl (historyOf key c) else historyOf key c) ++ [healthy]
  /\ (forall k, k <> key -> historyOf k c' = historyOf k c).
Proof.
  intros Hw Hr c'.
  destruct (reachable_bounded cfg c ltac:(lia) Hr) as [Hc Hb].
  destruct (reachable_bounded cfg c' ltac:(lia) (reach_health cfg key healthy c Hr)) as [Hc' Hb'].
  split; [|split].
  - intros k. rewrite <- Hc'. apply Hb'.
  - subst c'. rewrite historyOf_update. destruct (decide (key = key)) as [_|]; [|congruence].
    cbn zeta. specialize (Hb key). rewrite Hc in *.
    rewrite List.length_app. cbn [List.length].
    destruct (decide _) as [Hfull|Hroom].
    + destruct (StabilityWindow cfg <? _) eqn:Hlt; [|apply Z.ltb_ge in Hlt; lia].
      destruct (historyOf key c) as [|h rest]; [cbn in Hfull; lia | reflexivity].
    + destruct (StabilityWindow cfg <? _) eqn:Hlt; [apply Z.ltb_lt in Hlt; lia | reflexivity].
  - intros k Hne. subst c'. rewrite historyOf_update.
    destruct (decide (k = key)); [contradiction | reflexivity].
Qed.

Definition sampleConfig : Config := {| StabilityWindow := 3 |}.

Definition sampleHistory : Controller :=
  UpdateHealthHistory "alpha_obs" true
    (UpdateHealthHistory "alpha_obs" false
      (UpdateHealthHistory "alpha_obs" true (NewController 0 sampleConfig))).

Lemma health_history_bounded_fifo_witness :
  historyOf "alpha_obs" (UpdateHealthHistory "alpha_obs" false sampleHistory)
  = [false; true; false].
Proof.
  set (c := sampleHistory).
  pose proof (health_history_bounded_fifo sampleConfig c "alpha_obs" false
                ltac:(vm_compute; discriminate)
                ltac:(repeat apply reach_health; apply reach_new)) as H.
  cbv zeta in H. rewrite (proj1 (proj2 H)). vm_compute. reflexivity.
Defined.

End HealthProofs.

(** ** The reconciler tick (main.go:305-438) *)

Module ReconcilerProofs.
Import Controller.

Example TrimPrefix_token : TrimPrefix "?token=abc" "?token=" = "abc".
Proof. reflexivity. Qed.

Example TrimSuffix_obs : TrimSuffix "alpha-obs" "-obs" = "alpha" /\ HasSuffix "obs" "-obs" = false.
Proof. split; reflexivity. Qed.

(** The two health samples of a tick touch nothing but the history. *)
Definition sampled (ch : Channel) (streams : gmap string SRSStream) (c : Controller) : Controller :=
  UpdateHealthHistory (Name ch +:+ "_obs") (isObsRobust ch streams)
    (UpdateHealthHistory (Name ch +:+ "_loop") (isLoopRobust ch streams) c).

Lemma selectSource_unfold now ch streams c :
  selectSource now ch streams c
  = autoSwitch now ch (isObsRobust ch streams) (resolvedSource ch c)
      (snd (clearOverride ch (isObsRobust ch streams) (syncFromStore ch (sampled ch streams c))))
      (fst (clearOverride ch (isObsRobust ch streams) (syncFromStore ch (sampled ch streams c)))).
Proof. reflexivity. Qed.

Lemma syncFromStore_sampled ch streams c :
  activeSourceMap (syncFromStore ch (sampled ch streams c)) = activeSourceMap (syncFromStore ch c)
  /\ manualLoopOverride (syncFromStore ch (sampled ch streams c)) = manualLoopOverride c
  /\ takeoverCooldown (syncFromStore ch (sampled ch streams c)) = takeoverCooldown c
  /\ LogBuffer (syncFromStore ch (sampled ch streams c)) = LogBuffer c.
Proof.
  unfold syncFromStore, storeDiffers, mapSource, sampled. cbn [activeSourceMap UpdateHealthHistory set_HealthHistory].
  destruct (_ && _); repeat split; reflexivity.
Qed.

Lemma hasOverride_sync ch streams c :
  hasOverride ch (syncFromStore ch (sampled ch streams c)) = hasOverride ch c.
Proof.
  unfold hasOverride. destruct (syncFromStore_sampled ch streams c) as (_ & -> & _). reflexivity.
Qed.

(** The override after the source selection of a tick. *)
Lemma selectSource_override now ch streams c :
  manualLoopOverride (fst (fst (selectSource now ch streams c)))
  = if negb (isObsRobust ch streams) && hasOverride ch c
    then delete (Name ch) (manualLoopOverride c) else manualLoopOverride c.
Proof.
  rewrite selectSource_unfold. unfold autoSwitch, clearOverride.
  rewrite hasOverride_sync.
  destruct (syncFromStore_sampled ch streams c) as (_ & Ho & _).
  destruct (negb (isObsRobust ch streams) && hasOverride ch c);
    cbn [fst snd]; destruct (autoSwitchFires _ _ _ _); cbn; rewrite Ho; reflexivity.
Qed.

Lemma selectSource_cooldown now ch streams c :
  takeoverCooldown (fst (fst (selectSource now ch streams c))) = takeoverCooldown c.
Proof.
  rewrite selectSource_unfold. unfold autoSwitch, clearOverride.
  destruct (syncFromStore_sampled ch streams c) as (_ & _ & Hc & _).
  destruct (negb (isObsRobust ch streams) && _);
    cbn [fst snd]; destruct (autoSwitchFires _ _ _ _); cbn; rewrite Hc; reflexivity.
Qed.

(** The rule's condition, on the state the tick starts from. *)
Definition preempts (ch : Channel) (streams : gmap string SRSStream) (c : Controller) : bool :=
  OBSOverrideEnabled ch && isObsRobust ch streams
  && negb (String.eqb (resolvedSource ch c) "OBS") && negb (hasOverride ch c).

Lemma autoSwitchFires_preempts ch streams c :
  autoSwitchFires ch (isObsRobust ch streams) (resolvedSource ch c)
    (snd (clearOverride ch (isObsRobust ch streams) (syncFromStore ch (sampled ch streams c))))
  = preempts ch streams c.
Proof.
  unfold autoSwitchFires, preempts, clearOverride. rewrite hasOverride_sync.
  destruct (isObsRobust ch streams); cbn [negb andb snd].
  - reflexivity.
  - rewrite !andb_false_r. reflexivity.
Qed.

Lemma last_Log now level component message c :
  last (LogBuffer (Log now level component message c))
  = Some {| log_ID := wrap64 (logID c + 1); Timestamp := now; Level := level;
            Component := component; Message := message |}.
Proof.
  unfold Log. cbn [LogBuffer].
  destruct (1000 <? _)%nat eqn:Hlen.
  - apply Nat.ltb_lt in Hlen. destruct (LogBuffer c) as [|e rest].
    + cbn in Hlen. lia.
    + cbn [app tl]. apply last_snoc.
  - apply last_snoc.
Qed.

Lemma selectSource_fires now ch streams c :
  preempts ch streams c = true ->
  activeSourceMap (fst (fst (selectSource now ch streams c))) !! Name ch = Some "OBS"
  /\ snd (fst (selectSource now ch streams c)) = [GoUpdateActiveSource (ID ch) "OBS"]
  /\ snd (selectSource now ch streams c) = "OBS"
  /\ exists e, last (LogBuffer (fst (fst (selectSource now ch streams c)))) = Some e
               /\ Level e = "info" /\ Component e = "switch"
               /\ Message e = autoSwitchMessage ch.
Proof.
  intros Hp. rewrite selectSource_unfold. unfold autoSwitch.
  rewrite autoSwitchFires_preempts, Hp. cbn [fst snd].
  repeat split.
  - apply lookup_insert_eq.
  - rewrite last_Log. eexists. split; [reflexivity|]. repeat split.
Qed.

Lemma selectSource_idle now ch streams c :
  preempts ch streams c = false ->
  activeSourceMap (fst (fst (selectSource now ch streams c))) = activeSourceMap (syncFromStore ch c)
  /\ snd (fst (selectSource now ch streams c)) = []
  /\ snd (selectSource now ch streams c) = resolvedSource ch c
  /\ LogBuffer (fst (fst (selectSource now ch streams c))) = LogBuffer c.
Proof.
  intros Hp. rewrite selectSource_unfold. unfold autoSwitch.
  rewrite autoSwitchFires_preempts, Hp. cbn [fst snd].
  destruct (syncFromStore_sampled ch streams c) as (Ha & _ & _ & Hl).
  unfold clearOverride. destruct (_ && _); cbn [fst activeSourceMap LogBuffer set_manualLoopOverride];
    rewrite Ha, Hl; repeat split.
Qed.

(** The cooldown block writes only the cooldown map. *)
Lemma superviseLoop_frame now ch obsAlive loopAlive c :
  activeSourceMap (fst (superviseLoop now ch obsAlive loopAlive c)) = activeSourceMap c
  /\ manualLoopOverride (fst (superviseLoop now ch obsAlive loopAlive c)) = manualLoopOverride c
  /\ LogBuffer (fst (superviseLoop now ch obsAlive loopAlive c)) = LogBuffer c
  /\ forall id source, ~ In (GoUpdateActiveSource id source)
                            (snd (superviseLoop now ch obsAlive loopAlive c)).
Proof.
  unfold superviseLoop. destruct (takeoverCooldown c !! Name ch) as [t|].
  - destruct (now - t <? _); cbn [fst snd]; repeat split; try reflexivity;
      intros id source [H|[H|[]]]; try discriminate; destruct (LoopEnabled ch); discriminate.
  - cbn [fst snd]. repeat split; try reflexivity.
    intros id source [H|[H|[]]]; try discriminate; destruct (LoopEnabled ch); discriminate.
Qed.

(** The frame of [superviseLoop] at the call of it in the goal. *)
Tactic Notation "supervise_frame" "as" simple_intropattern(pat) :=
  match goal with
  | |- context [superviseLoop ?n ?h ?a ?l ?c4] =>
      destruct (superviseLoop_frame n h a l c4) as pat
  end.

Lemma ReconcileChannel_enabled now ch streams c :
  Enabled ch = true ->
  ReconcileChannel now ch streams c
  = (fst (superviseLoop now
            (with_source ch (snd (detectOBS ch streams)) (snd (selectSource now ch streams c)))
            (bool_decide (is_Some (fst (detectOBS ch streams))))
            (bool_decide (is_Some (streams !! Name ch)))
            (fst (fst (selectSource now ch streams c)))),
     snd (fst (selectSource now ch streams c))
     ++ snd (superviseLoop now
               (with_source ch (snd (detectOBS ch streams)) (snd (selectSource now ch streams c)))
               (bool_decide (is_Some (fst (detectOBS ch streams))))
               (bool_decide (is_Some (streams !! Name ch)))
               (fst (fst (selectSource now ch streams c))))).
Proof. intros Hen. unfold ReconcileChannel. rewrite Hen. reflexivity. Qed.

(** The two maps after a whole tick of an enabled channel. *)
Lemma tick_override now ch streams c :
  Enabled ch = true ->
  manualLoopOverride (fst (ReconcileChannel now ch streams c))
  = if negb (isObsRobust ch streams) && hasOverride ch c
    then delete (Name ch) (manualLoopOverride c) else manualLoopOverride c.
Proof.
  intros Hen. rewrite (ReconcileChannel_enabled now ch streams c Hen). cbn [fst].
  supervise_frame as (_ & -> & _).
  apply selectSource_override.
Qed.

Lemma tick_idle_map now ch streams c :
  Enabled ch = true ->
  preempts ch streams c = false ->
  activeSourceMap (fst (ReconcileChannel now ch streams c)) = activeSourceMap (syncFromStore ch c).
Proof.
  intros Hen Hidle. rewrite (ReconcileChannel_enabled now ch streams c Hen). cbn [fst].
  supervise_frame as (-> & _).
  apply selectSource_idle. exact Hidle.
Qed.

(** A disabled channel: the loop container and the relay are stopped and the
    controller is untouched. *)
Lemma ReconcileChannel_disabled now ch streams c :
  Enabled ch = false ->
  ReconcileChannel now ch streams c
  = (c, [EnsureContainerStopped (loopContainer (Name ch)); ReconcileDestinations ch false]).
Proof. intros Hdis. unfold ReconcileChannel. rewrite Hdis. reflexivity. Qed.

(** The store update that the auto-switch starts, once it has run. *)
Lemma UpdateActiveSource_sets db channelID source r :
  In r (channels (runCall db (GoUpdateActiveSource channelID source))) ->
  row_id r = channelID -> current_active_source r = source.
Proof.
  cbn [runCall UpdateActiveSource channels]. intros Hin Hid.
  apply in_map_iff in Hin as (r0 & Hr & _).
  destruct (row_id r0 =? channelID) eqn:Heq; subst r.
  - reflexivity.
  - cbn in Hid. apply Z.eqb_neq in Heq. contradiction.
Qed.

(** C1: on a tick of an enabled channel, if primary_override_enabled holds,
    the primary is up on this sample, the current source is not OBS and no
    manual override is set, then the map holds OBS for the channel, the store
    update is started as a goroutine (and writes OBS once it runs), and an
    info entry of component [switch] is the newest entry of the log buffer;
    if one of the four fails, the map is what the sync from the store left,
    no store update is started and nothing is logged. *)
Theorem auto_preemption_rule (now : Z) (ch : Channel) (streams : gmap string SRSStream)
    (c : Controller) :
  Enabled ch = true ->
  let fires := OBSOverrideEnabled ch && isObsRobust ch streams
               && negb (String.eqb (resolvedSource ch c) "OBS") && negb (hasOverride ch c) in
  let c' := fst (ReconcileChannel now ch streams c) in
  let calls := snd (ReconcileChannel now ch streams c) in
  (fires = true ->
     activeSourceMap c' !! Name ch = Some "OBS"
     /\ In (GoUpdateActiveSource (ID ch) "OBS") calls
     /\ (forall db r, In r (channels (runCall db (GoUpdateActiveSource (ID ch) "OBS"))) ->
                      row_id r = ID ch -> current_active_source r = "OBS")
     /\ exists e, last (LogBuffer c') = Some e /\ Level e = "info"
                  /\ Component e = "switch" /\ Message e = autoSwitchMessage ch)
  /\ (fires = false ->
     activeSourceMap c' = activeSourceMap (syncFromStore ch c)
     /\ (forall id source, ~ In (GoUpdateActiveSource id source) calls)
     /\ LogBuffer c' = LogBuffer c).
Proof.
  intros Hen fires c' calls. subst c' calls.
  rewrite (ReconcileChannel_enabled now ch streams c Hen). cbn [fst snd].
  supervise_frame as (Ha & _ & Hl & Hgo).
  rewrite Ha, Hl. change fires with (preempts ch streams c). split; intros Hf.
  - destruct (selectSource_fires now ch streams c Hf) as (Hm & Hc & _ & He).
    split; [exact Hm|]. split; [rewrite Hc; left; reflexivity|].
    split; [intros db r; apply UpdateActiveSource_sets | exact He].
  - destruct (selectSource_idle now ch streams c Hf) as (Hm & Hc & _ & Hlog).
    split; [exact Hm|]. split; [|exact Hlog].
    intros id source Hin. rewrite Hc in Hin. cbn [app] in Hin. exact (Hgo id source Hin).
Qed.

(** A channel as scenario 2 of the design has it: enabled, the primary
    allowed to pre-empt, the primary publishing at 2500 kbps. *)
Definition alpha : Channel :=
  {| ID := 1; Name := "alpha"; OBSToken := "primary-secret"; LoopToken := "loop-secret";
     LoopEnabled := true; Enabled := true; ActiveSource := "LOOP";
     OBSOverrideEnabled := true; FailoverTimeout := 10; Destinations := [];
     ObsSourceStream := EmptyString |}.

Definition primaryLive : gmap string SRSStream :=
  {[ "alpha-obs" := {| KbpsRecv := 2500; VideoWidth := 1920; PublishActive := true |};
     "alpha" := {| KbpsRecv := 900; VideoWidth := 1280; PublishActive := true |} ]}.

Definition primaryGone : gmap string SRSStream :=
  {[ "alpha" := {| KbpsRecv := 900; VideoWidth := 1280; PublishActive := true |} ]}.

Definition fresh : Controller := NewController 0 {| StabilityWindow := 3 |}.

Lemma auto_preemption_rule_witness :
  activeSourceMap (fst (ReconcileChannel 0 alpha primaryLive fresh)) !! "alpha" = Some "OBS"
  /\ In (GoUpdateActiveSource 1 "OBS") (snd (ReconcileChannel 0 alpha primaryLive fresh)).
Proof.
  pose proof (auto_preemption_rule 0 alpha primaryLive fresh eq_refl) as [Hfire _].
  cbv zeta in Hfire.
  specialize (Hfire ltac:(vm_compute; reflexivity)).
  split; [exact (proj1 Hfire) | exact (proj1 (proj2 Hfire))].
Defined.

(** C4: a tick of an enabled channel that sees the primary down leaves no
    override set for the channel (an existing one is deleted); a tick that sees
    the primary up leaves the override map as it was; no tick touches another
    channel's override. *)
Theorem override_cleared_iff_primary_down (now : Z) (ch : Channel)
    (streams : gmap string SRSStream) (c : Controller) :
  Enabled ch = true ->
  let c' := fst (ReconcileChannel now ch streams c) in
  (isObsRobust ch streams = false ->
     hasOverride ch c' = false
     /\ (hasOverride ch c = true ->
         manualLoopOverride c' = delete (Name ch) (manualLoopOverride c)))
  /\ (isObsRobust ch streams = true -> manualLoopOverride c' = manualLoopOverride c)
  /\ (forall other, other <> Name ch ->
        manualLoopOverride c' !! other = manualLoopOverride c !! other).
Proof.
  intros Hen c'. subst c'.
  rewrite (ReconcileChannel_enabled now ch streams c Hen). cbn [fst].
  supervise_frame as (_ & Ho & _).
  unfold hasOverride at 1. rewrite Ho, selectSource_override.
  split; [|split].
  - intros ->. cbn [negb andb]. destruct (hasOverride ch c) eqn:Hhas.
    + split; [|reflexivity]. rewrite lookup_delete_eq. reflexivity.
    + split; [exact Hhas | discriminate].
  - intros ->. reflexivity.
  - intros other Hne. destruct (_ && _); [|reflexivity].
    rewrite lookup_delete_ne by congruence. reflexivity.
Qed.

Definition overridden : Controller :=
  set_manualLoopOverride {[ "alpha" := true ]}
    (set_activeSourceMap {[ "alpha" := "LOOP" ]} fresh).

Lemma override_cleared_iff_primary_down_witness :
  hasOverride alpha (fst (ReconcileChannel 0 alpha primaryGone overridden)) = false
  /\ manualLoopOverride (fst (ReconcileChannel 0 alpha primaryLive overridden))
     = manualLoopOverride overridden.
Proof.
  split.
  - pose proof (override_cleared_iff_primary_down 0 alpha primaryGone overridden eq_refl) as H.
    exact (proj1 (proj1 H ltac:(vm_compute; reflexivity))).
  - pose proof (override_cleared_iff_primary_down 0 alpha primaryLive overridden eq_refl) as H.
    exact (proj1 (proj2 H) ltac:(vm_compute; reflexivity)).
Defined.

Example failoverTimeout_default :
  failoverTimeout (with_source alpha "" "LOOP") = 10 * Second
  /\ failoverTimeout
       {| ID := 2; Name := "beta"; OBSToken := "p"; LoopToken := "l"; LoopEnabled := true;
          Enabled := true; ActiveSource := "LOOP"; OBSOverrideEnabled := true;
          FailoverTimeout := 0; Destinations := []; ObsSourceStream := EmptyString |}
     = 60 * Second.
Proof. split; reflexivity. Qed.

(** The window of the cooldown for the values the [INT] column can hold. *)
Lemma failoverTimeout_value (ch : Channel) :
  (1 <= FailoverTimeout ch <= 2147483647 -> failoverTimeout ch = FailoverTimeout ch * Second)
  /\ (-2147483648 <= FailoverTimeout ch <= 0 -> failoverTimeout ch = 60 * Second).
Proof.
  unfold failoverTimeout, wrap64, Second. split; intros H.
  - rewrite Z.mod_small by lia.
    destruct (_ <=? 0) eqn:Hle; [apply Z.leb_le in Hle; lia | lia].
  - rewrite (Z.mod_small (FailoverTimeout ch * _ + _)) by lia.
    destruct (_ <=? 0) eqn:Hle; [reflexivity | apply Z.leb_gt in Hle; lia].
Qed.

Lemma superviseLoop_no_start now ch obsAlive loopAlive c t :
  takeoverCooldown c !! Name ch = Some t ->
  now - t < failoverTimeout ch ->
  superviseLoop now ch obsAlive loopAlive c
  = (c, [ EnsureContainerStopped (loopContainer (Name ch));
          ReconcileDestinations ch (obsAlive || loopAlive) ]).
Proof.
  intros Ht Hlt. unfold superviseLoop. rewrite Ht.
  destruct (now - t <? failoverTimeout ch) eqn:Hb; [reflexivity|].
  apply Z.ltb_ge in Hb. lia.
Qed.

Lemma superviseLoop_expired now ch obsAlive loopAlive c t :
  takeoverCooldown c !! Name ch = Some t ->
  failoverTimeout ch <= now - t ->
  superviseLoop now ch obsAlive loopAlive c
  = (set_takeoverCooldown (delete (Name ch) (takeoverCooldown c)) c,
     [ if LoopEnabled ch then EnsureContainerRunning ch (loopContainer (Name ch))
       else EnsureContainerStopped (loopContainer (Name ch));
       ReconcileDestinations ch (obsAlive || loopAlive || LoopEnabled ch) ]).
Proof.
  intros Ht Hge. unfold superviseLoop. rewrite Ht.
  destruct (now - t <? failoverTimeout ch) eqn:Hb; [|reflexivity].
  apply Z.ltb_lt in Hb. lia.
Qed.

Lemma selectSource_calls now ch streams c call :
  In call (snd (fst (selectSource now ch streams c))) ->
  call = GoUpdateActiveSource (ID ch) "OBS".
Proof.
  rewrite selectSource_unfold. unfold autoSwitch.
  destruct (autoSwitchFires _ _ _ _); cbn [fst snd]; [|intros []].
  intros [<-|[]]. reflexivity.
Qed.

(** C3: with a cooldown timestamp [t] installed for the channel, a tick at
    [now] with [now - t] below the window starts no loop container: it calls
    [EnsureContainerStopped] on the loop container, never
    [EnsureContainerRunning], and keeps the entry.  A tick of an enabled
    channel at or past the window deletes the entry and supervises the loop
    again: [EnsureContainerRunning] when the loop is enabled,
    [EnsureContainerStopped] otherwise.  The window is the channel's
    failover timeout in seconds, and 60 s when that is not positive. *)
Theorem takeover_cooldown_guard (now : Z) (ch : Channel) (streams : gmap string SRSStream)
    (c : Controller) (t : Z) :
  takeoverCooldown c !! Name ch = Some t ->
  let c' := fst (ReconcileChannel now ch streams c) in
  let calls := snd (ReconcileChannel now ch streams c) in
  (now - t < failoverTimeout ch ->
     (forall ch' name, ~ In (EnsureContainerRunning ch' name) calls)
     /\ In (EnsureContainerStopped (loopContainer (Name ch))) calls
     /\ takeoverCooldown c' = takeoverCooldown c)
  /\ (Enabled ch = true -> failoverTimeout ch <= now - t ->
     takeoverCooldown c' !! Name ch = None
     /\ takeoverCooldown c' = delete (Name ch) (takeoverCooldown c)
     /\ if LoopEnabled ch
        then exists ch', In (EnsureContainerRunning ch' (loopContainer (Name ch))) calls
        else In (EnsureContainerStopped (loopContainer (Name ch))) calls
             /\ forall ch' name, ~ In (EnsureContainerRunning ch' name) calls)
  /\ (1 <= FailoverTimeout ch <= 2147483647 -> failoverTimeout ch = FailoverTimeout ch * Second)
  /\ (-2147483648 <= FailoverTimeout ch <= 0 -> failoverTimeout ch = 60 * Second).
Proof.
  intros Ht c' calls. subst c' calls.
  split; [|split; [|apply failoverTimeout_value]].
  - intros Hlt. destruct (Enabled ch) eqn:Hen.
    + rewrite (ReconcileChannel_enabled now ch streams c Hen). cbn [fst snd].
      erewrite superviseLoop_no_start;
        [| rewrite selectSource_cooldown; exact Ht | exact Hlt].
      cbn [fst snd]. rewrite selectSource_cooldown. split; [|split; [|reflexivity]].
      * intros ch' name Hin. apply in_app_or in Hin as [Hin|[Hin|[Hin|[]]]]; try discriminate.
        apply selectSource_calls in Hin. discriminate.
      * apply in_or_app. right. left. reflexivity.
    + unfold ReconcileChannel. rewrite Hen. cbn [negb fst snd].
      split; [|split; [left; reflexivity | reflexivity]].
      intros ch' name [Hin|[Hin|[]]]; discriminate.
  - intros Hen Hge. rewrite (ReconcileChannel_enabled now ch streams c Hen). cbn [fst snd].
    erewrite superviseLoop_expired;
      [| rewrite selectSource_cooldown; exact Ht | exact Hge].
    cbn [fst snd takeoverCooldown set_takeoverCooldown Name with_source LoopEnabled].
    rewrite selectSource_cooldown. split; [apply lookup_delete_eq|]. split; [reflexivity|].
    destruct (LoopEnabled ch).
    + eexists. apply in_or_app. right. left. reflexivity.
    + split; [apply in_or_app; right; left; reflexivity|].
      intros ch' name Hin. apply in_app_or in Hin as [Hin|[Hin|[Hin|[]]]]; try discriminate.
      apply selectSource_calls in Hin. discriminate.
Qed.

Definition coolingDown : Controller := set_takeoverCooldown {[ "alpha" := 100 * Second ]} fresh.

Lemma takeover_cooldown_guard_witness :
  In (EnsureContainerStopped "loop-alpha")
     (snd (ReconcileChannel (104 * Second) alpha primaryLive coolingDown))
  /\ takeoverCooldown (fst (ReconcileChannel (110 * Second) alpha primaryLive coolingDown))
     !! "alpha" = None.
Proof.
  split.
  - pose proof (takeover_cooldown_guard (104 * Second) alpha primaryLive coolingDown
                  (100 * Second) ltac:(vm_compute; reflexivity)) as H.
    exact (proj1 (proj2 (proj1 H ltac:(vm_compute; reflexivity)))).
  - pose proof (takeover_cooldown_guard (110 * Second) alpha primaryLive coolingDown
                  (100 * Second) ltac:(vm_compute; reflexivity)) as H.
    exact (proj1 (proj1 (proj2 H) eq_refl ltac:(vm_compute; discriminate))).
Defined.

End ReconcilerProofs.

(** ** The publish hook and the manual override (main.go:1545-1567, 1897-2128) *)

Module HookProofs.
Import Controller.

(** Keys are compared under Unicode simple case folding: upper case, the long
    s (bytes 197 191) and the Kelvin sign (bytes 226 132 170) select the field as
    well. *)
Example keyIs_folds :
  JSON.keyIs "stream" "STREAM" = true
  /\ JSON.keyIs "stream" (String "197" (String "191" "tream")) = true
  /\ JSON.keyIs "keyframe_interval"
       (String "226" (String "132" (String "170" "eyframe_interval"))) = true
  /\ JSON.keyIs "stream" "streams" = false
  /\ JSON.keyIs "stream" (String "197" (String "190" "tream")) = false.
Proof. repeat split; reflexivity. Qed.

(** [json.Unmarshal] refuses a body in which anything follows the value. *)
Example unmarshalHook_trailing (raw : string) (v : JSON.Value) :
  unmarshalHook {| JSON.raw := raw; JSON.scanned := Some v; JSON.trailing := true |} = None.
Proof. reflexivity. Qed.

Lemma matchSource_cases r token tokenHash sourceType :
  matchSource r token tokenHash = Some sourceType -> sourceType = "OBS" \/ sourceType = "LOOP".
Proof.
  unfold matchSource.
  repeat (match goal with |- context [if ?b then _ else _] => destruct b end);
    intros [= <-]; auto.
Qed.

Lemma authenticate_source req db payload streamName sourceType :
  authenticate req db = Accepted payload streamName sourceType ->
  sourceType = "OBS" \/ sourceType = "LOOP".
Proof.
  unfold authenticate, authenticateOn.
  destruct (unmarshalHook req) as [p|]; [|discriminate].
  match goal with
  | |- context [match ?found with Some _ => _ | None => UnknownStream _ _ end] =>
      destruct found as [[r isOBS]|]; [|discriminate]
  end.
  destruct (_ && _); [discriminate|].
  destruct (matchSource r _ _) as [src|] eqn:Hm; [|discriminate].
  intros [= _ _ <-]. eapply matchSource_cases; eassumption.
Qed.

(** C10: when the publish hook accepts a publish under the loop token
    (source type LOOP), the cooldown map, the active-source map, the override
    map and the health history are unchanged (the controller differs from the
    one before by the handler's two log lines only), the channel and
    destination rows of the store are unchanged, one audit row is appended, no
    container call or goroutine is started, and the answer is 200 with body
    [0].  Under the OBS token the cooldown is installed, the loop container's
    stop is started and the store's source is written; the source type is one
    of the two. *)
Theorem loop_publish_frame (now : Z) (req : JSON.Body) (c : Controller) (db : DB)
    (payload : HookPayload) (streamName sourceType : string) :
  authenticate req db = Accepted payload streamName sourceType ->
  let result := OnPublishHandler now req c db in
  let c' := fst (fst (fst result)) in
  let db' := snd (fst (fst result)) in
  snd (fst result) = {| status := 200; body := "0" |}
  /\ audit_logs db' = audit_logs db ++ [publishAudit payload sourceType]
  /\ (sourceType = "LOOP" ->
        takeoverCooldown c' = takeoverCooldown c
        /\ activeSourceMap c' = activeSourceMap c
        /\ manualLoopOverride c' = manualLoopOverride c
        /\ HealthHistory c' = HealthHistory c
        /\ c' = Log now "info" "auth"
                  ("Accepted LOOP publish for " +:+ Stream payload +:+ " from " +:+ IP payload)
                  (Log now "info" "auth" ("Raw Publish Body: " +:+ JSON.raw req) c)
        /\ channels db' = channels db
        /\ destinations db' = destinations db
        /\ snd result = [])
  /\ (sourceType = "OBS" ->
        takeoverCooldown c' = <[streamName := now]> (takeoverCooldown c)
        /\ channels db' = channels (setSourceByName db streamName "OBS")
        /\ snd result = [GoEnsureContainerStopped (loopContainer streamName)])
  /\ (sourceType = "LOOP" \/ sourceType = "OBS").
Proof.
  intros Hauth result c' db'. subst result c' db'.
  unfold OnPublishHandler. rewrite Hauth.
  destruct (authenticate_source _ _ _ _ _ Hauth) as [-> | ->].
  - cbn. repeat split; try reflexivity; try discriminate. right. reflexivity.
  - cbn. repeat split; try reflexivity; try discriminate. left. reflexivity.
Qed.

(** The store of scenario 4: one enabled channel, created as the channel
    handler creates it (both hashes stored), currently on the primary. *)
Definition alphaRow : ChannelRow :=
  {| row_id := 1; row_name := "alpha"; row_enabled := true;
     obs_token := "primary-secret"; loop_token := "loop-secret";
     obs_token_hash := Some (Crypto.HashToken "primary-secret");
     loop_token_hash := Some (Crypto.HashToken "loop-secret");
     current_active_source := "OBS"; loop_enabled := true;
     obs_override_enabled := true; failover_timeout_seconds := 10 |}.

Definition store : DB := {| channels := [alphaRow]; destinations := []; audit_logs := [] |}.

Definition publishBody (stream token : string) : JSON.Body :=
  {| JSON.raw := "on_publish " +:+ stream;
     JSON.scanned := Some (JSON.Object
       [ ("action", JSON.Str "on_publish"); ("stream", JSON.Str stream);
         ("param", JSON.Str ("?token=" +:+ token)); ("ip", JSON.Str "10.0.0.7") ]);
     JSON.trailing := false |}.

Definition onPrimary : Controller :=
  set_activeSourceMap {[ "alpha" := "OBS" ]} (NewController 0 {| StabilityWindow := 3 |}).

Lemma loop_publish_frame_witness :
  takeoverCooldown
    (fst (fst (fst (OnPublishHandler 50 (publishBody "alpha" "loop-secret") onPrimary store))))
  = takeoverCooldown onPrimary
  /\ channels (snd (fst (fst (OnPublishHandler 50 (publishBody "alpha" "loop-secret")
                                onPrimary store)))) = channels store.
Proof.
  pose proof (loop_publish_frame 50 (publishBody "alpha" "loop-secret") onPrimary store
                {| Action := "on_publish"; Stream := "alpha";
                   Param := "?token=loop-secret"; IP := "10.0.0.7" |}
                "alpha" "LOOP" ltac:(vm_compute; reflexivity)) as H.
  cbv zeta in H. destruct H as (_ & _ & Hloop & _).
  specialize (Hloop eq_refl).
  split; [exact (proj1 Hloop) | exact (proj1 (proj2 (proj2 (proj2 (proj2 (proj2 Hloop))))))].
Defined.

(** Both ways of installing the cooldown stamp it with the time of the
    request: the publish hook under the OBS token (above) and the takeover
    endpoint. *)
Lemma TakeoverHandler_installs (now : Z) (path addr : string) (c : Controller) (db : DB)
    (r : ChannelRow) :
  let channelName := TrimSuffix (TrimPrefix path "/api/takeover/") "/" in
  channelName <> "" ->
  queryByName db channelName = Some r ->
  let result := TakeoverHandler now "POST" path addr c db in
  takeoverCooldown (fst (fst (fst result))) = <[channelName := now]> (takeoverCooldown c)
  /\ snd result = [EnsureContainerStopped (loopContainer channelName)]
  /\ channels (snd (fst (fst result))) = channels (UpdateActiveSource db (row_id r) "OBS").
Proof.
  intros channelName Hname Hrow result. subst result. unfold TakeoverHandler.
  cbn [String.eqb Ascii.eqb Bool.eqb negb]. fold channelName.
  destruct (String.eqb_spec channelName "") as [Heq|_]; [contradiction|].
  rewrite Hrow. cbn. repeat split.
Qed.

(** The unpublish hook under the OBS token deletes it. *)
Lemma OnUnpublishHandler_clears (now : Z) (req : JSON.Body) (c : Controller) (db : DB)
    (payload : HookPayload) (r : ChannelRow) :
  unmarshalHook req = Some payload ->
  let streamName :=
    if HasSuffix (Stream payload) "-obs" then TrimSuffix (Stream payload) "-obs"
    else Stream payload in
  queryAnyByName db streamName = Some r ->
  TrimPrefix (Param payload) "?token=" = obs_token r ->
  takeoverCooldown (fst (fst (OnUnpublishHandler now req c db))) !! streamName = None
  /\ channels (snd (fst (OnUnpublishHandler now req c db)))
     = channels (setSourceByName db streamName "LOOP").
Proof.
  intros Hreq streamName Hrow Htok. unfold OnUnpublishHandler. rewrite Hreq.
  fold streamName. rewrite Hrow, Htok, String.eqb_refl. cbn.
  split; [apply lookup_delete_eq | reflexivity].
Qed.

(** *** The manual override against the sync from the store *)

(** The auto-switch rule itself never fires under an override: when the store
    agrees with the map, a tick leaves the channel's source as it was. *)
Lemma override_blocks_auto_switch (now : Z) (ch : Channel) (streams : gmap string SRSStream)
    (c : Controller) :
  Enabled ch = true ->
  hasOverride ch c = true ->
  storeDiffers ch c = false ->
  activeSourceMap (fst (ReconcileChannel now ch streams c)) = activeSourceMap c.
Proof.
  intros Hen Hov Hsame.
  rewrite ReconcilerProofs.tick_idle_map; [|exact Hen|].
  - unfold syncFromStore. rewrite Hsame. reflexivity.
  - unfold ReconcilerProofs.preempts. rewrite Hov. apply andb_false_r.
Qed.

(** The sync from the store does not look at the override: a persisted OBS is
    adopted by the next tick while the override stays set. *)
Lemma store_sync_ignores_override (now : Z) (ch : Channel) (streams : gmap string SRSStream)
    (c : Controller) :
  Enabled ch = true ->
  hasOverride ch c = true ->
  isObsRobust ch streams = true ->
  ActiveSource ch = "OBS" ->
  mapSource ch c <> "OBS" ->
  activeSourceMap (fst (ReconcileChannel now ch streams c)) !! Name ch = Some "OBS"
  /\ hasOverride ch (fst (ReconcileChannel now ch streams c)) = true.
Proof.
  intros Hen Hov Hup Hstore Hmap.
  assert (Hdiff : storeDiffers ch c = true).
  { unfold storeDiffers. rewrite Hstore.
    destruct (String.eqb_spec "OBS" (mapSource ch c)) as [Heq|_]; [|reflexivity].
    symmetry in Heq. contradiction. }
  split.
  - rewrite ReconcilerProofs.tick_idle_map; [|exact Hen|].
    + unfold syncFromStore. rewrite Hdiff, Hstore. apply lookup_insert_eq.
    + unfold ReconcilerProofs.preempts. rewrite Hov. apply andb_false_r.
  - unfold hasOverride in *. rewrite ReconcilerProofs.tick_override by exact Hen.
    rewrite Hup. exact Hov.
Qed.

(** Scenario 4 continued.  The operator switches the channel to LOOP while
    the primary publishes; the primary's encoder drops and reconnects between
    two ticks, so SRS posts on_unpublish and on_publish; the next tick runs. *)
Definition afterSwitch : Controller * DB * Response := switchToLoop 10 1 onPrimary store.

Definition afterDrop : Controller * DB * Response :=
  OnUnpublishHandler 20 (publishBody "alpha-obs" "primary-secret")
    (fst (fst afterSwitch)) (snd (fst afterSwitch)).

Definition afterPublish : Controller * DB * Response * list Call :=
  OnPublishHandler 21 (publishBody "alpha-obs" "primary-secret")
    (fst (fst afterDrop)) (snd (fst afterDrop)).

Definition afterTick : Controller * list Call :=
  Reconcile 22 ReconcilerProofs.primaryLive (snd (fst (fst afterPublish)))
    (fst (fst (fst afterPublish))).

(** C2 fails on this run: the override is set by the switch and never
    cleared, the source is LOOP up to the tick, and the tick moves it to OBS
    with the override still set. *)
Lemma override_does_not_stop_store_sync :
  manualLoopOverride (fst (fst afterSwitch)) !! "alpha" = Some true
  /\ activeSourceMap (fst (fst afterSwitch)) !! "alpha" = Some "LOOP"
  /\ manualLoopOverride (fst (fst afterDrop)) !! "alpha" = Some true
  /\ snd (fst afterPublish) = {| status := 200; body := "0" |}
  /\ manualLoopOverride (fst (fst (fst afterPublish))) !! "alpha" = Some true
  /\ activeSourceMap (fst (fst (fst afterPublish))) !! "alpha" = Some "LOOP"
  /\ map current_active_source (channels (snd (fst (fst afterPublish)))) = ["OBS"]
  /\ manualLoopOverride (fst afterTick) !! "alpha" = Some true
  /\ activeSourceMap (fst afterTick) !! "alpha" = Some "OBS".
Proof. vm_compute. repeat split; reflexivity. Qed.

(** The same through the takeover endpoint instead of the publish hook. *)
Definition afterTakeover : Controller * DB * Response * list Call :=
  TakeoverHandler 20 "POST" "/api/takeover/alpha" "10.0.0.9"
    (fst (fst afterSwitch)) (snd (fst afterSwitch)).

Lemma override_does_not_stop_takeover_sync :
  manualLoopOverride (fst (fst (fst afterTakeover))) !! "alpha" = Some true
  /\ activeSourceMap
       (fst (Reconcile 22 ReconcilerProofs.primaryLive (snd (fst (fst afterTakeover)))
               (fst (fst (fst afterTakeover))))) !! "alpha" = Some "OBS"
  /\ manualLoopOverride
       (fst (Reconcile 22 ReconcilerProofs.primaryLive (snd (fst (fst afterTakeover)))
               (fst (fst (fst afterTakeover))))) !! "alpha" = Some true.
Proof. vm_compute. repeat split; reflexivity. Qed.

End HookProofs.

(** ** The relay's distributors and its control endpoint *)

Module RelayProofs.
Import Relay.

(** *** [manageDistributors] *)

Lemma dropStale_keep (S : gset string) (s : State) (l : list (string * option nat))
    (acc : gmap string (option nat) * gmap string Z * list Effect) (k : string) :
  k ∈ S \/ ~ In k (map fst l) ->
  fst (fst (fold_left (dropStale S s) l acc)) !! k = fst (fst acc) !! k
  /\ snd (fst (fold_left (dropStale S s) l acc)) !! k = snd (fst acc) !! k.
Proof.
  revert acc. induction l as [|[k0 p0] l IH]; intros acc Hk; [split; reflexivity|].
  cbn [fold_left]. destruct (IH (dropStale S s acc (k0, p0))) as [-> ->].
  { destruct Hk as [Hk|Hk]; [left; exact Hk | right; intros Hin; apply Hk; right; exact Hin]. }
  unfold dropStale. cbn [fst snd]. destruct (decide (k0 ∈ S)) as [Hin|Hout]; [split; reflexivity|].
  cbn [fst snd]. assert (k0 <> k) as Hne.
  { intros ->. destruct Hk as [Hk|Hk]; [contradiction | apply Hk; left; reflexivity]. }
  rewrite !lookup_delete_ne by exact Hne. split; reflexivity.
Qed.

Lemma dropStale_none (S : gset string) (s : State) (l : list (string * option nat))
    (acc : gmap string (option nat) * gmap string Z * list Effect) (k : string) :
  (fst (fst acc) !! k = None -> fst (fst (fold_left (dropStale S s) l acc)) !! k = None)
  /\ (snd (fst acc) !! k = None -> snd (fst (fold_left (dropStale S s) l acc)) !! k = None).
Proof.
  revert acc. induction l as [|[k0 p0] l IH]; intros acc; [split; auto|].
  cbn [fold_left]. destruct (IH (dropStale S s acc (k0, p0))) as [IH1 IH2].
  unfold dropStale in IH1, IH2 |- *. cbn [fst snd] in *.
  destruct (decide (k0 ∈ S)); [split; assumption|]. cbn [fst snd] in *.
  split; intros Hnone; [apply IH1 | apply IH2];
    (destruct (decide (k0 = k)) as [->|Hne];
     [apply lookup_delete_eq | rewrite lookup_delete_ne by exact Hne; exact Hnone]).
Qed.

Lemma dropStale_drop (S : gset string) (s : State) (l : list (string * option nat))
    (acc : gmap string (option nat) * gmap string Z * list Effect) (k : string) :
  k ∉ S -> In k (map fst l) ->
  fst (fst (fold_left (dropStale S s) l acc)) !! k = None
  /\ snd (fst (fold_left (dropStale S s) l acc)) !! k = None.
Proof.
  intros Hout. revert acc. induction l as [|[k0 p0] l IH]; intros acc Hin; [destruct Hin|].
  cbn [fold_left]. destruct Hin as [Heq|Hin]; [|apply IH; exact Hin].
  cbn [fst] in Heq. subst k0.
  destruct (dropStale_none S s l (dropStale S s acc (k, p0)) k) as [H1 H2].
  unfold dropStale in H1, H2 |- *. cbn [fst snd] in *.
  destruct (decide (k ∈ S)); [contradiction|]. cbn [fst snd] in *.
  split; [apply H1 | apply H2]; apply lookup_delete_eq.
Qed.

Lemma dropStale_effects_grow (S : gset string) (s : State) (l : list (string * option nat))
    (acc : gmap string (option nat) * gmap string Z * list Effect) (e : Effect) :
  In e (snd acc) -> In e (snd (fold_left (dropStale S s) l acc)).
Proof.
  revert acc. induction l as [|[k0 p0] l IH]; intros acc Hin; [exact Hin|].
  cbn [fold_left]. apply IH. unfold dropStale. cbn [fst snd].
  destruct (decide (k0 ∈ S)); [exact Hin|]. cbn [snd]. apply in_or_app. left. exact Hin.
Qed.

Lemma dropStale_kills (S : gset string) (s : State) (l : list (string * option nat))
    (acc : gmap string (option nat) * gmap string Z * list Effect)
    (k : string) (p : option nat) (pid : Z) :
  k ∉ S -> In (k, p) l -> processOf s p = Some pid ->
  In (Kill (- pid) "SIGTERM") (snd (fold_left (dropStale S s) l acc)).
Proof.
  intros Hout. revert acc. induction l as [|[k0 p0] l IH]; intros acc Hin Hpid; [destruct Hin|].
  cbn [fold_left]. destruct Hin as [[= -> ->]|Hin]; [|apply IH; assumption].
  apply dropStale_effects_grow. unfold dropStale. cbn [fst snd].
  destruct (decide (k ∈ S)); [contradiction|]. cbn [snd]. rewrite Hpid.
  apply in_or_app. right. left. reflexivity.
Qed.

Lemma dropStale_noop (S : gset string) (s : State) (l : list (string * option nat))
    (acc : gmap string (option nat) * gmap string Z * list Effect) :
  (forall kv, In kv l -> fst kv ∈ S) -> fold_left (dropStale S s) l acc = acc.
Proof.
  revert acc. induction l as [|kv l IH]; intros acc Hall; [reflexivity|].
  cbn [fold_left]. unfold dropStale at 2.
  destruct (decide (fst kv ∈ S)) as [_|Hout]; [|exfalso; apply Hout, Hall; left; reflexivity].
  apply IH. intros kv' Hin. apply Hall. right. exact Hin.
Qed.

Lemma addMissing_lookup (l : list string) (acc : gmap string (option nat) * list Effect)
    (k : string) :
  (is_Some (fst acc !! k) -> fst (fold_left addMissing l acc) !! k = fst acc !! k)
  /\ (In k l -> is_Some (fst (fold_left addMissing l acc) !! k))
  /\ (~ In k l -> fst (fold_left addMissing l acc) !! k = fst acc !! k).
Proof.
  revert acc. induction l as [|u l IH]; intros acc.
  - cbn. repeat split; auto. intros [].
  - cbn [fold_left]. destruct (IH (addMissing acc u)) as (IHsome & IHin & IHout).
    assert (Hstep : forall k', is_Some (fst acc !! k') ->
                     fst (addMissing acc u) !! k' = fst acc !! k').
    { intros k' Hs. unfold addMissing. destruct (fst acc !! u) eqn:Hu; [reflexivity|].
      cbn [fst]. rewrite lookup_insert_ne; [reflexivity|]. intros ->. rewrite Hu in Hs.
      destruct Hs as [? [=]]. }
    repeat split.
    + intros Hs. rewrite IHsome; [apply Hstep; exact Hs|]. rewrite Hstep; exact Hs.
    + intros [->|Hin]; [|apply IHin; exact Hin].
      assert (Hnow : is_Some (fst (addMissing acc k) !! k)).
      { unfold addMissing. destruct (fst acc !! k) eqn:Hk; [rewrite Hk; eauto|].
        cbn [fst]. rewrite lookup_insert_eq. eauto. }
      rewrite IHsome; exact Hnow.
    + intros Hout. rewrite IHout by (intros Hin; apply Hout; right; exact Hin).
      unfold addMissing. destruct (fst acc !! u) eqn:Hu; [reflexivity|].
      cbn [fst]. rewrite lookup_insert_ne; [reflexivity|].
      intros ->. apply Hout. left. reflexivity.
Qed.

Lemma addMissing_noop (l : list string) (acc : gmap string (option nat) * list Effect) :
  (forall k, In k l -> is_Some (fst acc !! k)) -> fold_left addMissing l acc = acc.
Proof.
  revert acc. induction l as [|u l IH]; intros acc Hall; [reflexivity|].
  cbn [fold_left]. unfold addMissing at 2.
  destruct (Hall u ltac:(left; reflexivity)) as [v ->]. apply IH.
  intros k Hin. apply Hall. right. exact Hin.
Qed.

Lemma In_map_to_list (m : gmap string (option nat)) (k : string) (v : option nat) :
  In (k, v) (map_to_list m) <-> m !! k = Some v.
Proof. rewrite <- list_elem_of_In. apply elem_of_map_to_list. Qed.

Lemma In_keys (m : gmap string (option nat)) (k : string) :
  In k (map fst (map_to_list m)) <-> is_Some (m !! k).
Proof.
  rewrite in_map_iff. split.
  - intros ([k' v] & Hk & Hin). cbn in Hk. subst k'. apply In_map_to_list in Hin. eauto.
  - intros [v Hv]. exists (k, v). split; [reflexivity | apply In_map_to_list; exact Hv].
Qed.

Lemma In_newDestSet (destinations : list string) (k : string) :
  k ∈ (list_to_set destinations : gset string) <-> In k destinations.
Proof. rewrite elem_of_list_to_set. apply list_elem_of_In. Qed.

(** After [manageDistributors] the map has exactly the new destinations. *)
Lemma manageDistributors_keys (destinations : list string) (s : State) (k : string) :
  is_Some (distributors (fst (manageDistributors destinations s)) !! k) <-> In k destinations.
Proof.
  unfold manageDistributors. cbn [fst distributors set_failureCounts set_distributors].
  match goal with
  | |- context [fold_left addMissing ?l ?acc] =>
      destruct (addMissing_lookup l acc k) as (_ & Hin & Hout)
  end.
  split; [|exact Hin].
  intros Hs. destruct (in_dec string_dec k destinations) as [Hyes|Hno]; [exact Hyes|].
  exfalso. rewrite (Hout Hno) in Hs. cbn [fst] in Hs.
  assert (Hset : k ∉ (list_to_set destinations : gset string))
    by (rewrite In_newDestSet; exact Hno).
  destruct (is_Some_dec (distributors s !! k)) as [Hsome|Hnone].
  - apply In_keys in Hsome.
    match type of Hs with
    | is_Some (fst (fst (fold_left (dropStale ?S ?s0) ?l ?acc)) !! k) =>
        destruct (dropStale_drop S s0 l acc k Hset Hsome) as [Hd _]
    end.
    rewrite Hd in Hs. destruct Hs as [? [=]].
  - match type of Hs with
    | is_Some (fst (fst (fold_left (dropStale ?S ?s0) ?l ?acc)) !! k) =>
        destruct (dropStale_none S s0 l acc k) as [Hd _]
    end.
    cbn [fst] in Hd. rewrite Hd in Hs; [destruct Hs as [? [=]]|].
    destruct (distributors s !! k) eqn:Hk; [exfalso; apply Hnone; eauto | reflexivity].
Qed.

(** It writes the two maps and nothing else. *)
Lemma manageDistributors_frame (destinations : list string) (s : State) :
  let s' := fst (manageDistributors destinations s) in
  currentConfig s' = currentConfig s /\ currentMode s' = currentMode s
  /\ loopCmd s' = loopCmd s /\ obsCmd s' = obsCmd s /\ transcoderCmd s' = transcoderCmd s
  /\ heap s' = heap s /\ nextPid s' = nextPid s.
Proof. cbn. repeat split. Qed.

(** A destination that is in the map and not in the new list leaves the map
    and loses its failure counter; its process group, if it has a process, is
    sent SIGTERM. *)
Lemma manageDistributors_removes (destinations : list string) (s : State) (k : string) :
  ~ In k destinations ->
  is_Some (distributors s !! k) ->
  distributors (fst (manageDistributors destinations s)) !! k = None
  /\ failureCounts (fst (manageDistributors destinations s)) !! k = None
  /\ forall p pid, distributors s !! k = Some p -> processOf s p = Some pid ->
       In (Kill (- pid) "SIGTERM") (snd (manageDistributors destinations s)).
Proof.
  intros Hno Hsome.
  assert (Hset : k ∉ (list_to_set destinations : gset string))
    by (rewrite In_newDestSet; exact Hno).
  split; [|split].
  - destruct (distributors (fst (manageDistributors destinations s)) !! k) eqn:Hk;
      [|reflexivity].
    exfalso. apply Hno. apply (manageDistributors_keys destinations s k). rewrite Hk. eauto.
  - unfold manageDistributors. cbn [fst failureCounts set_failureCounts].
    apply dropStale_drop; [exact Hset | apply In_keys; exact Hsome].
  - intros p pid Hp Hpid. unfold manageDistributors. cbn [snd].
    apply in_or_app. left.
    eapply dropStale_kills; [exact Hset | apply In_map_to_list; exact Hp | exact Hpid].
Qed.

(** Every other destination keeps its failure counter. *)
Lemma manageDistributors_keeps_counter (destinations : list string) (s : State) (k : string) :
  In k destinations ->
  failureCounts (fst (manageDistributors destinations s)) !! k = failureCounts s !! k.
Proof.
  intros Hin. unfold manageDistributors. cbn [fst failureCounts set_failureCounts].
  match goal with
  | |- snd (fst (fold_left (dropStale ?S ?s0) ?l ?acc)) !! k = _ =>
      destruct (dropStale_keep S s0 l acc k) as [_ ->]; [|reflexivity]
  end.
  left. apply In_newDestSet. exact Hin.
Qed.

Lemma manageDistributors_idempotent (destinations : list string) (s : State) :
  manageDistributors destinations (fst (manageDistributors destinations s))
  = (fst (manageDistributors destinations s), []).
Proof.
  pose proof (manageDistributors_keys destinations s) as Hkeys.
  remember (fst (manageDistributors destinations s)) as s1 eqn:Hs1.
  unfold manageDistributors at 1.
  rewrite dropStale_noop.
  - cbn [fst snd]. rewrite addMissing_noop.
    + cbn [fst snd app]. f_equal. destruct s1. reflexivity.
    + intros k Hin. cbn [fst]. apply Hkeys. exact Hin.
  - intros [k v] Hin. cbn [fst]. apply In_newDestSet. apply Hkeys.
    apply In_map_to_list in Hin. rewrite Hin. eauto.
Qed.

(** *** [handleConfigChange] and [handleUpdate] *)

Section WithProcesses.

Variable startOK : list string -> bool.

(** The transcoder needs no start: it runs, or its object still has the
    process it was started with. *)
Definition transcoderSettled (s : State) : Prop :=
  isRunning s (transcoderCmd s) = true \/ is_Some (processOf s (transcoderCmd s)).

Lemma ensureTranscoder_settled (s : State) :
  transcoderSettled s -> ensureTranscoder startOK s = (s, []).
Proof.
  intros [Hrun|[pid Hpid]]; unfold ensureTranscoder.
  - rewrite Hrun. reflexivity.
  - destruct (negb _); [|reflexivity]. unfold startTranscoderProcess, spawnTranscoder. rewrite Hpid. reflexivity.
Qed.

Lemma ensureTranscoder_settles (s : State) :
  transcoderSettled (fst (ensureTranscoder startOK s)).
Proof.
  unfold ensureTranscoder. destruct (isRunning s (transcoderCmd s)) eqn:Hrun; cbn [negb].
  - left. exact Hrun.
  - unfold startTranscoderProcess, spawnTranscoder. destruct (processOf s (transcoderCmd s)) as [pid|] eqn:Hpid.
    + right. cbn [fst]. rewrite Hpid. eauto.
    + left. cbn [fst startCmd transcoderCmd]. unfold isRunning, deref. cbn [heap].
      rewrite list_lookup_middle by reflexivity. reflexivity.
Qed.

Lemma ensureTranscoder_frame (s : State) :
  let s' := fst (ensureTranscoder startOK s) in
  currentConfig s' = currentConfig s /\ currentMode s' = currentMode s
  /\ loopCmd s' = loopCmd s /\ obsCmd s' = obsCmd s
  /\ distributors s' = distributors s /\ failureCounts s' = failureCounts s.
Proof.
  unfold ensureTranscoder, startTranscoderProcess, spawnTranscoder.
  destruct (negb _); [|repeat split].
  destruct (processOf s (transcoderCmd s)); repeat split.
Qed.

Lemma applySource_frame (changed : bool) (oldSrc : string) (cfg : Config) (s : State) :
  let s' := fst (applySource changed oldSrc cfg s) in
  currentConfig s' = currentConfig s /\ loopCmd s' = loopCmd s /\ obsCmd s' = obsCmd s
  /\ transcoderCmd s' = transcoderCmd s /\ heap s' = heap s /\ nextPid s' = nextPid s
  /\ distributors s' = distributors s /\ failureCounts s' = failureCounts s.
Proof.
  unfold applySource. destruct changed; [|repeat split].
  destruct (String.eqb _ loopStream); repeat split.
Qed.

Lemma handleConfigChange_config (cfg : Config) (s : State) :
  currentConfig (fst (handleConfigChange startOK cfg s)) = cfg.
Proof.
  unfold handleConfigChange. cbn [fst].
  destruct (manageDistributors_frame (Destinations cfg)
              (fst (ensureTranscoder startOK
                 (fst (applySource
                    (negb (String.eqb (SourceURL cfg) (SourceURL (currentConfig s))))
                    (SourceURL (currentConfig s)) cfg (set_currentConfig cfg s))))))
    as (-> & _).
  destruct (ensureTranscoder_frame
              (fst (applySource
                 (negb (String.eqb (SourceURL cfg) (SourceURL (currentConfig s))))
                 (SourceURL (currentConfig s)) cfg (set_currentConfig cfg s))))
    as (-> & _).
  destruct (applySource_frame
              (negb (String.eqb (SourceURL cfg) (SourceURL (currentConfig s))))
              (SourceURL (currentConfig s)) cfg (set_currentConfig cfg s))
    as (-> & _).
  reflexivity.
Qed.

Lemma handleConfigChange_settled (cfg : Config) (s : State) :
  transcoderSettled (fst (handleConfigChange startOK cfg s)).
Proof.
  unfold handleConfigChange. cbn [fst].
  match goal with
  | |- transcoderSettled (fst (manageDistributors ?d ?s2)) =>
      pose proof (ensureTranscoder_settles
                    (fst (applySource
                       (negb (String.eqb (SourceURL cfg) (SourceURL (currentConfig s))))
                       (SourceURL (currentConfig s)) cfg (set_currentConfig cfg s)))) as Hs;
      destruct (manageDistributors_frame d s2) as (_ & _ & _ & _ & Ht & Hh & _)
  end.
  unfold transcoderSettled, isRunning, processOf, deref in *. rewrite Ht, Hh. exact Hs.
Qed.

Lemma set_currentConfig_same (s : State) : set_currentConfig (currentConfig s) s = s.
Proof. destruct s. reflexivity. Qed.

(** Applying the configuration the relay already has, right after it was
    applied, changes no variable and has no effect. *)
Lemma handleConfigChange_idempotent (cfg : Config) (s : State) :
  handleConfigChange startOK cfg (fst (handleConfigChange startOK cfg s))
  = (fst (handleConfigChange startOK cfg s), []).
Proof.
  pose proof (handleConfigChange_config cfg s) as Hcfg.
  pose proof (handleConfigChange_settled cfg s) as Hset.
  assert (Hdist : exists s2, fst (handleConfigChange startOK cfg s)
                             = fst (manageDistributors (Destinations cfg) s2))
    by (eexists; reflexivity).
  destruct Hdist as [s2 Hdist].
  remember (fst (handleConfigChange startOK cfg s)) as s1 eqn:Hs1.
  assert (Hsame : set_currentConfig cfg s1 = s1).
  { rewrite <- Hcfg. apply set_currentConfig_same. }
  unfold handleConfigChange. rewrite Hcfg, String.eqb_refl, Hsame. cbn [negb].
  unfold applySource. cbn [fst snd].
  rewrite (ensureTranscoder_settled s1 Hset). cbn [fst snd app].
  rewrite Hdist, manageDistributors_idempotent. reflexivity.
Qed.

(** C6: a second POST /update with the payload of the first, with nothing in
    between, leaves every variable of the relay as the first left it (the mode
    flag, the pump, transcoder and distributor commands, the failure counters,
    the process heap), has no effect at all (no signal, no process or
    goroutine started, no log line), answers as the first did, and GET /status
    is the same before and after it. *)
Theorem update_idempotent (req : JSON.Body) (s : State) :
  let first := handleUpdate startOK "POST" req s in
  let second := handleUpdate startOK "POST" req (fst (fst first)) in
  fst (fst second) = fst (fst first)
  /\ snd (fst second) = []
  /\ snd second = snd first
  /\ currentMode (fst (fst second)) = currentMode (fst (fst first))
  /\ loopCmd (fst (fst second)) = loopCmd (fst (fst first))
  /\ obsCmd (fst (fst second)) = obsCmd (fst (fst first))
  /\ transcoderCmd (fst (fst second)) = transcoderCmd (fst (fst first))
  /\ distributors (fst (fst second)) = distributors (fst (fst first))
  /\ handleStatus (fst (fst second)) = handleStatus (fst (fst first)).
Proof.
  intros first second. subst first second. unfold handleUpdate. cbn [String.eqb Ascii.eqb Bool.eqb negb fst snd].
  rewrite handleConfigChange_idempotent. cbn [fst snd]. repeat split.
Qed.

(** *** Decoding the body of POST /update *)

(** A key that is not [source_url] leaves the source URL as it is. *)
Lemma storeConfigField_other_key (acc : Config * bool) (kv : string * JSON.Value) :
  JSON.keyIs "source_url" (fst kv) = false ->
  SourceURL (fst (storeConfigField acc kv)) = SourceURL (fst acc).
Proof.
  intros Hkey. unfold storeConfigField. rewrite Hkey.
  repeat (match goal with |- context [if ?b then _ else _] => destruct b end);
    reflexivity.
Qed.

Lemma storeConfigFields_other_keys (fields : list (string * JSON.Value)) :
  forall acc : Config * bool,
    Forall (fun kv => JSON.keyIs "source_url" (fst kv) = false) fields ->
    SourceURL (fst (fold_left storeConfigField fields acc)) = SourceURL (fst acc).
Proof.
  induction fields as [|kv rest IH]; intros acc Hall; [reflexivity|].
  inversion Hall as [|? ? Hkv Hrest]; subst. cbn [fold_left].
  rewrite (IH _ Hrest). apply storeConfigField_other_key. exact Hkv.
Qed.

(** C9, as far as it holds: every POST to /update is answered 200 and the
    configuration left in [newConfig] by the decoder is applied whether or
    not the decoder reported an error.  The decoder reads the first JSON value
    of the body and nothing after it, so the answer and the change are those
    of that value alone.  When the body does not begin with a complete JSON
    value, or begins with one that is neither an object nor null, the decoder
    fails and the zero value (empty source URL, no destination) is applied;
    null gives the zero value without an error.  When the body begins with an
    object, the fields of the object are applied, with or without an error of
    the decoder and whatever follows the object: a [source_url] that is a
    string is applied even when another field has the wrong type. *)
Theorem update_always_ok (req : JSON.Body) (s : State) :
  status (snd (handleUpdate startOK "POST" req s)) = 200
  /\ fst (handleUpdate startOK "POST" req s)
     = handleConfigChange startOK (fst (decodeConfig req)) s
  /\ currentConfig (fst (fst (handleUpdate startOK "POST" req s))) = fst (decodeConfig req)
  /\ (forall req', JSON.scanned req' = JSON.scanned req ->
        handleUpdate startOK "POST" req' s = handleUpdate startOK "POST" req s)
  /\ (JSON.scanned req = None ->
        decodeConfig req = (zeroConfig, true)
        /\ fst (handleUpdate startOK "POST" req s) = handleConfigChange startOK zeroConfig s
        /\ SourceURL (currentConfig (fst (fst (handleUpdate startOK "POST" req s)))) = ""
        /\ Destinations (currentConfig (fst (fst (handleUpdate startOK "POST" req s)))) = [])
  /\ (forall v, JSON.scanned req = Some v -> (forall fields, v <> JSON.Object fields) ->
        fst (decodeConfig req) = zeroConfig
        /\ (snd (decodeConfig req) = false <-> v = JSON.Null)
        /\ fst (handleUpdate startOK "POST" req s) = handleConfigChange startOK zeroConfig s)
  /\ (forall fields, JSON.scanned req = Some (JSON.Object fields) ->
        decodeConfig req = fold_left storeConfigField fields (zeroConfig, false))
  /\ (forall url rest,
        JSON.scanned req = Some (JSON.Object (("source_url", JSON.Str url) :: rest)) ->
        Forall (fun kv => JSON.keyIs "source_url" (fst kv) = false) rest ->
        SourceURL (currentConfig (fst (fst (handleUpdate startOK "POST" req s)))) = url).
Proof.
  unfold handleUpdate. cbn [String.eqb Ascii.eqb Bool.eqb negb fst snd status].
  split; [reflexivity|]. split; [reflexivity|].
  split; [apply handleConfigChange_config|].
  split; [intros req' Hsame; unfold decodeConfig; rewrite Hsame; reflexivity|].
  split; [|split; [|split]].
  - intros Hbad. unfold decodeConfig. rewrite Hbad. cbn [fst].
    rewrite handleConfigChange_config. repeat split.
  - intros v Hv Hno. unfold decodeConfig. rewrite Hv.
    destruct v as [| b | n | str | elems | fields]; cbn [fst snd];
      try (split; [reflexivity|]; split; [split; [discriminate | discriminate] | reflexivity]).
    + split; [reflexivity|]. split; [split; reflexivity | reflexivity].
    + exfalso. exact (Hno fields eq_refl).
  - intros fields Hv. unfold decodeConfig. rewrite Hv. reflexivity.
  - intros url rest Hv Hrest. rewrite handleConfigChange_config.
    unfold decodeConfig. rewrite Hv. cbn [fold_left].
    rewrite (storeConfigFields_other_keys rest _ Hrest). reflexivity.
Qed.

End WithProcesses.

(** A well-formed body whose [video_bitrate] is a string: [Decode] reports
    the type error, and [source_url], read before it, is stored. *)
Definition mistyped : JSON.Body :=
  {| JSON.raw := "source_url and a video_bitrate that is a string";
     JSON.scanned := Some (JSON.Object
       [ ("source_url", JSON.Str "rtmp://srs:1935/live/alpha-obs");
         ("video_bitrate", JSON.Str "high") ]);
     JSON.trailing := false |}.

(** C9 as stated fails here: the body fails to decode and is not processed
    as the zero-value configuration. *)
Lemma failed_decode_is_not_zero_config :
  snd (decodeConfig mistyped) = true
  /\ status (snd (handleUpdate (fun _ => true) "POST" mistyped initialState)) = 200
  /\ SourceURL (currentConfig (fst (fst (handleUpdate (fun _ => true) "POST" mistyped
                                          initialState))))
     = "rtmp://srs:1935/live/alpha-obs"
  /\ fst (handleUpdate (fun _ => true) "POST" mistyped initialState)
     <> handleConfigChange (fun _ => true) zeroConfig initialState.
Proof.
  split; [vm_compute; reflexivity|]. split; [vm_compute; reflexivity|].
  split; [vm_compute; reflexivity|].
  intros Heq. apply (f_equal (fun r => SourceURL (currentConfig (fst r)))) in Heq.
  vm_compute in Heq. discriminate.
Qed.

Definition garbage : JSON.Body :=
  {| JSON.raw := "not json"; JSON.scanned := None; JSON.trailing := false |}.

(** An object followed by bytes that are no JSON: the body as a whole is not
    valid JSON, and the decoder stops at the end of the object. *)
Definition followed : JSON.Body :=
  {| JSON.raw := "an object with source_url, then bytes that are no JSON";
     JSON.scanned := Some (JSON.Object
       [ ("source_url", JSON.Str "rtmp://srs:1935/live/alpha-obs") ]);
     JSON.trailing := true |}.

Lemma update_always_ok_witness :
  fst (handleUpdate (fun _ => true) "POST" garbage initialState)
  = handleConfigChange (fun _ => true) zeroConfig initialState
  /\ SourceURL (currentConfig (fst (fst (handleUpdate (fun _ => true) "POST" followed
                                          initialState))))
     = "rtmp://srs:1935/live/alpha-obs"
  /\ snd (decodeConfig followed) = false.
Proof.
  split; [|split; [|reflexivity]].
  - exact (proj1 (proj2 (proj1 (proj2 (proj2 (proj2 (proj2
             (update_always_ok (fun _ => true) garbage initialState))))) eq_refl))).
  - exact (proj2 (proj2 (proj2 (proj2 (proj2 (proj2 (proj2
             (update_always_ok (fun _ => true) followed initialState)))))))
             "rtmp://srs:1935/live/alpha-obs" [] eq_refl (List.Forall_nil _)).
Defined.

(** *** The back-off of one distributor *)

Lemma wrap64_small (x : Z) :
  -9223372036854775808 <= x < 9223372036854775808 -> wrap64 x = x.
Proof. intros H. unfold wrap64, Controller.wrap64. rewrite Z.mod_small; lia. Qed.

Lemma retryDelay_small (n : Z) : 0 <= n <= 4611686018 -> retryDelay n = n * 2 * Second.
Proof.
  intros H. unfold retryDelay, Second.
  rewrite (wrap64_small (n * 2)) by lia. apply wrap64_small. lia.
Qed.

Section Backoff.

Variable startOK : list string -> bool.
Variable destURL : string.

Lemma distributorLaunch_sleeps (s : State) :
  0 < failsOf s destURL <= 4611686018 ->
  exists rest,
    snd (distributorLaunch startOK destURL s) = Sleep (failsOf s destURL * 2 * Second) :: rest
    /\ (startOK (distributorArgs destURL) = true ->
        rest = [Start (distributorArgs destURL) (nextPid s)])
    /\ (startOK (distributorArgs destURL) = false -> rest = [Go (Distributor destURL)]).
Proof.
  intros Hn. unfold distributorLaunch, startCmd.
  destruct (0 <? failsOf s destURL) eqn:Hpos; [|apply Z.ltb_ge in Hpos; lia].
  rewrite retryDelay_small by lia.
  destruct (startOK (distributorArgs destURL)); cbn [snd app]; eexists;
    (split; [reflexivity|]); split; intros; try discriminate; reflexivity.
Qed.

Lemma distributorLaunch_first (s : State) :
  failsOf s destURL = 0 -> startOK (distributorArgs destURL) = true ->
  snd (distributorLaunch startOK destURL s) = [Start (distributorArgs destURL) (nextPid s)].
Proof.
  intros Hz Hok. unfold distributorLaunch, startCmd. rewrite Hz, Hok. reflexivity.
Qed.

Lemma distributorLaunch_started (s : State) :
  startOK (distributorArgs destURL) = true ->
  exists cmd,
    snd (fst (distributorLaunch startOK destURL s)) = Some cmd
    /\ failureCounts (fst (fst (distributorLaunch startOK destURL s))) = failureCounts s
    /\ currentConfig (fst (fst (distributorLaunch startOK destURL s))) = currentConfig s
    /\ distributors (fst (fst (distributorLaunch startOK destURL s))) !! destURL
       = Some (Some cmd).
Proof.
  intros Hok. unfold distributorLaunch, startCmd. rewrite Hok. cbn.
  eexists. repeat split. apply lookup_insert_eq.
Qed.

Lemma distributorExit_counter (cmd : nat) (elapsed : Z) (s : State) :
  failsOf (fst (distributorExit destURL cmd elapsed s)) destURL
  = (if 60 * Second <? elapsed then 0 else wrap64 (failsOf s destURL + 1))
  /\ currentConfig (fst (distributorExit destURL cmd elapsed s)) = currentConfig s.
Proof.
  unfold distributorExit, failsOf.
  destruct (60 * Second <? elapsed); cbn [currentConfig set_failureCounts markExited];
    destruct (bool_decide _); cbn [fst failureCounts set_failureCounts set_distributors];
    rewrite lookup_insert_eq; split; reflexivity.
Qed.

(** One fast failure of a destination that is still configured: the
    goroutine counts it, starts the next goroutine through [startDistributor],
    and that one sleeps two seconds per counted failure before its start. *)
Lemma fast_failure_retries (cmd : nat) (elapsed n : Z) (s : State) :
  In destURL (Destinations (currentConfig s)) ->
  failsOf s destURL = n -> 0 <= n < 4611686018 -> elapsed <= 60 * Second ->
  let exited := distributorExit destURL cmd elapsed s in
  snd exited = [Go (Distributor destURL)]
  /\ failsOf (fst exited) destURL = n + 1
  /\ exists rest,
       snd (distributorLaunch startOK destURL (fst exited))
       = Sleep ((n + 1) * 2 * Second) :: rest.
Proof.
  intros Hin Hn Hrange Hfast exited.
  destruct (distributorExit_counter cmd elapsed s) as [Hcount _]. fold exited in Hcount.
  destruct (60 * Second <? elapsed) eqn:Hlong; [apply Z.ltb_lt in Hlong; lia|].
  rewrite Hn, wrap64_small in Hcount by lia.
  split; [|split; [exact Hcount|]].
  - subst exited. unfold distributorExit. rewrite Hlong.
    rewrite bool_decide_eq_true_2; [reflexivity|].
    cbn [currentConfig set_failureCounts markExited]. apply list_elem_of_In. exact Hin.
  - destruct (distributorLaunch_sleeps (fst exited) ltac:(lia)) as (rest & Hs & _).
    exists rest. rewrite Hcount in Hs. exact Hs.
Qed.

(** A run longer than 60 s resets the counter. *)
Lemma stable_run_resets (cmd : nat) (elapsed : Z) (s : State) :
  60 * Second < elapsed -> failsOf (fst (distributorExit destURL cmd elapsed s)) destURL = 0.
Proof.
  intros Hlong. destruct (distributorExit_counter cmd elapsed s) as [-> _].
  destruct (60 * Second <? elapsed) eqn:Hb; [reflexivity | apply Z.ltb_ge in Hb; lia].
Qed.

(** The exit of a destination that is no longer configured is counted all
    the same: the goroutine writes the counter before it looks at the
    configuration, and the branch that drops the map entry leaves the counter. *)
Lemma removed_exit_is_counted (cmd : nat) (elapsed : Z) (s : State) :
  ~ In destURL (Destinations (currentConfig s)) ->
  failureCounts s !! destURL = None -> elapsed <= 60 * Second ->
  failureCounts (fst (distributorExit destURL cmd elapsed s)) !! destURL = Some 1
  /\ distributors (fst (distributorExit destURL cmd elapsed s)) !! destURL = None
  /\ snd (distributorExit destURL cmd elapsed s) = [].
Proof.
  intros Hout Hnone Hfast. unfold distributorExit.
  destruct (60 * Second <? elapsed) eqn:Hlong; [apply Z.ltb_lt in Hlong; lia|].
  rewrite bool_decide_eq_false_2.
  2:{ cbn [currentConfig set_failureCounts markExited]. intros Hin.
      apply Hout, list_elem_of_In. exact Hin. }
  cbn [fst snd failureCounts distributors set_distributors set_failureCounts markExited].
  unfold failsOf. cbn [failureCounts markExited]. rewrite Hnone. cbn [default from_option id].
  rewrite lookup_insert_eq, lookup_delete_eq. repeat split.
Qed.

End Backoff.

(** The product wraps past 4611686018 failures. *)
Example retryDelay_wraps : retryDelay 5 = 10 * Second /\ retryDelay 4611686019 < 0.
Proof. split; [reflexivity | vm_compute; reflexivity]. Qed.

(** A relay with one destination that has failed three times in a row. *)
Definition failing : State :=
  {| currentConfig := {| SourceURL := loopStream; Destinations := ["rtmp://dst/live/key"];
                         VideoBitrate := 4500; AudioBitrate := 128; KeyframeInterval := 2 |};
     currentMode := "LOOP"; loopCmd := Some 0%nat; obsCmd := None; transcoderCmd := Some 1%nat;
     distributors := {[ "rtmp://dst/live/key" := Some 2%nat ]};
     failureCounts := {[ "rtmp://dst/live/key" := 3 ]};
     heap := [ {| Args := loopPumpArgs; Setpgid := false; Process := Some 11;
                  ProcessState := false |};
               {| Args := transcoderArgs; Setpgid := true; Process := Some 12;
                  ProcessState := false |};
               {| Args := distributorArgs "rtmp://dst/live/key"; Setpgid := true;
                  Process := Some 13; ProcessState := false |} ];
     nextPid := 14 |}.

(** *** A destination that is removed *)

Definition dst : string := "rtmp://dst/live/key".

(** The bodies of two POST /update: the loop stream as source, with the
    destination and without it. *)
Definition updateBody (destinations : list string) : JSON.Body :=
  {| JSON.raw := "source_url and destinations";
     JSON.scanned := Some (JSON.Object
       [ ("source_url", JSON.Str loopStream);
         ("destinations", JSON.Array (map JSON.Str destinations)) ]);
     JSON.trailing := false |}.

Definition post (destinations : list string) (s : State) : State * list Effect :=
  fst (handleUpdate (fun _ => true) "POST" (updateBody destinations) s).

(** The relay once [main] has started the loop pump (command 0, pid 2);
    after its first update, which starts the transcoder (command 1, pid 3);
    and once the goroutine of the destination has started the distributor
    (command 2, pid 4). *)
Definition booted : State := fst (fst (loopPumpLaunch (fun _ => true) initialState)).
Definition updated : State := fst (post [dst] booted).
Definition distributing : State := fst (fst (distributorLaunch (fun _ => true) dst updated)).

(** The update that removes the destination; the exit of the killed process,
    five seconds after its start; the update that configures the destination
    again. *)
Definition removed : State := fst (post [] distributing).
Definition afterExit : State := fst (distributorExit dst 2 (5 * Second) removed).
Definition readded : State := fst (post [dst] afterExit).

(** The other order: the distributor fails within five seconds while the
    destination is configured, so a new goroutine is started for it; the
    update that removes the destination arrives before that goroutine runs. *)
Definition failedOnce : State := fst (distributorExit dst 2 (5 * Second) distributing).
Definition removedMeanwhile : State := fst (post [] failedOnce).
Definition lateStart : State * option nat * list Effect :=
  distributorLaunch (fun _ => true) dst removedMeanwhile.

(** C5, where the code departs from it.  The removal sends SIGTERM to the
    distributor's process group and deletes the map entry and the failure
    counter; but the goroutine of the removed destination counts the exit of
    the killed process, so the counter is back at 1 and the destination, once
    configured again, waits two seconds before its first start; and a
    goroutine started for the destination before the removal starts a
    distributor for it after the removal and puts it back into the map. *)
Theorem removed_destination_is_counted_again :
  distributors distributing !! dst = Some (Some 2%nat)
  /\ processOf distributing (Some 2%nat) = Some 4
  /\ failureCounts distributing !! dst = None
  /\ snd (post [] distributing) = [Kill (-4) "SIGTERM"]
  /\ distributors removed !! dst = None
  /\ failureCounts removed !! dst = None
  /\ failureCounts afterExit !! dst = Some 1
  /\ snd (post [dst] afterExit)
     = [LogLine ("[RELAY] Starting Dist: " +:+ dst); Go (Distributor dst)]
  /\ snd (distributorLaunch (fun _ => true) dst readded)
     = [Sleep (2 * Second); Start (distributorArgs dst) 5]
  /\ snd (distributorExit dst 2 (5 * Second) distributing) = [Go (Distributor dst)]
  /\ Destinations (currentConfig removedMeanwhile) = []
  /\ distributors removedMeanwhile !! dst = None
  /\ snd lateStart = [Start (distributorArgs dst) 5]
  /\ distributors (fst (fst lateStart)) !! dst = Some (Some 3%nat)
  /\ isRunning (fst (fst lateStart)) (Some 3%nat) = true.
Proof. vm_compute. repeat split. Qed.

End RelayProofs.

(** ** The log buffer (main.go:243-263, 1853-1877) *)

Module LogProofs.
Import Controller ReconcilerProofs.

Definition logBounded (c : Controller) : Prop := (List.length (LogBuffer c) <= 1000)%nat.

Lemma logBounded_Log now level component message c :
  logBounded c -> logBounded (Log now level component message c).
Proof.
  unfold logBounded, Log. cbn [LogBuffer]. intros Hb.
  destruct (1000 <? _)%nat eqn:Hlt.
  - destruct (LogBuffer c) as [|e rest]; cbn [app tl List.length] in *; [lia|].
    rewrite List.length_app in *. cbn [List.length] in *. lia.
  - apply Nat.ltb_ge in Hlt. exact Hlt.
Qed.

Lemma logBounded_same c c' : LogBuffer c' = LogBuffer c -> logBounded c -> logBounded c'.
Proof. unfold logBounded. intros ->. auto. Qed.

(** Every handler reaches its result by [Log] and by writes to the maps. *)
Ltac log_steps H :=
  repeat first
    [ exact H
    | apply logBounded_Log
    | eapply logBounded_same; [reflexivity|] ].

Lemma logBounded_tick now ch streams c :
  logBounded c -> logBounded (fst (ReconcileChannel now ch streams c)).
Proof.
  intros Hb. destruct (Enabled ch) eqn:Hen.
  - rewrite (ReconcilerProofs.ReconcileChannel_enabled now ch streams c Hen). cbn [fst].
    supervise_frame as (_ & _ & Hl & _).
    eapply logBounded_same; [exact Hl|].
    rewrite ReconcilerProofs.selectSource_unfold. unfold autoSwitch.
    assert (Hc : logBounded (fst (clearOverride ch (isObsRobust ch streams)
                       (syncFromStore ch (ReconcilerProofs.sampled ch streams c))))).
    { destruct (ReconcilerProofs.syncFromStore_sampled ch streams c) as (_ & _ & _ & Hs).
      eapply logBounded_same; [|exact Hb]. rewrite <- Hs.
      unfold clearOverride. destruct (_ && _); reflexivity. }
    destruct (autoSwitchFires _ _ _ _); cbn [fst]; log_steps Hc.
  - rewrite ReconcilerProofs.ReconcileChannel_disabled by exact Hen. exact Hb.
Qed.

Lemma logBounded_publish now req db c :
  logBounded c -> logBounded (fst (fst (fst (OnPublishHandler now req c db)))).
Proof.
  intros Hb. unfold OnPublishHandler.
  destruct (authenticate req db) as [| | | |payload streamName sourceType]; cbn [fst];
    try (log_steps Hb).
  destruct (String.eqb sourceType "OBS"); cbn [fst]; log_steps Hb.
Qed.

Lemma logBounded_unpublish now req db c :
  logBounded c -> logBounded (fst (fst (OnUnpublishHandler now req c db))).
Proof.
  intros Hb. unfold OnUnpublishHandler.
  destruct (unmarshalHook req) as [payload|]; [|exact Hb].
  destruct (queryAnyByName db _) as [r|]; [|exact Hb].
  destruct (String.eqb _ (obs_token r)); cbn [fst]; log_steps Hb.
Qed.

Lemma logBounded_takeover now method path addr db c :
  logBounded c -> logBounded (fst (fst (fst (TakeoverHandler now method path addr c db)))).
Proof.
  intros Hb. unfold TakeoverHandler.
  repeat (match goal with
          | |- context [if ?b then _ else _] => destruct b
          | |- context [match queryByName ?d ?n with _ => _ end] => destruct (queryByName d n)
          end; cbn [fst]; try (log_steps Hb)).
Qed.

Lemma logBounded_switchToLoop now id db c :
  logBounded c -> logBounded (fst (fst (switchToLoop now id c db))).
Proof.
  intros Hb. unfold switchToLoop. destruct (queryByID db id); cbn [fst]; log_steps Hb.
Qed.

Lemma logBounded_switchToOBS now id db c :
  logBounded c -> logBounded (fst (fst (switchToOBS now id c db))).
Proof.
  intros Hb. unfold switchToOBS. destruct (queryByID db id); cbn [fst]; log_steps Hb.
Qed.

Lemma reachable_logBounded cfg c : HealthProofs.reachable cfg c -> logBounded c.
Proof.
  induction 1.
  - unfold logBounded. cbn. lia.
  - exact IHreachable.
  - apply logBounded_Log. exact IHreachable.
  - apply logBounded_tick. exact IHreachable.
  - apply logBounded_publish. exact IHreachable.
  - apply logBounded_unpublish. exact IHreachable.
  - apply logBounded_takeover. exact IHreachable.
  - apply logBounded_switchToLoop. exact IHreachable.
  - apply logBounded_switchToOBS. exact IHreachable.
Qed.

(** X1: in every state the controller can reach, the log buffer holds at
    most 1000 entries, before and after a call of [Log]; the call puts the new
    entry, numbered one above the last id, at the end of the buffer and drops
    the oldest entry exactly when the buffer was full. *)
Theorem log_buffer_bounded_fifo (cfg : Config) (c : Controller)
    (now : Z) (level component message : string) :
  HealthProofs.reachable cfg c ->
  let c' := Log now level component message c in
  (List.length (LogBuffer c) <= 1000)%nat
  /\ (List.length (LogBuffer c') <= 1000)%nat
  /\ LogBuffer c'
     = (if decide (List.length (LogBuffer c) = 1000%nat) then tl (LogBuffer c) else LogBuffer c)
       ++ [ {| log_ID := wrap64 (logID c + 1); Timestamp := now; Level := level;
               Component := component; Message := message |} ]
  /\ logID c' = wrap64 (logID c + 1).
Proof.
  intros Hr c'. pose proof (reachable_logBounded cfg c Hr) as Hb.
  split; [exact Hb|]. split; [apply logBounded_Log; exact Hb|]. split; [|reflexivity].
  subst c'. unfold logBounded in Hb. unfold Log. cbn [LogBuffer].
  rewrite List.length_app. cbn [List.length].
  destruct (decide _) as [Hfull|Hroom].
  - destruct (1000 <? _)%nat eqn:Hlt; [|apply Nat.ltb_ge in Hlt; lia].
    destruct (LogBuffer c) as [|e rest]; [cbn in Hfull; lia | reflexivity].
  - destruct (1000 <? _)%nat eqn:Hlt; [apply Nat.ltb_lt in Hlt; lia | reflexivity].
Qed.

Lemma log_buffer_bounded_fifo_witness :
  map Message
      (LogBuffer (Log 2 "warn" "auth" "second"
                    (Log 1 "info" "controller" "first" (NewController 0 {| StabilityWindow := 3 |}))))
  = ["Controller initialized successfully"; "first"; "second"].
Proof.
  pose proof (log_buffer_bounded_fifo {| StabilityWindow := 3 |}
                (Log 1 "info" "controller" "first" (NewController 0 {| StabilityWindow := 3 |}))
                2 "warn" "auth" "second"
                ltac:(apply HealthProofs.reach_log; apply HealthProofs.reach_new)) as H.
  cbv zeta in H. rewrite (proj1 (proj2 (proj2 H))). reflexivity.
Defined.

(** What the loop of [LogsHandler] has kept when it stops. *)
Lemma scanLogs_spec (level : string) (limit : Z) (remaining filtered : list LogEntry) :
  Z.of_nat (List.length filtered) <= limit ->
  scanLogs level limit remaining filtered
  = filtered ++ firstn (Z.to_nat limit - List.length filtered)
                       (List.filter (logMatches level) remaining).
Proof.
  revert filtered. induction remaining as [|entry rest IH]; intros filtered Hlen.
  - cbn. rewrite List.firstn_nil, List.app_nil_r. reflexivity.
  - cbn [scanLogs List.filter].
    destruct (Z.of_nat (List.length filtered) <? limit) eqn:Hlt.
    + apply Z.ltb_lt in Hlt. destruct (logMatches level entry).
      * rewrite IH by (rewrite List.length_app; cbn [List.length]; lia).
        rewrite List.length_app. cbn [List.length].
        replace (Z.to_nat limit - List.length filtered)%nat
          with (S (Z.to_nat limit - (List.length filtered + 1)))%nat by lia.
        cbn [firstn]. rewrite <- List.app_assoc. reflexivity.
      * apply IH. exact Hlen.
    + apply Z.ltb_ge in Hlt.
      replace (Z.to_nat limit - List.length filtered)%nat with 0%nat by lia.
      cbn [firstn]. rewrite List.app_nil_r. reflexivity.
Qed.

Lemma logLimit_positive (limitStr : option Z) : 0 < logLimit limitStr.
Proof.
  unfold logLimit. destruct limitStr as [l|]; [|lia].
  destruct (0 <? l) eqn:Hl; [apply Z.ltb_lt in Hl; exact Hl | lia].
Qed.

(** X2: GET /api/logs answers with the newest entries first: the entries of
    the buffer of the asked level (every entry when the level is empty or
    [all]), from the newest to the oldest, cut after [limit] of them, where
    [limit] is 100 unless the parameter is a positive integer; so the answer
    never has more than [limit] entries and every entry in it has the asked
    level. *)
Theorem logs_newest_first (level : string) (limitStr : option Z) (c : Controller) :
  LogsHandler level limitStr c
  = firstn (Z.to_nat (logLimit limitStr))
           (List.filter (logMatches level) (rev (LogBuffer c)))
  /\ Z.of_nat (List.length (LogsHandler level limitStr c)) <= logLimit limitStr
  /\ Forall (fun entry => In entry (LogBuffer c)
                          /\ (level = "" \/ level = "all" \/ Level entry = level))
            (LogsHandler level limitStr c)
  /\ (limitStr = None \/ (exists l, limitStr = Some l /\ l <= 0) -> logLimit limitStr = 100).
Proof.
  pose proof (logLimit_positive limitStr) as Hpos.
  assert (Heq : LogsHandler level limitStr c
                = firstn (Z.to_nat (logLimit limitStr))
                         (List.filter (logMatches level) (rev (LogBuffer c)))).
  { unfold LogsHandler. rewrite scanLogs_spec by (cbn; lia).
    cbn [app List.length]. rewrite Nat.sub_0_r. reflexivity. }
  split; [exact Heq|]. split; [|split].
  - rewrite Heq, List.length_firstn. lia.
  - rewrite Heq. apply List.Forall_forall. intros entry Hin.
    assert (Hall : In entry (List.filter (logMatches level) (rev (LogBuffer c)))).
    { rewrite <- (List.firstn_skipn (Z.to_nat (logLimit limitStr))).
      apply in_or_app. left. exact Hin. }
    apply List.filter_In in Hall as [Hall Hm].
    split; [apply List.in_rev; exact Hall|].
    unfold logMatches in Hm.
    destruct (String.eqb_spec level "") as [->|_]; [left; reflexivity|].
    destruct (String.eqb_spec level "all") as [->|_]; [right; left; reflexivity|].
    cbn [orb] in Hm. apply String.eqb_eq in Hm. right. right. exact Hm.
  - unfold logLimit. intros [->|(l & -> & Hl)]; [reflexivity|].
    destruct (0 <? l) eqn:Hlt; [apply Z.ltb_lt in Hlt; lia | reflexivity].
Qed.

End LogProofs.

(** ** The stability window (main.go:460-486) *)

Module StabilityProofs.
Import Controller HealthProofs.

(** The last [n] elements of a list. *)
Definition lastn {A : Type} (n : nat) (l : list A) : list A := skipn (List.length l - n) l.

Lemma lastn_short {A : Type} (n : nat) (l : list A) : (List.length l <= n)%nat -> lastn n l = l.
Proof. intros H. unfold lastn. replace (List.length l - n)%nat with 0%nat by lia. reflexivity. Qed.

Lemma lastn_length {A : Type} (n : nat) (l : list A) :
  List.length (lastn n l) = Nat.min n (List.length l).
Proof. unfold lastn. rewrite List.length_skipn. lia. Qed.

(** One step of the window: append, then drop the head when over the size. *)
Lemma lastn_push {A : Type} (n : nat) (l : list A) (x : A) :
  (1 <= n)%nat ->
  (if (n <? List.length (lastn n l ++ [x]))%nat then tl (lastn n l ++ [x]) else lastn n l ++ [x])
  = lastn n (l ++ [x]).
Proof.
  intros Hn. rewrite List.length_app, lastn_length. cbn [List.length].
  unfold lastn. rewrite List.length_app. cbn [List.length].
  destruct (n <? _)%nat eqn:Hlt.
  - apply Nat.ltb_lt in Hlt.
    replace (List.length l + 1 - n)%nat with (S (List.length l - n)) by lia.
    rewrite (List.skipn_app (S _)).
    replace (S (List.length l - n) - List.length l)%nat with 0%nat by lia.
    cbn [skipn].
    replace (skipn (S (List.length l - n)) l)
      with (skipn 1 (skipn (List.length l - n) l))
      by (rewrite List.skipn_skipn; reflexivity).
    remember (skipn (List.length l - n) l) as h eqn:Hh.
    assert (Hlen : List.length h = n) by (subst h; rewrite List.length_skipn; lia).
    destruct h as [|a h]; [cbn in Hlen; lia | reflexivity].
  - apply Nat.ltb_ge in Hlt.
    replace (List.length l + 1 - n)%nat with 0%nat by lia.
    replace (List.length l - n)%nat with 0%nat by lia. reflexivity.
Qed.

Lemma lastn_repeat {A : Type} (n : nat) (l : list A) (x : A) :
  lastn n (l ++ repeat x n) = repeat x n.
Proof.
  unfold lastn. rewrite List.length_app, List.repeat_length.
  replace (List.length l + n - n)%nat with (List.length l) by lia.
  rewrite List.skipn_app, List.skipn_all, Nat.sub_diag. reflexivity.
Qed.

Lemma repeat_snoc {A : Type} (x : A) (n : nat) : repeat x n ++ [x] = repeat x (S n).
Proof. induction n as [|n IH]; [reflexivity|]. cbn [repeat app]. rewrite IH. reflexivity. Qed.

(** The history of a key after [n] more samples of the same value. *)
Lemma historyOf_iter (key : string) (b : bool) (c : Controller) (n : nat) :
  1 <= StabilityWindow (Cfg c) ->
  bounded c ->
  Cfg (Nat.iter n (UpdateHealthHistory key b) c) = Cfg c
  /\ historyOf key (Nat.iter n (UpdateHealthHistory key b) c)
     = lastn (Z.to_nat (StabilityWindow (Cfg c))) (historyOf key c ++ repeat b n).
Proof.
  intros Hw Hb. induction n as [|n [IHc IHh]].
  - split; [reflexivity|]. change (Nat.iter 0 (UpdateHealthHistory key b) c) with c.
    cbn [repeat]. rewrite List.app_nil_r.
    symmetry. apply lastn_short. specialize (Hb key). lia.
  - rewrite Nat.iter_succ. split; [exact IHc|].
    rewrite historyOf_update. destruct (decide (key = key)) as [_|]; [|congruence].
    cbn zeta. rewrite IHc, IHh.
    rewrite <- repeat_snoc, List.app_assoc.
    rewrite <- (lastn_push (Z.to_nat (StabilityWindow (Cfg c)))) by lia.
    set (h := lastn _ (historyOf key c ++ repeat b n) ++ [b]).
    destruct (StabilityWindow (Cfg c) <? Z.of_nat (List.length h)) eqn:Hz;
      destruct (Z.to_nat (StabilityWindow (Cfg c)) <? List.length h)%nat eqn:Hn;
      try reflexivity.
    + apply Z.ltb_lt in Hz. apply Nat.ltb_ge in Hn. lia.
    + apply Z.ltb_ge in Hz. apply Nat.ltb_lt in Hn. lia.
Qed.

Lemma forallb_repeat (b e : bool) (n : nat) :
  forallb (fun h => Bool.eqb h e) (repeat b n) = (n =? 0)%nat || Bool.eqb b e.
Proof.
  induction n as [|n IH]; [reflexivity|]. cbn [repeat forallb Nat.eqb orb]. rewrite IH.
  destruct (Bool.eqb b e); [apply orb_true_r | reflexivity].
Qed.

(** X3: from any state the controller can reach, after as many samples of
    the same value [b] under one key as the stability window is long, the key
    is stable at [b] and not stable at the opposite value; one sample of the
    opposite value then ends the stability at [b].  With a window of 1 a single
    sample decides. *)
Theorem stable_after_window (cfg : Config) (c : Controller) (key : string) (b : bool) :
  1 <= StabilityWindow cfg ->
  reachable cfg c ->
  let filled := Nat.iter (Z.to_nat (StabilityWindow cfg)) (UpdateHealthHistory key b) c in
  historyOf key filled = repeat b (Z.to_nat (StabilityWindow cfg))
  /\ IsStable key b filled = true
  /\ IsStable key (negb b) filled = false
  /\ IsStable key b (UpdateHealthHistory key (negb b) filled) = false
  /\ (StabilityWindow cfg = 1 -> IsStable key b (UpdateHealthHistory key b c) = true).
Proof.
  intros Hw Hr filled.
  destruct (reachable_bounded cfg c ltac:(lia) Hr) as [Hc Hb].
  destruct (historyOf_iter key b c (Z.to_nat (StabilityWindow cfg)) ltac:(rewrite Hc; exact Hw) Hb)
    as [Hcfg Hhist].
  rewrite Hc, lastn_repeat in Hhist. fold filled in Hcfg, Hhist. rewrite Hc in Hcfg.
  assert (Hstable : forall e, IsStable key e filled
                              = Bool.eqb b e).
  { intros e. unfold IsStable. fold (historyOf key filled). rewrite Hhist, Hcfg.
    rewrite List.repeat_length.
    destruct (_ <? StabilityWindow cfg) eqn:Hlt; [apply Z.ltb_lt in Hlt; lia|].
    rewrite forallb_repeat.
    destruct (Z.to_nat (StabilityWindow cfg) =? 0)%nat eqn:Hz;
      [apply Nat.eqb_eq in Hz; lia | reflexivity]. }
  split; [exact Hhist|]. split; [rewrite Hstable; destruct b; reflexivity|].
  split; [rewrite Hstable; destruct b; reflexivity|]. split.
  - unfold IsStable. fold (historyOf key (UpdateHealthHistory key (negb b) filled)).
    rewrite historyOf_update. destruct (decide (key = key)) as [_|]; [|congruence].
    cbn zeta. change (Cfg (UpdateHealthHistory key (negb b) filled)) with (Cfg filled).
    rewrite Hcfg, Hhist, List.length_app, List.repeat_length. cbn [List.length].
    destruct (StabilityWindow cfg <? _) eqn:Hover; [|apply Z.ltb_ge in Hover; lia].
    destruct (Z.to_nat (StabilityWindow cfg)) as [|w] eqn:Hwn; [lia|].
    cbn [repeat app tl]. rewrite List.length_app, List.repeat_length. cbn [List.length].
    destruct (_ <? StabilityWindow cfg) eqn:Hlt; [reflexivity|].
    rewrite List.forallb_app. cbn [forallb]. destruct b; cbn; rewrite andb_false_r; reflexivity.
  - intros Hone. subst filled. rewrite Hone in Hstable.
    change (Z.to_nat 1) with 1%nat in Hstable. rewrite Nat.iter_succ in Hstable.
    change (Nat.iter 0 (UpdateHealthHistory key b) c) with c in Hstable.
    rewrite Hstable. destruct b; reflexivity.
Qed.

Lemma stable_after_window_witness :
  IsStable "alpha_obs" true
    (Nat.iter 3 (UpdateHealthHistory "alpha_obs" true) sampleHistory) = true
  /\ IsStable "alpha_obs" true
       (UpdateHealthHistory "alpha_obs" false
          (Nat.iter 3 (UpdateHealthHistory "alpha_obs" true) sampleHistory)) = false.
Proof.
  pose proof (stable_after_window sampleConfig sampleHistory "alpha_obs" true
                ltac:(vm_compute; discriminate)
                ltac:(repeat apply reach_health; apply reach_new)) as H.
  cbv zeta in H. split; [exact (proj1 (proj2 H)) | exact (proj1 (proj2 (proj2 (proj2 H))))].
Defined.

End StabilityProofs.

(** ** What a tick leaves alone (main.go:305-438) *)

Module TickProofs.
Import Controller HealthProofs ReconcilerProofs.

(** The history after a tick of an enabled channel is the one the two samples
    of the tick leave. *)
Lemma tick_health now ch streams c :
  Enabled ch = true ->
  sameHealth (sampled ch streams c) (fst (ReconcileChannel now ch streams c)).
Proof.
  intros Hen. rewrite (ReconcileChannel_enabled now ch streams c Hen). cbn [fst].
  eapply sameHealth_trans; [|apply sameHealth_superviseLoop].
  rewrite selectSource_unfold.
  eapply sameHealth_trans; [|apply sameHealth_autoSwitch].
  eapply sameHealth_trans; [|apply sameHealth_clearOverride].
  apply sameHealth_syncFromStore.
Qed.

Lemma tick_cooldown now ch streams c :
  Enabled ch = true ->
  takeoverCooldown (fst (ReconcileChannel now ch streams c)) = takeoverCooldown c
  \/ takeoverCooldown (fst (ReconcileChannel now ch streams c))
     = delete (Name ch) (takeoverCooldown c).
Proof.
  intros Hen. rewrite (ReconcileChannel_enabled now ch streams c Hen). cbn [fst].
  pose proof (selectSource_cooldown now ch streams c) as Hc4.
  remember (fst (fst (selectSource now ch streams c))) as c4 eqn:Heq.
  unfold superviseLoop. cbn [Name with_source]. rewrite Hc4.
  destruct (takeoverCooldown c !! Name ch) as [t|]; [|left; exact Hc4].
  destruct (now - t <? _); cbn [fst takeoverCooldown set_takeoverCooldown];
    rewrite ?Hc4; [left | right]; reflexivity.
Qed.

Lemma tick_map now ch streams c :
  Enabled ch = true ->
  activeSourceMap (fst (ReconcileChannel now ch streams c))
  = if preempts ch streams c
    then <[Name ch := "OBS"]> (activeSourceMap (syncFromStore ch c))
    else activeSourceMap (syncFromStore ch c).
Proof.
  intros Hen. destruct (preempts ch streams c) eqn:Hp.
  - rewrite (ReconcileChannel_enabled now ch streams c Hen). cbn [fst].
    supervise_frame as (-> & _).
    rewrite selectSource_unfold. unfold autoSwitch.
    rewrite autoSwitchFires_preempts, Hp. cbn [fst activeSourceMap Log set_activeSourceMap].
    destruct (syncFromStore_sampled ch streams c) as (Ha & _).
    unfold clearOverride. destruct (_ && _); cbn [fst activeSourceMap set_manualLoopOverride];
      rewrite Ha; reflexivity.
  - apply tick_idle_map; assumption.
Qed.

(** The calls of a tick of an enabled channel end with the relay's
    reconciliation, which is given the source selected by the tick. *)
Lemma tick_relay_call now ch streams c :
  Enabled ch = true ->
  exists streamActive,
    In (ReconcileDestinations
          (with_source ch (snd (detectOBS ch streams)) (snd (selectSource now ch streams c)))
          streamActive)
       (snd (ReconcileChannel now ch streams c)).
Proof.
  intros Hen. rewrite (ReconcileChannel_enabled now ch streams c Hen). cbn [snd].
  unfold superviseLoop.
  destruct (takeoverCooldown _ !! _) as [t|]; [destruct (now - t <? _)|];
    cbn [snd]; eexists; apply in_or_app; right; right; left; reflexivity.
Qed.

(** A tick of a channel on OBS, with a store that does not say otherwise. *)
Lemma no_fallback_core (now : Z) (ch : Channel) (streams : gmap string SRSStream)
    (c : Controller) :
  Enabled ch = true ->
  mapSource ch c = "OBS" ->
  ActiveSource ch = "OBS" \/ ActiveSource ch = "" ->
  activeSourceMap (fst (ReconcileChannel now ch streams c)) = activeSourceMap c
  /\ (forall id source,
        ~ In (GoUpdateActiveSource id source) (snd (ReconcileChannel now ch streams c))).
Proof.
  intros Hen Hmap Hstore.
  assert (Hsame : storeDiffers ch c = false).
  { unfold storeDiffers. rewrite Hmap. destruct Hstore as [-> | ->]; reflexivity. }
  assert (Hres : resolvedSource ch c = "OBS").
  { unfold resolvedSource. rewrite Hsame. exact Hmap. }
  assert (Hidle : preempts ch streams c = false).
  { unfold preempts. rewrite Hres. cbn [String.eqb Ascii.eqb Bool.eqb negb].
    rewrite andb_false_r. reflexivity. }
  destruct (selectSource_idle now ch streams c Hidle) as (_ & Hcalls & _ & _).
  split.
  - rewrite tick_idle_map by assumption. unfold syncFromStore. rewrite Hsame. reflexivity.
  - rewrite (ReconcileChannel_enabled now ch streams c Hen). cbn [snd].
    rewrite Hcalls. cbn [app]. supervise_frame as (_ & _ & _ & Hgo). exact Hgo.
Qed.

(** X4: no automatic fallback.  While the channel's source is OBS in the
    controller's map and the store does not say otherwise, a tick leaves the
    map as it is, whatever the streams look like (the primary may be gone):
    it starts no write of the source to the store, and it hands the relay the
    source OBS. *)
Theorem no_automatic_fallback (now : Z) (ch : Channel) (streams : gmap string SRSStream)
    (c : Controller) :
  Enabled ch = true ->
  mapSource ch c = "OBS" ->
  ActiveSource ch = "OBS" \/ ActiveSource ch = "" ->
  activeSourceMap (fst (ReconcileChannel now ch streams c)) = activeSourceMap c
  /\ (forall id source,
        ~ In (GoUpdateActiveSource id source) (snd (ReconcileChannel now ch streams c)))
  /\ exists streamActive,
       In (ReconcileDestinations (with_source ch (snd (detectOBS ch streams)) "OBS") streamActive)
          (snd (ReconcileChannel now ch streams c)).
Proof.
  intros Hen Hmap Hstore.
  destruct (no_fallback_core now ch streams c Hen Hmap Hstore) as [Hkeep Hgo].
  split; [exact Hkeep|]. split; [exact Hgo|].
  assert (Hsel : snd (selectSource now ch streams c) = "OBS").
  { assert (Hsame : storeDiffers ch c = false).
    { unfold storeDiffers. rewrite Hmap. destruct Hstore as [-> | ->]; reflexivity. }
    assert (Hres : resolvedSource ch c = "OBS").
    { unfold resolvedSource. rewrite Hsame. exact Hmap. }
    assert (Hidle : preempts ch streams c = false).
    { unfold preempts. rewrite Hres. cbn [String.eqb Ascii.eqb Bool.eqb negb].
      rewrite andb_false_r. reflexivity. }
    destruct (selectSource_idle now ch streams c Hidle) as (_ & _ & -> & _). exact Hres. }
  destruct (tick_relay_call now ch streams c Hen) as [active Hin].
  rewrite Hsel in Hin. exists active. exact Hin.
Qed.

Definition primaryOnAir : Controller :=
  set_activeSourceMap {[ "alpha" := "OBS" ]} fresh.

Lemma no_automatic_fallback_witness :
  activeSourceMap
    (fst (ReconcileChannel 0 (with_source alpha "" "OBS") primaryGone primaryOnAir))
  = {[ "alpha" := "OBS" ]}.
Proof.
  exact (proj1 (no_automatic_fallback 0 (with_source alpha "" "OBS") primaryGone primaryOnAir
                  eq_refl ltac:(vm_compute; reflexivity) ltac:(left; reflexivity))).
Defined.

(** X5: a tick of one channel writes that channel's entries only.  The
    entries of every other channel in the active-source map, in the override
    map and in the cooldown map are as before, and so is every health history
    but the channel's two ([name_loop] and [name_obs]); this holds for enabled
    and disabled channels, whichever branch the tick takes. *)
Theorem tick_writes_own_channel_only (now : Z) (ch : Channel)
    (streams : gmap string SRSStream) (c : Controller) :
  let c' := fst (ReconcileChannel now ch streams c) in
  (forall other, other <> Name ch ->
     activeSourceMap c' !! other = activeSourceMap c !! other
     /\ manualLoopOverride c' !! other = manualLoopOverride c !! other
     /\ takeoverCooldown c' !! other = takeoverCooldown c !! other)
  /\ (forall key, key <> Name ch +:+ "_loop" -> key <> Name ch +:+ "_obs" ->
        HealthHistory c' !! key = HealthHistory c !! key)
  /\ Cfg c' = Cfg c.
Proof.
  intros c'. subst c'. destruct (Enabled ch) eqn:Hen.
  - split; [|split].
    + intros other Hne. split; [|split].
      * rewrite tick_map by exact Hen.
        assert (Hsync : activeSourceMap (syncFromStore ch c) !! other
                        = activeSourceMap c !! other).
        { unfold syncFromStore. destruct (storeDiffers ch c); [|reflexivity].
          cbn [activeSourceMap set_activeSourceMap]. apply lookup_insert_ne. congruence. }
        destruct (preempts ch streams c); [|exact Hsync].
        rewrite lookup_insert_ne by congruence. exact Hsync.
      * rewrite tick_override by exact Hen.
        destruct (_ && _); [|reflexivity]. apply lookup_delete_ne. congruence.
      * destruct (tick_cooldown now ch streams c Hen) as [-> | ->]; [reflexivity|].
        apply lookup_delete_ne. congruence.
    + intros key Hloop Hobs. destruct (tick_health now ch streams c Hen) as [-> _].
      unfold sampled, UpdateHealthHistory. cbn [HealthHistory set_HealthHistory].
      rewrite !lookup_insert_ne by congruence. reflexivity.
    + destruct (tick_health now ch streams c Hen) as [_ ->]. reflexivity.
  - rewrite ReconcileChannel_disabled by exact Hen. cbn [fst].
    repeat split.
Qed.

End TickProofs.

(** ** Who may publish, and what the hooks and switches compose to
    (main.go:1545-1567, 1897-2128) *)

Module AuthProofs.
Import Controller ReconcilerProofs.

(** The token a publisher presents and the stream name the hooks look up. *)
Definition presented (payload : HookPayload) : string := TrimPrefix (Param payload) "?token=".

Definition baseName (payload : HookPayload) : string :=
  if HasSuffix (Stream payload) "-obs" then TrimSuffix (Stream payload) "-obs"
  else Stream payload.

Lemma hashIs_eq h tokenHash : hashIs h tokenHash = true -> h = Some tokenHash.
Proof.
  destruct h as [s|]; cbn; [|discriminate]. intros Heq. apply String.eqb_eq in Heq. congruence.
Qed.

Lemma matchSource_credential r token tokenHash sourceType :
  matchSource r token tokenHash = Some sourceType ->
  (sourceType = "OBS" /\ (obs_token_hash r = Some tokenHash \/ token = obs_token r))
  \/ (sourceType = "LOOP" /\ (loop_token_hash r = Some tokenHash \/ token = loop_token r)).
Proof.
  unfold matchSource.
  destruct (hashIs (obs_token_hash r) tokenHash) eqn:Ho.
  { intros [= <-]. left. split; [reflexivity|]. left. apply hashIs_eq. exact Ho. }
  destruct (hashIs (loop_token_hash r) tokenHash) eqn:Hl.
  { intros [= <-]. right. split; [reflexivity|]. left. apply hashIs_eq. exact Hl. }
  destruct (String.eqb_spec token (obs_token r)) as [Heq|_].
  { intros [= <-]. left. split; [reflexivity|]. right. exact Heq. }
  destruct (String.eqb_spec token (loop_token r)) as [Heq|_]; [|discriminate].
  intros [= <-]. right. split; [reflexivity|]. right. exact Heq.
Qed.

(** What the token of a request is to a row, for a source type. *)
Definition credential (r : ChannelRow) (sourceType token : string) : Prop :=
  (sourceType = "OBS"
   /\ (obs_token_hash r = Some (Crypto.HashToken token) \/ token = obs_token r))
  \/ (sourceType = "LOOP"
      /\ (loop_token_hash r = Some (Crypto.HashToken token) \/ token = loop_token r)).

(** The row the handler went on with. *)
Definition wentOnWith (byName byToken : string -> QueryOutcome) (streamName : string)
    (r : ChannelRow) : Prop :=
  byName streamName = Row r \/ byName streamName = QueryFailed r
  \/ (byName streamName = NoRows
      /\ (byToken streamName = Row r \/ byToken streamName = QueryFailed r)).

(** The row behind an accepted publish. *)
Lemma authenticateOn_accepted req byName byToken payload streamName sourceType :
  authenticateOn req byName byToken = Accepted payload streamName sourceType ->
  unmarshalHook req = Some payload
  /\ streamName = baseName payload
  /\ exists r,
       wentOnWith byName byToken streamName r
       /\ matchSource r (presented payload) (Crypto.HashToken (presented payload))
          = Some sourceType.
Proof.
  unfold authenticateOn, wentOnWith.
  destruct (unmarshalHook req) as [p|]; [|discriminate].
  cbv zeta. fold (baseName p). fold (presented p).
  destruct (byName (baseName p)) as [r| |r] eqn:Hname.
  - destruct (_ && _); [discriminate|].
    destruct (matchSource r _ _) as [src|] eqn:Hm; [|discriminate].
    intros [= <- <- <-]. split; [reflexivity|]. split; [reflexivity|].
    exists r. split; [left; exact Hname | exact Hm].
  - destruct (byToken (baseName p)) as [r| |r] eqn:Htok; [|discriminate|];
      (destruct (_ && _); [discriminate|];
       destruct (matchSource r _ _) as [src|] eqn:Hm; [|discriminate];
       intros [= <- <- <-]; split; [reflexivity|]; split; [reflexivity|];
       exists r; split; [right; right; split; [exact Hname | auto] | exact Hm]).
  - destruct (_ && _); [discriminate|].
    destruct (matchSource r _ _) as [src|] eqn:Hm; [|discriminate].
    intros [= <- <- <-]. split; [reflexivity|]. split; [reflexivity|].
    exists r. split; [right; left; exact Hname | exact Hm].
Qed.

(** X6: what an accepted publish has presented.  When the hook accepts a
    publish, the token of the request is a credential of the channel the
    handler went on with: its OBS token (by hash or in plain text) for the
    source type OBS, its loop token for LOOP.  When the store answers the
    queries, that channel is an enabled row of the store whose name, or whose
    OBS token, is the stream's base name.  The handler tests the error of a
    query for [sql.ErrNoRows] only: on any other error it goes on with what
    [Scan] had assigned, and when that is nothing (the store cannot be
    reached), a publish without a token is accepted as the OBS source of
    whatever stream it names. *)
Theorem accepted_publish_has_credential (req : JSON.Body)
    (byName byToken : string -> QueryOutcome)
    (payload : HookPayload) (streamName sourceType : string) :
  (authenticateOn req byName byToken = Accepted payload streamName sourceType ->
   unmarshalHook req = Some payload
   /\ streamName = baseName payload
   /\ (exists r, wentOnWith byName byToken streamName r
                 /\ credential r sourceType (presented payload))
   /\ (forall db,
         byName streamName = answered (queryByName db streamName) ->
         byToken streamName = answered (queryByObsToken db streamName) ->
         exists r,
           In r (channels db) /\ row_enabled r = true
           /\ (row_name r = streamName \/ obs_token r = streamName)
           /\ credential r sourceType (presented payload))
   /\ (byName streamName = QueryFailed unassigned ->
       presented payload = EmptyString /\ sourceType = "OBS"))
  /\ (unmarshalHook req = Some payload -> presented payload = EmptyString ->
      byName (baseName payload) = QueryFailed unassigned ->
      authenticateOn req byName byToken = Accepted payload (baseName payload) "OBS").
Proof.
  split.
  - intros Hauth.
    destruct (authenticateOn_accepted _ _ _ _ _ _ Hauth) as (Hreq & Hname & r & Hrow & Hmatch).
    pose proof (matchSource_credential _ _ _ _ Hmatch) as Hcred.
    split; [exact Hreq|]. split; [exact Hname|].
    split; [exists r; split; [exact Hrow | exact Hcred]|]. split.
    + intros db HbyName HbyToken. exists r.
      assert (Hq : queryByName db streamName = Some r
                   \/ queryByObsToken db streamName = Some r).
      { destruct Hrow as [Hn|[Hn|[Hn [Ht|Ht]]]].
        - rewrite HbyName in Hn. destruct (queryByName db streamName); [|discriminate].
          injection Hn as ->. left. reflexivity.
        - rewrite HbyName in Hn. destruct (queryByName db streamName); discriminate.
        - rewrite HbyToken in Ht. destruct (queryByObsToken db streamName); [|discriminate].
          injection Ht as ->. right. reflexivity.
        - rewrite HbyToken in Ht. destruct (queryByObsToken db streamName); discriminate. }
      assert (Hfound : In r (channels db) /\ row_enabled r = true
                       /\ (row_name r = streamName \/ obs_token r = streamName)).
      { destruct Hq as [Hq|Hq]; apply find_some in Hq as [Hin Hp];
          apply andb_prop in Hp as [Hn He]; apply String.eqb_eq in Hn; auto. }
      destruct Hfound as (Hin & Hen & Hkey). auto.
    + intros Hfailed.
      assert (Hr : r = unassigned).
      { destruct Hrow as [Hn|[Hn|[Hn _]]]; rewrite Hfailed in Hn; congruence. }
      subst r. unfold matchSource, unassigned in Hmatch. cbn in Hmatch.
      destruct (String.eqb_spec (presented payload) "") as [Hempty|_]; [|discriminate].
      injection Hmatch as <-. split; [exact Hempty | reflexivity].
  - intros Hreq Hempty Hfailed. unfold authenticateOn. rewrite Hreq. cbv zeta.
    fold (baseName payload). fold (presented payload). rewrite Hfailed, Hempty.
    unfold unassigned, matchSource. cbn. rewrite Bool.andb_false_r. reflexivity.
Qed.

Lemma accepted_publish_has_credential_witness :
  (exists r, In r (channels HookProofs.store)
             /\ loop_token_hash r = Some (Crypto.HashToken "loop-secret"))
  /\ authenticateOn (HookProofs.publishBody "anything-obs" "")
       (fun _ => QueryFailed unassigned) (fun _ => NoRows)
     = Accepted {| Action := "on_publish"; Stream := "anything-obs";
                   Param := "?token="; IP := "10.0.0.7" |} "anything" "OBS".
Proof.
  split.
  - destruct (proj1 (accepted_publish_has_credential
                (HookProofs.publishBody "alpha" "loop-secret")
                (fun name => answered (queryByName HookProofs.store name))
                (fun token => answered (queryByObsToken HookProofs.store token))
                {| Action := "on_publish"; Stream := "alpha";
                   Param := "?token=loop-secret"; IP := "10.0.0.7" |}
                "alpha" "LOOP") ltac:(vm_compute; reflexivity))
      as (_ & _ & _ & Hstore & _).
    destruct (Hstore HookProofs.store eq_refl eq_refl) as (r & Hin & _ & _ & Hcred).
    exists r. split; [exact Hin|].
    destruct Hin as [<-|[]]. reflexivity.
  - exact (proj2 (accepted_publish_has_credential
                    (HookProofs.publishBody "anything-obs" "")
                    (fun _ => QueryFailed unassigned) (fun _ => NoRows)
                    {| Action := "on_publish"; Stream := "anything-obs";
                       Param := "?token="; IP := "10.0.0.7" |}
                    "anything" "OBS") eq_refl eq_refl eq_refl).
Defined.

(** X7: a publish that is not answered 200 changes nothing.  The answer is
    400 (the body is not a hook payload) or 403 (unknown stream, wrong token);
    the store is untouched (no audit row either), nothing is started, and the
    controller differs from the one before by log lines only: its four maps
    are as before. *)
Theorem rejected_publish_changes_nothing (now : Z) (req : JSON.Body) (c : Controller) (db : DB) :
  status (snd (fst (OnPublishHandler now req c db))) <> 200 ->
  (status (snd (fst (OnPublishHandler now req c db))) = 400
   \/ status (snd (fst (OnPublishHandler now req c db))) = 403)
  /\ snd (fst (fst (OnPublishHandler now req c db))) = db
  /\ snd (OnPublishHandler now req c db) = []
  /\ takeoverCooldown (fst (fst (fst (OnPublishHandler now req c db)))) = takeoverCooldown c
  /\ activeSourceMap (fst (fst (fst (OnPublishHandler now req c db)))) = activeSourceMap c
  /\ manualLoopOverride (fst (fst (fst (OnPublishHandler now req c db))))
     = manualLoopOverride c
  /\ HealthHistory (fst (fst (fst (OnPublishHandler now req c db)))) = HealthHistory c.
Proof.
  unfold OnPublishHandler.
  destruct (authenticate req db) as [| | | |payload streamName sourceType]; cbn [fst snd status];
    intros Hstatus; try (repeat split; auto; fail).
  destruct (String.eqb sourceType "OBS"); cbn [fst snd status] in Hstatus; contradiction.
Qed.

Lemma rejected_publish_changes_nothing_witness :
  snd (fst (fst (OnPublishHandler 50 (HookProofs.publishBody "alpha" "guess")
                   HookProofs.onPrimary HookProofs.store)))
  = HookProofs.store.
Proof.
  exact (proj1 (proj2 (rejected_publish_changes_nothing 50
                         (HookProofs.publishBody "alpha" "guess")
                         HookProofs.onPrimary HookProofs.store
                         ltac:(vm_compute; discriminate)))).
Defined.

(** X8: the stream [{channel}-obs] takes the OBS token only.  For a channel
    found by name whose OBS token hash is stored, a publish on the [-obs]
    stream with any other token (the channel's own loop token included) is
    answered 403 and changes neither the store nor the cooldown. *)
Theorem obs_stream_takes_obs_token_only (now : Z) (req : JSON.Body) (c : Controller) (db : DB)
    (payload : HookPayload) (r : ChannelRow) (h : string) :
  unmarshalHook req = Some payload ->
  HasSuffix (Stream payload) "-obs" = true ->
  queryByName db (TrimSuffix (Stream payload) "-obs") = Some r ->
  obs_token_hash r = Some h ->
  h <> Crypto.HashToken (presented payload) ->
  presented payload <> obs_token r ->
  snd (fst (OnPublishHandler now req c db)) = {| status := 403; body := "Invalid token" |}
  /\ snd (fst (fst (OnPublishHandler now req c db))) = db
  /\ snd (OnPublishHandler now req c db) = []
  /\ takeoverCooldown (fst (fst (fst (OnPublishHandler now req c db)))) = takeoverCooldown c.
Proof.
  intros Hreq Hobs Hrow Hhash Hne Htok.
  assert (Hauth : authenticate req db = InvalidOBSToken payload).
  { unfold authenticate, authenticateOn. rewrite Hreq. cbv zeta. rewrite Hobs, Hrow.
    cbn [answered]. fold (presented payload). unfold hashDiffers. rewrite Hhash.
    destruct (String.eqb_spec (presented payload) (obs_token r)) as [Heq|_]; [contradiction|].
    destruct (String.eqb_spec h (Crypto.HashToken (presented payload))) as [Heq|_];
      [contradiction | reflexivity]. }
  unfold OnPublishHandler. rewrite Hauth. cbn [fst snd]. repeat split.
Qed.

Lemma obs_stream_takes_obs_token_only_witness :
  status (snd (fst (OnPublishHandler 50 (HookProofs.publishBody "alpha-obs" "loop-secret")
                      HookProofs.onPrimary HookProofs.store))) = 403.
Proof.
  rewrite (proj1 (obs_stream_takes_obs_token_only 50
                    (HookProofs.publishBody "alpha-obs" "loop-secret")
                    HookProofs.onPrimary HookProofs.store
                    {| Action := "on_publish"; Stream := "alpha-obs";
                       Param := "?token=loop-secret"; IP := "10.0.0.7" |}
                    HookProofs.alphaRow (Crypto.HashToken "primary-secret")
                    eq_refl eq_refl eq_refl eq_refl
                    ltac:(vm_compute; discriminate) ltac:(vm_compute; discriminate))).
  reflexivity.
Defined.

(** X9: the unpublish hook always answers 200 with body [0], also for a body
    that is no hook payload, an unknown channel or a wrong token; and it
    changes the controller or the store only when the token in the request is
    the plain-text OBS token of the channel named by the stream, in which case
    the channel's cooldown entry is gone and the store's source is LOOP. *)
Theorem unpublish_always_ok (now : Z) (req : JSON.Body) (c : Controller) (db : DB) :
  snd (OnUnpublishHandler now req c db) = {| status := 200; body := "0" |}
  /\ (fst (OnUnpublishHandler now req c db) = (c, db)
      \/ exists payload r,
           unmarshalHook req = Some payload
           /\ queryAnyByName db (baseName payload) = Some r
           /\ presented payload = obs_token r
           /\ takeoverCooldown (fst (fst (OnUnpublishHandler now req c db)))
              = delete (baseName payload) (takeoverCooldown c)
           /\ activeSourceMap (fst (fst (OnUnpublishHandler now req c db))) = activeSourceMap c
           /\ manualLoopOverride (fst (fst (OnUnpublishHandler now req c db)))
              = manualLoopOverride c
           /\ channels (snd (fst (OnUnpublishHandler now req c db)))
              = channels (setSourceByName db (baseName payload) "LOOP")).
Proof.
  unfold OnUnpublishHandler.
  destruct (unmarshalHook req) as [payload|]; [|split; [reflexivity | left; reflexivity]].
  fold (baseName payload). fold (presented payload).
  destruct (queryAnyByName db (baseName payload)) as [r|] eqn:Hrow;
    [|split; [reflexivity | left; reflexivity]].
  destruct (String.eqb_spec (presented payload) (obs_token r)) as [Htok|_];
    [|split; [reflexivity | left; reflexivity]].
  split; [reflexivity|]. right. exists payload, r. cbn [fst snd]. repeat split; assumption.
Qed.

(** The row that a query by name returns, in the store after the source of
    that name was rewritten. *)
Lemma setSourceByName_row db name source r :
  queryAnyByName db name = Some r ->
  row_name r = name
  /\ In (set_source source r) (channels (setSourceByName db name source)).
Proof.
  intros Hq. apply find_some in Hq as [Hin Hn]. apply String.eqb_eq in Hn.
  split; [exact Hn|]. cbn [setSourceByName channels].
  apply in_map_iff. exists r. rewrite Hn, String.eqb_refl. auto.
Qed.

Lemma UpdateActiveSource_row db id source r :
  queryByID db id = Some r ->
  row_id r = id
  /\ In (set_source source r) (channels (UpdateActiveSource db id source)).
Proof.
  intros Hq. apply find_some in Hq as [Hin Hn]. apply Z.eqb_eq in Hn.
  split; [exact Hn|]. cbn [UpdateActiveSource channels].
  apply in_map_iff. exists r. rewrite Hn, Z.eqb_refl. auto.
Qed.

(** The source a tick resolves when the store holds a value for it. *)
Lemma resolvedSource_store ch c :
  ActiveSource ch <> "" -> resolvedSource ch c = ActiveSource ch.
Proof.
  intros Hne. unfold resolvedSource, storeDiffers.
  destruct (String.eqb_spec (ActiveSource ch) "") as [Heq|_]; [contradiction|].
  destruct (String.eqb_spec (ActiveSource ch) (mapSource ch c)) as [Heq|_];
    [symmetry; exact Heq | reflexivity].
Qed.

Lemma mapSource_syncFromStore ch c :
  ActiveSource ch <> "" -> mapSource ch (syncFromStore ch c) = ActiveSource ch.
Proof.
  intros Hne. unfold syncFromStore, storeDiffers.
  destruct (String.eqb_spec (ActiveSource ch) "") as [Heq|_]; [contradiction|].
  destruct (String.eqb_spec (ActiveSource ch) (mapSource ch c)) as [Heq|Hdiff]; cbn [negb andb].
  - symmetry. exact Heq.
  - unfold mapSource. cbn [activeSourceMap set_activeSourceMap]. rewrite lookup_insert_eq.
    cbn [from_option id]. destruct (String.eqb_spec (ActiveSource ch) "") as [Heq|_];
      [contradiction | reflexivity].
Qed.

Lemma mapSource_same ch c c' :
  activeSourceMap c' = activeSourceMap c -> mapSource ch c' = mapSource ch c.
Proof. unfold mapSource. intros ->. reflexivity. Qed.

(** X10: the way back to the loop is the unpublish hook.  After the hook
    has run under the OBS token of an enabled channel, the channel's row is in
    the store with the source LOOP, as is every row of that name, and the
    channel has no cooldown.  For the channel a tick scans from that row,
    whatever tokens the tick has made of the row's token columns (a row
    whose scan fails gives the tick no channel): a tick that does not see the
    primary up resolves the source LOOP, hands it to the relay, and
    supervises the loop container again (it is started when the loop is
    enabled). *)
Theorem primary_disconnect_fails_back (now now' : Z) (req : JSON.Body) (c : Controller)
    (db : DB) (payload : HookPayload) (r : ChannelRow) (streams : gmap string SRSStream)
    (obsToken loopToken : string) :
  unmarshalHook req = Some payload ->
  queryAnyByName db (baseName payload) = Some r ->
  presented payload = obs_token r ->
  row_enabled r = true ->
  let c1 := fst (fst (OnUnpublishHandler now req c db)) in
  let db1 := snd (fst (OnUnpublishHandler now req c db)) in
  let ch := channelWithTokens db1 (set_source "LOOP" r) obsToken loopToken in
  isObsRobust ch streams = false ->
  In (set_source "LOOP" r) (channels db1)
  /\ (forall row, In row (channels db1) -> row_name row = baseName payload ->
        current_active_source row = "LOOP")
  /\ takeoverCooldown c1 !! Name ch = None
  /\ mapSource ch (fst (ReconcileChannel now' ch streams c1)) = "LOOP"
  /\ (exists streamActive,
        In (ReconcileDestinations (with_source ch (snd (detectOBS ch streams)) "LOOP")
                                  streamActive)
           (snd (ReconcileChannel now' ch streams c1)))
  /\ (loop_enabled r = true ->
      exists ch', In (EnsureContainerRunning ch' (loopContainer (Name ch)))
                     (snd (ReconcileChannel now' ch streams c1))).
Proof.
  intros Hreq Hrow Htok Hen c1 db1 ch Hdown.
  destruct (setSourceByName_row db (baseName payload) "LOOP" r Hrow) as [Hname Hin].
  assert (Hrun : OnUnpublishHandler now req c db
                 = (set_takeoverCooldown (delete (baseName payload) (takeoverCooldown c))
                      (Log now "info" "failover"
                         ("OBS disconnected for " +:+ baseName payload
                          +:+ " - clearing cooldown to allow loop restart") c),
                    snd (fst (OnUnpublishHandler now req c db)),
                    {| status := 200; body := "0" |})).
  { unfold OnUnpublishHandler. rewrite Hreq. fold (baseName payload). fold (presented payload).
    rewrite Hrow, Htok, String.eqb_refl. reflexivity. }
  assert (Hdb : channels db1 = channels (setSourceByName db (baseName payload) "LOOP")).
  { subst db1. unfold OnUnpublishHandler. rewrite Hreq. fold (baseName payload).
    fold (presented payload). rewrite Hrow, Htok, String.eqb_refl. reflexivity. }
  assert (Hc1 : takeoverCooldown c1 !! Name ch = None).
  { subst c1. rewrite Hrun. cbn [fst takeoverCooldown set_takeoverCooldown].
    subst ch. cbn [Name channelWithTokens set_source row_name]. rewrite Hname.
    apply lookup_delete_eq. }
  assert (Hch : Enabled ch = true) by exact Hen.
  assert (Hsrc : ActiveSource ch = "LOOP") by reflexivity.
  assert (Hidle : preempts ch streams c1 = false).
  { unfold preempts. rewrite Hdown. rewrite andb_false_r. reflexivity. }
  destruct (selectSource_idle now' ch streams c1 Hidle) as (_ & _ & Hsel & _).
  assert (Hres : resolvedSource ch c1 = "LOOP").
  { rewrite resolvedSource_store; [exact Hsrc | rewrite Hsrc; discriminate]. }
  split; [|split; [|split; [|split; [|split]]]].
  - rewrite Hdb. exact Hin.
  - intros row Hrow1 Hn. rewrite Hdb in Hrow1. cbn [setSourceByName channels] in Hrow1.
    apply in_map_iff in Hrow1 as (row0 & Heq & _).
    destruct (String.eqb_spec (row_name row0) (baseName payload)) as [_|Hne]; subst row.
    + reflexivity.
    + contradiction.
  - exact Hc1.
  - erewrite mapSource_same; [|apply tick_idle_map; assumption].
    rewrite mapSource_syncFromStore; [exact Hsrc | rewrite Hsrc; discriminate].
  - destruct (TickProofs.tick_relay_call now' ch streams c1 Hch) as [active Hcall].
    rewrite Hsel, Hres in Hcall. exists active. exact Hcall.
  - intros Hloop. rewrite (ReconcileChannel_enabled now' ch streams c1 Hch). cbn [snd].
    unfold superviseLoop. cbn [Name with_source LoopEnabled].
    rewrite selectSource_cooldown, Hc1.
    change (LoopEnabled ch) with (loop_enabled r). rewrite Hloop.
    eexists. apply in_or_app. right. left. reflexivity.
Qed.

Lemma primary_disconnect_fails_back_witness :
  mapSource (channelOfRow HookProofs.store (set_source "LOOP" HookProofs.alphaRow))
    (fst (ReconcileChannel 22
            (channelWithTokens (snd (fst (OnUnpublishHandler 20
                                       (HookProofs.publishBody "alpha-obs" "primary-secret")
                                       HookProofs.onPrimary HookProofs.store)))
                          (set_source "LOOP" HookProofs.alphaRow)
                          "primary-secret" "loop-secret")
            primaryGone
            (fst (fst (OnUnpublishHandler 20
                         (HookProofs.publishBody "alpha-obs" "primary-secret")
                         HookProofs.onPrimary HookProofs.store)))))
  = "LOOP".
Proof.
  pose proof (primary_disconnect_fails_back 20 22
                (HookProofs.publishBody "alpha-obs" "primary-secret")
                HookProofs.onPrimary HookProofs.store
                {| Action := "on_publish"; Stream := "alpha-obs";
                   Param := "?token=primary-secret"; IP := "10.0.0.7" |}
                HookProofs.alphaRow primaryGone "primary-secret" "loop-secret"
                eq_refl eq_refl eq_refl eq_refl
                ltac:(vm_compute; reflexivity)) as H.
  exact (proj1 (proj2 (proj2 (proj2 H)))).
Defined.

(** X11: a takeover followed by the primary's publish leaves the cooldown
    installed once.  After POST /api/takeover/{name} at [t1] and an accepted
    OBS publish for the same channel at [t2], the cooldown map is the one
    before the takeover with the single entry [name -> t2]; the loop
    container's stop was called by the takeover and started again by the hook,
    and every row of the store named [name] has the source OBS. *)
Theorem takeover_then_publish_one_cooldown (t1 t2 : Z) (path addr : string) (req : JSON.Body)
    (c : Controller) (db : DB) (r : ChannelRow) (payload : HookPayload) :
  let channelName := TrimSuffix (TrimPrefix path "/api/takeover/") "/" in
  channelName <> "" ->
  queryByName db channelName = Some r ->
  let taken := TakeoverHandler t1 "POST" path addr c db in
  authenticate req (snd (fst (fst taken))) = Accepted payload channelName "OBS" ->
  let published := OnPublishHandler t2 req (fst (fst (fst taken))) (snd (fst (fst taken))) in
  takeoverCooldown (fst (fst (fst published))) = <[channelName := t2]> (takeoverCooldown c)
  /\ snd taken = [EnsureContainerStopped (loopContainer channelName)]
  /\ snd published = [GoEnsureContainerStopped (loopContainer channelName)]
  /\ snd (fst published) = {| status := 200; body := "0" |}
  /\ forall row, In row (channels (snd (fst (fst published)))) ->
       row_name row = channelName -> current_active_source row = "OBS".
Proof.
  intros channelName Hname Hrow taken Hauth published.
  destruct (HookProofs.TakeoverHandler_installs t1 path addr c db r Hname Hrow)
    as (Hcool & Hcalls & _).
  fold channelName in Hcool, Hcalls. fold taken in Hcool, Hcalls.
  subst published. unfold OnPublishHandler. rewrite Hauth.
  cbn [String.eqb Ascii.eqb Bool.eqb fst snd takeoverCooldown set_takeoverCooldown Log].
  rewrite Hcool, insert_insert_eq.
  split; [reflexivity|]. split; [exact Hcalls|]. split; [reflexivity|]. split; [reflexivity|].
  intros row Hin Hn. cbn [insertAudit channels setSourceByName] in Hin.
  apply in_map_iff in Hin as (row0 & Heq & _).
  destruct (String.eqb_spec (row_name row0) channelName) as [_|Hne]; subst row.
  - reflexivity.
  - contradiction.
Qed.

Lemma takeover_then_publish_one_cooldown_witness :
  takeoverCooldown
    (fst (fst (fst (OnPublishHandler 21 (HookProofs.publishBody "alpha-obs" "primary-secret")
                      (fst (fst (fst (TakeoverHandler 20 "POST" "/api/takeover/alpha" "10.0.0.9"
                                        HookProofs.onPrimary HookProofs.store))))
                      (snd (fst (fst (TakeoverHandler 20 "POST" "/api/takeover/alpha" "10.0.0.9"
                                        HookProofs.onPrimary HookProofs.store))))))))
  = <["alpha" := 21]> (takeoverCooldown HookProofs.onPrimary).
Proof.
  exact (proj1 (takeover_then_publish_one_cooldown 20 21 "/api/takeover/alpha" "10.0.0.9"
                  (HookProofs.publishBody "alpha-obs" "primary-secret")
                  HookProofs.onPrimary HookProofs.store HookProofs.alphaRow
                  {| Action := "on_publish"; Stream := "alpha-obs";
                     Param := "?token=primary-secret"; IP := "10.0.0.7" |}
                  ltac:(vm_compute; discriminate) eq_refl
                  ltac:(vm_compute; reflexivity))).
Defined.

(** X12: a manual switch holds over the next tick.  After switch-to-loop on
    an enabled channel the channel's row is in the store with the source LOOP;
    a tick of the channel scanned from that row, whatever tokens the tick has
    made of the row's token columns, leaves the source LOOP whatever the
    streams look like (with the primary up the override blocks the
    auto-switch; with the primary down the rule does not fire), and starts no
    write of the source; after switch-to-obs the row has the source OBS and the
    tick leaves the source OBS in the same way, primary present or not. *)
Theorem manual_switch_holds_over_tick (now now' : Z) (channelID : Z) (c : Controller) (db : DB)
    (r : ChannelRow) (streams : gmap string SRSStream) (obsToken loopToken : string) :
  queryByID db channelID = Some r ->
  row_enabled r = true ->
  (let c1 := fst (fst (switchToLoop now channelID c db)) in
   let db1 := snd (fst (switchToLoop now channelID c db)) in
   let ch := channelWithTokens db1 (set_source "LOOP" r) obsToken loopToken in
   In (set_source "LOOP" r) (channels db1)
   /\ activeSourceMap c1 !! row_name r = Some "LOOP"
   /\ manualLoopOverride c1 !! row_name r = Some true
   /\ activeSourceMap (fst (ReconcileChannel now' ch streams c1)) !! row_name r = Some "LOOP"
   /\ forall id source,
        ~ In (GoUpdateActiveSource id source) (snd (ReconcileChannel now' ch streams c1)))
  /\ (let c1 := fst (fst (switchToOBS now channelID c db)) in
      let db1 := snd (fst (switchToOBS now channelID c db)) in
      let ch := channelWithTokens db1 (set_source "OBS" r) obsToken loopToken in
      In (set_source "OBS" r) (channels db1)
      /\ manualLoopOverride c1 !! row_name r = None
      /\ activeSourceMap (fst (ReconcileChannel now' ch streams c1)) !! row_name r = Some "OBS"
      /\ forall id source,
           ~ In (GoUpdateActiveSource id source) (snd (ReconcileChannel now' ch streams c1))).
Proof.
  intros Hrow Hen. split.
  - intros c1 db1 ch.
    destruct (UpdateActiveSource_row db channelID "LOOP" r Hrow) as [_ Hin].
    assert (Hc1 : activeSourceMap c1 !! row_name r = Some "LOOP"
                  /\ manualLoopOverride c1 !! row_name r = Some true).
    { subst c1. unfold switchToLoop. rewrite Hrow. cbn. rewrite !lookup_insert_eq. auto. }
    assert (Hdb1 : channels db1 = channels (UpdateActiveSource db channelID "LOOP")).
    { subst db1. unfold switchToLoop. rewrite Hrow. reflexivity. }
    destruct Hc1 as [Hmap Hov].
    assert (Hch : Enabled ch = true) by exact Hen.
    assert (Hms : mapSource ch c1 = "LOOP").
    { unfold mapSource. change (Name ch) with (row_name r). rewrite Hmap. reflexivity. }
    assert (Hsame : storeDiffers ch c1 = false).
    { unfold storeDiffers. rewrite Hms. reflexivity. }
    assert (Hidle : preempts ch streams c1 = false).
    { unfold preempts, hasOverride. change (Name ch) with (row_name r). rewrite Hov.
      cbn [default negb]. apply andb_false_r. }
    split; [rewrite Hdb1; exact Hin|].
    split; [exact Hmap|]. split; [exact Hov|]. split.
    + rewrite tick_idle_map by assumption. unfold syncFromStore. rewrite Hsame. exact Hmap.
    + rewrite (ReconcileChannel_enabled now' ch streams c1 Hch). cbn [snd].
      destruct (selectSource_idle now' ch streams c1 Hidle) as (_ & -> & _).
      cbn [app]. supervise_frame as (_ & _ & _ & Hgo). exact Hgo.
  - intros c1 db1 ch.
    destruct (UpdateActiveSource_row db channelID "OBS" r Hrow) as [_ Hin].
    assert (Hc1 : activeSourceMap c1 !! row_name r = Some "OBS"
                  /\ manualLoopOverride c1 !! row_name r = None).
    { subst c1. unfold switchToOBS. rewrite Hrow. cbn.
      rewrite lookup_insert_eq, lookup_delete_eq. auto. }
    assert (Hdb1 : channels db1 = channels (UpdateActiveSource db channelID "OBS")).
    { subst db1. unfold switchToOBS. rewrite Hrow. reflexivity. }
    destruct Hc1 as [Hmap Hov].
    assert (Hch : Enabled ch = true) by exact Hen.
    assert (Hms : mapSource ch c1 = "OBS").
    { unfold mapSource. change (Name ch) with (row_name r). rewrite Hmap. reflexivity. }
    destruct (TickProofs.no_fallback_core now' ch streams c1 Hch Hms ltac:(left; reflexivity))
      as (Hkeep & Hgo).
    split; [rewrite Hdb1; exact Hin|].
    split; [exact Hov|]. split; [rewrite Hkeep; exact Hmap | exact Hgo].
Qed.

Lemma manual_switch_holds_over_tick_witness :
  activeSourceMap
    (fst (ReconcileChannel 12
            (channelWithTokens
               (snd (fst (switchToLoop 10 1 HookProofs.onPrimary HookProofs.store)))
               (set_source "LOOP" HookProofs.alphaRow) "primary-secret" "loop-secret")
            primaryLive
            (fst (fst (switchToLoop 10 1 HookProofs.onPrimary HookProofs.store)))))
  !! "alpha" = Some "LOOP".
Proof.
  pose proof (manual_switch_holds_over_tick 10 12 1 HookProofs.onPrimary HookProofs.store
                HookProofs.alphaRow primaryLive "primary-secret" "loop-secret"
                eq_refl eq_refl) as [H _].
  exact (proj1 (proj2 (proj2 (proj2 H)))).
Defined.

End AuthProofs.

(** ** The relay's pumps, failover and shutdown *)

Module FailoverProofs.
Import Relay RelayProofs.

(** The kinds of effect that touch no process of the output side: log lines
    and sleeps. *)
Definition quiet (e : Effect) : Prop :=
  match e with
  | LogLine _ | Sleep _ => True
  | _ => False
  end.

(** The variables of the output side: transcoder, distributors, counters, and
    the processes. *)
Definition sameOutput (s s' : State) : Prop :=
  transcoderCmd s' = transcoderCmd s /\ distributors s' = distributors s
  /\ failureCounts s' = failureCounts s /\ nextPid s' = nextPid s
  /\ loopCmd s' = loopCmd s /\ obsCmd s' = obsCmd s
  /\ Destinations (currentConfig s') = Destinations (currentConfig s).

Lemma triggerFailover_mode reason s : currentMode (fst (triggerFailover reason s)) = "LOOP".
Proof.
  unfold triggerFailover. destruct (String.eqb_spec (currentMode s) "LOOP") as [Heq|_];
    [exact Heq | reflexivity].
Qed.

Lemma triggerFailover_frame reason s :
  sameOutput s (fst (triggerFailover reason s))
  /\ heap (fst (triggerFailover reason s)) = heap s
  /\ Forall quiet (snd (triggerFailover reason s)).
Proof.
  unfold triggerFailover, sameOutput. destruct (String.eqb (currentMode s) "LOOP"); cbn.
  - repeat split. constructor.
  - repeat split. repeat constructor.
Qed.

Lemma triggerFailover_source reason s :
  currentMode s <> "LOOP" ->
  SourceURL (currentConfig (fst (triggerFailover reason s))) = loopStream.
Proof.
  intros Hne. unfold triggerFailover.
  destruct (String.eqb_spec (currentMode s) "LOOP") as [Heq|_]; [contradiction | reflexivity].
Qed.

Lemma waited_frame cmd s :
  currentConfig (waited cmd s) = currentConfig s /\ currentMode (waited cmd s) = currentMode s
  /\ sameOutput s (waited cmd s)
  /\ List.length (heap (waited cmd s)) = List.length (heap s)
  /\ forall p, processOf (waited cmd s) p = processOf s p.
Proof.
  unfold waited, sameOutput. destruct (processOf s (Some cmd)) as [pid|]; [|repeat split].
  cbn. repeat split.
  - rewrite length_alter. reflexivity.
  - intros [i|]; [|reflexivity]. unfold processOf, deref. cbn [heap markExited].
    destruct (decide (i = cmd)) as [->|Hne].
    + rewrite list_lookup_alter_eq. destruct (heap s !! cmd); reflexivity.
    + rewrite list_lookup_alter_ne by congruence. reflexivity.
Qed.

(** X13: every failover of the relay is seamless.  Whichever way it is
    triggered (directly, by the exit of the OBS pump, or by a turn of the SRS
    monitor), a failover only sets the mode flag and rewrites the configured
    source: the transcoder, the distributors, their failure counters and the
    pumps' commands are as before, no signal is sent and no process or
    goroutine is started (the effects are log lines and sleeps).  After
    [triggerFailover] the mode is LOOP; if it was not LOOP before, the
    configured source is the loop stream; a second failover does nothing. *)
Theorem failover_is_seamless (reason : string) (cmd : nat)
    (srs : option (list (string * bool))) (s : State) :
  (currentMode (fst (triggerFailover reason s)) = "LOOP"
   /\ (currentMode s <> "LOOP" ->
       SourceURL (currentConfig (fst (triggerFailover reason s))) = loopStream)
   /\ sameOutput s (fst (triggerFailover reason s))
   /\ Forall quiet (snd (triggerFailover reason s))
   /\ forall reason', triggerFailover reason' (fst (triggerFailover reason s))
                      = (fst (triggerFailover reason s), []))
  /\ (sameOutput s (fst (obsPumpExit cmd s))
      /\ Forall quiet (snd (obsPumpExit cmd s))
      /\ currentMode (fst (obsPumpExit cmd s)) <> "OBS"
      /\ (currentMode s = "OBS" ->
          currentMode (fst (obsPumpExit cmd s)) = "LOOP"
          /\ SourceURL (currentConfig (fst (obsPumpExit cmd s))) = loopStream))
  /\ (sameOutput s (fst (monitorSRS srs s))
      /\ heap (fst (monitorSRS srs s)) = heap s
      /\ Forall quiet (snd (monitorSRS srs s))
      /\ (srs = None \/ SourceURL (currentConfig s) = loopStream ->
          fst (monitorSRS srs s) = s)).
Proof.
  split; [|split].
  - destruct (triggerFailover_frame reason s) as (Hout & _ & Hq).
    split; [apply triggerFailover_mode|]. split; [apply triggerFailover_source|].
    split; [exact Hout|]. split; [exact Hq|].
    intros reason'. unfold triggerFailover at 1. rewrite triggerFailover_mode. reflexivity.
  - unfold obsPumpExit.
    destruct (waited_frame cmd s) as (_ & Hmode & Hout & _).
    destruct (String.eqb_spec (currentMode (waited cmd s)) "OBS") as [Hobs|Hnot]; cbn [fst snd].
    + destruct (triggerFailover_frame "ObsProcessExit" (waited cmd s)) as (Hout' & _ & Hq).
      split; [|split; [|split]].
      * unfold sameOutput in *. intuition congruence.
      * constructor; [exact I | exact Hq].
      * rewrite triggerFailover_mode. discriminate.
      * intros _. split; [apply triggerFailover_mode|].
        apply triggerFailover_source. rewrite Hobs. discriminate.
    + split; [exact Hout|]. split; [repeat constructor|]. split; [exact Hnot|].
      intros Hwas. rewrite Hmode in Hnot. contradiction.
  - assert (Hstay : sameOutput s s /\ heap s = heap s
                    /\ Forall quiet [Sleep (1 * Second)]
                    /\ (srs = None \/ SourceURL (currentConfig s) = loopStream -> s = s)).
    { unfold sameOutput. repeat split. repeat constructor. }
    unfold monitorSRS.
    destruct (String.eqb_spec (SourceURL (currentConfig s)) loopStream) as [Hloop|Hsrc];
      [exact Hstay|].
    destruct (negb _ && negb _); [exact Hstay|].
    destruct srs as [streams|]; [|exact Hstay].
    destruct (existsb _ streams); [exact Hstay|]. cbn [fst snd].
    match goal with
    | |- context [triggerFailover ?why s] =>
        destruct (triggerFailover_frame why s) as (Hout & Hheap & Hq)
    end.
    split; [exact Hout|]. split; [exact Hheap|]. split; [constructor; [exact I | exact Hq]|].
    intros [Hnone|Heq]; [discriminate | contradiction].
Qed.

(** *** [manageDistributors]: which goroutines it starts *)

#[local] Instance Task_eq_dec : EqDecision Task.
Proof. solve_decision. Defined.

#[local] Instance Effect_eq_dec : EqDecision Effect.
Proof. solve_decision. Defined.

Definition starts (k : string) (effects : list Effect) : nat :=
  List.length (List.filter (fun e => bool_decide (e = Go (Distributor k))) effects).

Lemma starts_app k l1 l2 : starts k (l1 ++ l2) = (starts k l1 + starts k l2)%nat.
Proof. unfold starts. rewrite List.filter_app, List.length_app. reflexivity. Qed.

Lemma dropStale_effects (S : gset string) (s : State) (l : list (string * option nat))
    (acc : gmap string (option nat) * gmap string Z * list Effect) (e : Effect) :
  In e (snd (fold_left (dropStale S s) l acc)) ->
  In e (snd acc) \/ exists pid, e = Kill (- pid) "SIGTERM".
Proof.
  revert acc. induction l as [|[k0 p0] l IH]; intros acc Hin; [left; exact Hin|].
  cbn [fold_left] in Hin. apply IH in Hin as [Hin|Hkill]; [|right; exact Hkill].
  unfold dropStale in Hin. cbn [fst snd] in Hin.
  destruct (decide (k0 ∈ S)); [left; exact Hin|]. cbn [snd] in Hin.
  apply in_app_or in Hin as [Hin|Hin]; [left; exact Hin|].
  destruct (processOf s p0) as [pid|]; [|destruct Hin].
  destruct Hin as [<-|[]]. right. eexists. reflexivity.
Qed.

Lemma addMissing_effects (l : list string) (acc : gmap string (option nat) * list Effect)
    (e : Effect) :
  In e (snd (fold_left addMissing l acc)) ->
  In e (snd acc)
  \/ exists u, In u l /\ (e = LogLine ("[RELAY] Starting Dist: " +:+ u) \/ e = Go (Distributor u)).
Proof.
  revert acc. induction l as [|u l IH]; intros acc Hin; [left; exact Hin|].
  cbn [fold_left] in Hin. apply IH in Hin as [Hin|(u' & Hu' & He)].
  - unfold addMissing in Hin. destruct (fst acc !! u); [left; exact Hin|].
    cbn [snd] in Hin. apply in_app_or in Hin as [Hin|Hin]; [left; exact Hin|].
    right. exists u. split; [left; reflexivity|].
    destruct Hin as [<-|[<-|[]]]; [left | right]; reflexivity.
  - right. exists u'. split; [right; exact Hu' | exact He].
Qed.

(** 1 for a URL of the list that the map does not have, 0 otherwise. *)
Definition isNew (k : string) (l : list string) (m : gmap string (option nat)) : nat :=
  if bool_decide (k ∈ l) then match m !! k with None => 1 | Some _ => 0 end else 0.

Lemma starts_one k u effects :
  starts k (effects ++ [LogLine ("[RELAY] Starting Dist: " +:+ u)] ++ startDistributor u)
  = (starts k effects + if decide (u = k) then 1 else 0)%nat.
Proof.
  rewrite !starts_app. unfold starts at 2 3. cbn [List.filter startDistributor].
  rewrite bool_decide_eq_false_2 by discriminate.
  destruct (decide (u = k)) as [->|Hne].
  - rewrite bool_decide_eq_true_2 by reflexivity. reflexivity.
  - rewrite bool_decide_eq_false_2 by (intros [= Heq]; contradiction). reflexivity.
Qed.

Lemma addMissing_starts (k : string) (l : list string)
    (acc : gmap string (option nat) * list Effect) :
  starts k (snd (fold_left addMissing l acc)) = (starts k (snd acc) + isNew k l (fst acc))%nat.
Proof.
  revert acc. induction l as [|u l IH]; intros acc.
  - cbn [fold_left]. unfold isNew. rewrite bool_decide_eq_false_2 by (apply not_elem_of_nil). lia.
  - cbn [fold_left]. remember (addMissing acc u) as acc' eqn:Hacc. rewrite IH.
    unfold addMissing in Hacc. unfold isNew.
    destruct (decide (u = k)) as [->|Hne].
    + rewrite (bool_decide_eq_true_2 (k ∈ k :: l)) by (apply elem_of_cons; left; reflexivity).
      destruct (fst acc !! k) as [v|] eqn:Hk; subst acc'.
      * rewrite Hk. destruct (bool_decide (k ∈ l)); reflexivity.
      * cbn [fst snd]. rewrite lookup_insert_eq, starts_one.
        destruct (decide (k = k)) as [_|]; [|congruence].
        destruct (bool_decide (k ∈ l)); lia.
    + assert (Hin : bool_decide (k ∈ u :: l) = bool_decide (k ∈ l)).
      { apply bool_decide_ext. rewrite elem_of_cons. split; [|auto].
        intros [Heq|Hin]; [congruence | exact Hin]. }
      rewrite Hin.
      destruct (fst acc !! u) as [v|] eqn:Hu; subst acc'; [reflexivity|].
      cbn [fst snd]. rewrite lookup_insert_ne by exact Hne. rewrite starts_one.
      destruct (decide (u = k)) as [|_]; [contradiction|]. lia.
Qed.

Lemma dropStale_starts (k : string) (S : gset string) (s : State)
    (l : list (string * option nat)) :
  starts k (snd (fold_left (dropStale S s) l (distributors s, failureCounts s, []))) = 0%nat.
Proof.
  unfold starts. apply List.length_zero_iff_nil.
  destruct (List.filter _ _) as [|e rest] eqn:Hf; [reflexivity|]. exfalso.
  assert (Hin : In e (List.filter (fun e => bool_decide (e = Go (Distributor k)))
                        (snd (fold_left (dropStale S s) l (distributors s, failureCounts s, [])))))
    by (rewrite Hf; left; reflexivity).
  apply List.filter_In in Hin as [Hin He]. apply bool_decide_eq_true_1 in He. subst e.
  apply dropStale_effects in Hin as [[]|[pid Hkill]]. discriminate.
Qed.

(** X17: [manageDistributors] starts one distributor goroutine for each new
    destination and none for a destination it already has.  For every URL,
    the number of goroutines started for it ([starts]) is 1 when the URL is in
    the new list and not in the map, and 0 otherwise ([isNew]), however often
    the list repeats it; a destination that stays keeps the command it has (it
    is not restarted), and a new one enters the map with no command yet. *)
Theorem manageDistributors_starts_once (destinations : list string) (s : State) (k : string) :
  starts k (snd (manageDistributors destinations s)) = isNew k destinations (distributors s)
  /\ (forall cmd, In k destinations -> distributors s !! k = Some cmd ->
        distributors (fst (manageDistributors destinations s)) !! k = Some cmd)
  /\ (In k destinations -> distributors s !! k = None ->
        distributors (fst (manageDistributors destinations s)) !! k = Some None).
Proof.
  unfold manageDistributors. cbn [fst snd distributors set_failureCounts set_distributors].
  set (dropped := fold_left _ (map_to_list (distributors s)) _).
  assert (Hkeep : In k destinations -> fst (fst dropped) !! k = distributors s !! k).
  { intros Hin. subst dropped.
    match goal with
    | |- fst (fst (fold_left (dropStale ?S ?s0) ?l ?acc)) !! k = _ =>
        destruct (dropStale_keep S s0 l acc k) as [-> _]; [|reflexivity]
    end.
    left. apply In_newDestSet. exact Hin. }
  split; [|split].
  - rewrite starts_app.
    assert (Hd : starts k (snd dropped) = 0%nat) by (subst dropped; apply dropStale_starts).
    rewrite Hd, addMissing_starts. cbn [fst snd]. cbn [starts List.filter List.length].
    unfold isNew. destruct (bool_decide (k ∈ destinations)) eqn:Hin; [|reflexivity].
    apply bool_decide_eq_true_1 in Hin. apply list_elem_of_In in Hin.
    rewrite (Hkeep Hin). reflexivity.
  - intros cmd Hin Hcmd.
    destruct (addMissing_lookup destinations (fst (fst dropped), []) k) as (Hsome & _).
    cbn [fst] in Hsome. rewrite Hsome; rewrite (Hkeep Hin), Hcmd; eauto.
  - intros Hin Hnone. pose proof (Hkeep Hin) as Hk. rewrite Hnone in Hk.
    clear Hkeep. revert Hk Hin. generalize (fst (fst dropped)). generalize (@nil Effect).
    clear dropped. induction destinations as [|u l IH]; intros effects m Hk Hin; [destruct Hin|].
    cbn [fold_left]. unfold addMissing at 2. cbn [fst snd].
    destruct (decide (u = k)) as [->|Hne].
    + rewrite Hk. cbn [fst snd].
      destruct (addMissing_lookup l (<[k := None]> m,
                  effects ++ [LogLine ("[RELAY] Starting Dist: " +:+ k)] ++ startDistributor k) k)
        as (Hsome & _).
      cbn [fst] in Hsome. rewrite Hsome; rewrite lookup_insert_eq; eauto.
    + destruct Hin as [Heq|Hin]; [contradiction|].
      destruct (m !! u) eqn:Hu.
      * apply IH; assumption.
      * cbn [fst snd]. apply IH; [|exact Hin]. rewrite lookup_insert_ne by exact Hne. exact Hk.
Qed.

(** A list that names the destinations the map already has changes nothing. *)
Lemma manageDistributors_noop (destinations : list string) (s : State) :
  (forall k, is_Some (distributors s !! k) <-> In k destinations) ->
  manageDistributors destinations s = (s, []).
Proof.
  intros Hkeys. unfold manageDistributors.
  rewrite dropStale_noop.
  - cbn [fst snd]. rewrite addMissing_noop.
    + cbn [fst snd app]. f_equal. destruct s. reflexivity.
    + intros k Hin. cbn [fst]. apply Hkeys. exact Hin.
  - intros [k v] Hin. cbn [fst]. apply In_newDestSet. apply Hkeys.
    apply In_map_to_list in Hin. rewrite Hin. eauto.
Qed.

(** *** [cleanup] *)






End FailoverProofs.

(** ** The relay over its runs *)

Module RelayRunProofs.
Import Relay RelayProofs FailoverProofs.

Section Run.

Variable startOK : list string -> bool.

(** The states of a run in which the steps are taken one after the other:
    the state [main] starts from, then configuration changes, halves of the
    pump, transcoder and distributor goroutines, and turns of the monitor, in
    any order, each run to its end before the next begins. *)
Inductive reachable : State -> Prop :=
| reach_start : reachable initialState
| reach_config cfg s :
    reachable s -> reachable (fst (handleConfigChange startOK cfg s))
| reach_update method req s :
    reachable s -> reachable (fst (fst (handleUpdate startOK method req s)))
| reach_obs_launch url s :
    reachable s -> reachable (fst (fst (obsPumpLaunch startOK url s)))
| reach_obs_exit cmd s :
    reachable s -> reachable (fst (obsPumpExit cmd s))
| reach_loop_launch s :
    reachable s -> reachable (fst (fst (loopPumpLaunch startOK s)))
| reach_loop_exit cmd s :
    reachable s -> reachable (fst (loopPumpExit cmd s))
| reach_transcoder_exit cmd s :
    reachable s -> reachable (fst (transcoderExit startOK cmd s))
| reach_dist_launch url s :
    reachable s -> reachable (fst (fst (distributorLaunch startOK url s)))
| reach_dist_exit url cmd elapsed s :
    reachable s -> reachable (fst (distributorExit url cmd elapsed s))
| reach_monitor srs s :
    reachable s -> reachable (fst (monitorSRS srs s)).

(** A started child that has not been waited for. *)
Definition live (c : Cmd) : Prop := is_Some (Process c) /\ ProcessState c = false.

(** Every live transcoder process is the one [transcoderCmd] names. *)
Definition single (h : list Cmd) (t : option nat) : Prop :=
  forall i c, h !! i = Some c -> Args c = transcoderArgs -> live c -> t = Some i.

Definition modeOK (m : string) : Prop := m = "LOOP" \/ m = "OBS".

Definition invariant (s : State) : Prop :=
  modeOK (currentMode s) /\ single (heap s) (transcoderCmd s).

Lemma single_append (h : list Cmd) (t : option nat) (c : Cmd) :
  Args c <> transcoderArgs -> single h t -> single (h ++ [c]) t.
Proof.
  intros Hargs Hs i c' Hi Ha Hl.
  destruct (decide (i < List.length h)%nat) as [Hlt|Hge].
  - rewrite lookup_app_l in Hi by exact Hlt. eapply Hs; eassumption.
  - rewrite lookup_app_r in Hi by lia.
    destruct (i - List.length h)%nat as [|n]; cbn in Hi; [|discriminate].
    injection Hi as <-. contradiction.
Qed.

Lemma single_exited (h : list Cmd) (t : option nat) (cmd : nat) :
  single h t ->
  single (alter (fun c => {| Args := Args c; Setpgid := Setpgid c; Process := Process c;
                               ProcessState := true |})
                cmd h) t.
Proof.
  intros Hs i c Hi Ha Hl. rewrite list_lookup_alter in Hi.
  destruct (decide (cmd = i)) as [->|Hne].
  - destruct (h !! i) as [c0|]; [|discriminate]. cbn in Hi. injection Hi as <-.
    destruct Hl as [_ Hl]. discriminate.
  - eapply Hs; eassumption.
Qed.

Lemma single_waited (cmd : nat) (s : State) :
  single (heap s) (transcoderCmd s) ->
  single (heap (waited cmd s)) (transcoderCmd (waited cmd s)).
Proof.
  intros Hs. unfold waited. destruct (processOf s (Some cmd)); [|exact Hs].
  cbn [heap transcoderCmd markExited]. apply single_exited. exact Hs.
Qed.

(** After the wait, the command waited for is not live. *)
Lemma waited_not_live (cmd : nat) (s : State) (c : Cmd) :
  heap (waited cmd s) !! cmd = Some c -> ~ live c.
Proof.
  unfold waited, processOf, deref. destruct (heap s !! cmd) as [c0|] eqn:Hc0.
  - destruct (Process c0) as [pid|] eqn:Hp.
    + cbn [heap markExited]. rewrite list_lookup_alter_eq, Hc0. cbn.
      intros [= <-] [_ Hl]. discriminate.
    + rewrite Hc0. intros [= <-] [[pid Hpid] _]. congruence.
  - rewrite Hc0. discriminate.
Qed.

Lemma single_startTranscoderProcess (s : State) :
  single (heap s) (transcoderCmd s) ->
  single (heap (fst (startTranscoderProcess startOK s)))
         (transcoderCmd (fst (startTranscoderProcess startOK s))).
Proof.
  intros Hs. unfold startTranscoderProcess, spawnTranscoder.
  destruct (processOf s (transcoderCmd s)) as [pid|] eqn:Hp; [exact Hs|].
  cbn [fst heap transcoderCmd startCmd]. intros i c Hi Ha Hl.
  destruct (decide (i < List.length (heap s))%nat) as [Hlt|Hge].
  - rewrite lookup_app_l in Hi by exact Hlt. exfalso.
    pose proof (Hs i c Hi Ha Hl) as Ht. rewrite Ht in Hp.
    unfold processOf, deref in Hp. rewrite Hi in Hp. destruct Hl as [[p Hl] _]. congruence.
  - rewrite lookup_app_r in Hi by lia.
    destruct (i - List.length (heap s))%nat as [|n] eqn:Hn; cbn in Hi; [|discriminate].
    f_equal. lia.
Qed.

Lemma transcoderArgs_length : List.length transcoderArgs = 40%nat.
Proof. reflexivity. Qed.

Lemma startCmd_other (setpgid : bool) (args : list string) (s : State) :
  List.length args <> 40%nat ->
  single (heap s) (transcoderCmd s) ->
  single (heap (fst (fst (startCmd startOK setpgid args s))))
         (transcoderCmd (fst (fst (startCmd startOK setpgid args s)))).
Proof.
  intros Hlen Hs. cbn [startCmd fst heap transcoderCmd]. apply single_append; [|exact Hs].
  cbn [Args]. intros Heq. rewrite Heq in Hlen. apply Hlen. reflexivity.
Qed.

Lemma invariant_triggerFailover reason s :
  invariant s -> invariant (fst (triggerFailover reason s)).
Proof.
  intros [_ Hs]. split.
  - left. apply triggerFailover_mode.
  - destruct (triggerFailover_frame reason s) as ((-> & _) & -> & _). exact Hs.
Qed.

Lemma invariant_config cfg s :
  invariant s -> invariant (fst (handleConfigChange startOK cfg s)).
Proof.
  intros [Hm Hs]. unfold handleConfigChange. cbn [fst].
  set (sourced := applySource _ _ cfg (set_currentConfig cfg s)).
  assert (Hsrc : modeOK (currentMode (fst sourced))
                 /\ single (heap (fst sourced)) (transcoderCmd (fst sourced))).
  { subst sourced. unfold applySource.
    destruct (negb _); [|split; assumption].
    destruct (String.eqb _ loopStream); cbn [fst]; split; try assumption.
    left. reflexivity. }
  clearbody sourced. destruct Hsrc as [Hm' Hs'].
  destruct (manageDistributors_frame (Destinations cfg) (fst (ensureTranscoder startOK (fst sourced))))
    as (_ & Hmode & _ & _ & Ht & Hh & _).
  unfold invariant. rewrite Hmode, Ht, Hh.
  destruct (ensureTranscoder_frame startOK (fst sourced)) as (_ & -> & _).
  split; [exact Hm'|].
  unfold ensureTranscoder.
  destruct (isRunning (fst sourced) (transcoderCmd (fst sourced))); cbn [negb]; [exact Hs'|].
  apply single_startTranscoderProcess. exact Hs'.
Qed.

Lemma invariant_obsPumpLaunch url s :
  invariant s -> invariant (fst (fst (obsPumpLaunch startOK url s))).
Proof.
  intros [Hm Hs]. unfold obsPumpLaunch.
  pose proof (startCmd_other true (obsPumpArgs url) s ltac:(cbn; lia) Hs) as Hs1.
  destruct (snd (startCmd startOK true (obsPumpArgs url) s)) as [pid|]; cbn [fst].
  - destruct (String.eqb _ url); cbn [fst]; split; try exact Hs1; [right; reflexivity | exact Hm].
  - apply invariant_triggerFailover. split; [exact Hm | exact Hs1].
Qed.

Lemma invariant_waited cmd s : invariant s -> invariant (waited cmd s).
Proof.
  intros [Hm Hs]. split; [|apply single_waited; exact Hs].
  destruct (waited_frame cmd s) as (_ & -> & _). exact Hm.
Qed.

Lemma invariant_transcoderExit cmd s :
  invariant s -> invariant (fst (transcoderExit startOK cmd s)).
Proof.
  intros Hinv. apply (invariant_waited cmd) in Hinv as [Hm Hs]. unfold transcoderExit. cbn [fst].
  set (s1 := waited cmd s) in *.
  assert (Hs2 : invariant (if bool_decide (transcoderCmd s1 = Some cmd)
                           then set_transcoderCmd None s1 else s1)).
  { destruct (bool_decide (transcoderCmd s1 = Some cmd)) eqn:Hcur; [|split; assumption].
    apply bool_decide_eq_true_1 in Hcur. split; [exact Hm|].
    cbn [heap transcoderCmd set_transcoderCmd]. intros i c Hi Ha Hl. exfalso.
    pose proof (Hs i c Hi Ha Hl) as Ht. rewrite Hcur in Ht. injection Ht as <-.
    exact (waited_not_live cmd s c Hi Hl). }
  destruct Hs2 as [Hm2 Hs2]. split.
  - unfold startTranscoderProcess, spawnTranscoder. destruct (processOf _ _); [exact Hm2|]. exact Hm2.
  - apply single_startTranscoderProcess. exact Hs2.
Qed.

Lemma invariant_distributorLaunch url s :
  invariant s -> invariant (fst (fst (distributorLaunch startOK url s))).
Proof.
  intros [Hm Hs]. unfold distributorLaunch.
  pose proof (startCmd_other true (distributorArgs url) s ltac:(cbn; lia) Hs) as Hs1.
  unfold startCmd in *. cbn [fst snd] in *.
  destruct (startOK (distributorArgs url)); cbn [fst]; split; assumption.
Qed.

Lemma invariant_distributorExit url cmd elapsed s :
  invariant s -> invariant (fst (distributorExit url cmd elapsed s)).
Proof.
  intros [Hm Hs]. unfold distributorExit.
  destruct (60 * Second <? elapsed); destruct (bool_decide _); cbn [fst]; split;
    try exact Hm; apply single_exited; exact Hs.
Qed.

Lemma invariant_loopPumpLaunch s :
  invariant s -> invariant (fst (fst (loopPumpLaunch startOK s))).
Proof.
  intros [Hm Hs]. unfold loopPumpLaunch.
  pose proof (startCmd_other false loopPumpArgs s ltac:(cbn; lia) Hs) as Hs1.
  destruct (snd (startCmd startOK false loopPumpArgs s)); cbn [fst]; split; assumption.
Qed.

Lemma reachable_invariant s : reachable s -> invariant s.
Proof.
  induction 1 as [ | cfg s _ IH | method req s _ IH | url s _ IH | cmd s _ IH | s _ IH
                   | cmd s _ IH | cmd s _ IH | url s _ IH | url cmd elapsed s _ IH
                   | srs s _ IH ].
  - split; [left; reflexivity|]. intros i c Hi. destruct i; discriminate.
  - apply invariant_config. exact IH.
  - unfold handleUpdate. destruct (negb _); cbn [fst]; [exact IH|].
    apply invariant_config. exact IH.
  - apply invariant_obsPumpLaunch. exact IH.
  - unfold obsPumpExit. apply (invariant_waited cmd) in IH.
    destruct (String.eqb _ "OBS"); cbn [fst]; [|exact IH].
    apply invariant_triggerFailover. exact IH.
  - apply invariant_loopPumpLaunch. exact IH.
  - apply invariant_waited. exact IH.
  - apply invariant_transcoderExit. exact IH.
  - apply invariant_distributorLaunch. exact IH.
  - apply invariant_distributorExit. exact IH.
  - unfold monitorSRS.
    repeat (match goal with
            | |- context [if ?b then _ else _] => destruct b
            | |- context [match srs with _ => _ end] => destruct srs
            end; cbn [fst]; try exact IH).
    apply invariant_triggerFailover. exact IH.
Qed.

(** X14: one writer to the pipe.  In every state the relay can reach the
    mode flag is LOOP or OBS, so of a chunk read by the loop pump and a chunk
    read by the OBS pump exactly one is sent on to the transcoder's pipe: the
    loop pump's in mode LOOP, the OBS pump's in mode OBS, never both and never
    neither. *)
Theorem exactly_one_pump_forwards (s : State) (data : list ascii) :
  reachable s ->
  (currentMode s = "LOOP" \/ currentMode s = "OBS")
  /\ ((loopPumpForward data s = Some data /\ obsPumpForward data s = None)
      \/ (loopPumpForward data s = None /\ obsPumpForward data s = Some data)).
Proof.
  intros Hr. destruct (reachable_invariant s Hr) as [Hm _]. split; [exact Hm|].
  unfold loopPumpForward, obsPumpForward. destruct Hm as [-> | ->]; [left | right];
    split; reflexivity.
Qed.

(** X15: one transcoder, unless two starts overlap.  While the handler and
    the goroutines run one after the other, a transcoder process that was
    started and has not been waited for is the one [transcoderCmd] names, so
    at most one exists: a call of [startTranscoderProcess] that follows a
    successful one starts nothing.  But the function holds no lock between
    its test and its start: when two calls (two requests, or a request and the
    goroutine that waited for the last transcoder) both make the test in a
    state without a transcoder before either has started one, each starts a
    transcoder; both processes run, and [transcoderCmd] names the second
    only. *)
Theorem one_transcoder_unless_starts_overlap (s : State) :
  (reachable s ->
   forall i j ci cj,
     heap s !! i = Some ci -> Args ci = transcoderArgs -> live ci ->
     heap s !! j = Some cj -> Args cj = transcoderArgs -> live cj ->
     i = j /\ transcoderCmd s = Some i)
  /\ (processOf s (transcoderCmd s) = None -> startOK transcoderArgs = true ->
      let first := spawnTranscoder startOK s in
      let second := spawnTranscoder startOK (fst first) in
      let n := List.length (heap s) in
      startTranscoderProcess startOK s = first
      /\ startTranscoderProcess startOK (fst first) = (fst first, [])
      /\ (exists c1 c2,
         heap (fst second) !! n = Some c1 /\ heap (fst second) !! S n = Some c2
         /\ Args c1 = transcoderArgs /\ Args c2 = transcoderArgs /\ live c1 /\ live c2)
      /\ transcoderCmd (fst first) = Some n
      /\ transcoderCmd (fst second) = Some (S n)
      /\ In (Start transcoderArgs (nextPid s)) (snd first)
      /\ In (Start transcoderArgs (nextPid s + 1)) (snd second)).
Proof.
  split.
  - intros Hr i j ci cj Hi Hai Hli Hj Haj Hlj. destruct (reachable_invariant s Hr) as [_ Hs].
    pose proof (Hs i ci Hi Hai Hli) as Hti. pose proof (Hs j cj Hj Haj Hlj) as Htj.
    split; [congruence | exact Hti].
  - intros Hnone Hok first second n.
    split; [unfold startTranscoderProcess; rewrite Hnone; reflexivity|].
    split.
    { unfold startTranscoderProcess. subst first.
      unfold spawnTranscoder, startCmd, processOf, deref. rewrite Hok.
      cbn [fst snd heap transcoderCmd]. rewrite list_lookup_middle by reflexivity.
      reflexivity. }
    subst first second n.
    unfold spawnTranscoder, startCmd, started. rewrite Hok.
    cbn [fst snd heap transcoderCmd nextPid].
    split; [|split; [reflexivity|split; [|split]]].
    + eexists _, _.
      split.
      { rewrite lookup_app_l by (rewrite List.length_app; cbn [List.length]; lia).
        apply list_lookup_middle. reflexivity. }
      split.
      { apply list_lookup_middle. rewrite List.length_app. cbn [List.length]. lia. }
      cbn [Args Process ProcessState]. unfold live. cbn [Process ProcessState].
      repeat split; eauto.
    + rewrite List.length_app. cbn [List.length]. f_equal. lia.
    + cbn [app]. right. left. reflexivity.
    + cbn [app]. right. left. reflexivity.
Qed.

(** *** Which children lead a process group *)

















(** X16: a change of source is seamless for the output side.  When the
    transcoder is settled and the new configuration lists the destinations the
    relay already distributes to, applying it leaves the transcoder, every
    distributor, the failure counters and the process heap as they are; the
    effects are log lines, and for a source other than the loop stream the
    replacement of the OBS pump (SIGKILL to the old pump, a sleep, the new
    pump's goroutine): no SIGTERM, no started process, no distributor or
    transcoder goroutine. *)
Theorem source_switch_is_seamless (cfg : Config) (s : State) :
  transcoderSettled s ->
  (forall k, is_Some (distributors s !! k) <-> In k (Destinations cfg)) ->
  let result := handleConfigChange startOK cfg s in
  currentConfig (fst result) = cfg
  /\ transcoderCmd (fst result) = transcoderCmd s
  /\ distributors (fst result) = distributors s
  /\ failureCounts (fst result) = failureCounts s
  /\ heap (fst result) = heap s
  /\ Forall (fun e => quiet e \/ e = Go (ObsPump (SourceURL cfg))
                      \/ exists pid, e = Kill (- pid) "SIGKILL") (snd result)
  /\ (SourceURL cfg = SourceURL (currentConfig s) -> result = (set_currentConfig cfg s, []))
  /\ (SourceURL cfg <> SourceURL (currentConfig s) -> SourceURL cfg = loopStream ->
      currentMode (fst result) = "LOOP").
Proof.
  intros Hset Hkeys result. subst result. unfold handleConfigChange.
  set (sourced := applySource _ _ cfg (set_currentConfig cfg s)).
  destruct (applySource_frame (negb (String.eqb (SourceURL cfg) (SourceURL (currentConfig s))))
              (SourceURL (currentConfig s)) cfg (set_currentConfig cfg s))
    as (Hc & _ & _ & Ht & Hh & _ & Hd & Hf).
  fold sourced in Hc, Ht, Hh, Hd, Hf. cbv zeta in Hc, Ht, Hh, Hd, Hf.
  assert (Hset' : transcoderSettled (fst sourced)).
  { unfold transcoderSettled, isRunning, processOf, deref in *. rewrite Ht, Hh. exact Hset. }
  rewrite (ensureTranscoder_settled startOK (fst sourced) Hset'). cbn [fst snd app].
  rewrite manageDistributors_noop by (intros k; rewrite Hd; apply Hkeys).
  cbn [fst snd]. rewrite List.app_nil_r.
  split; [exact Hc|]. split; [exact Ht|]. split; [exact Hd|]. split; [exact Hf|].
  split; [exact Hh|]. subst sourced. unfold applySource.
  destruct (String.eqb_spec (SourceURL cfg) (SourceURL (currentConfig s))) as [Heq|Hne];
    cbn [negb fst snd].
  - split; [constructor|]. split; [reflexivity | contradiction].
  - destruct (String.eqb_spec (SourceURL cfg) loopStream) as [Hloop|Hobs]; cbn [fst snd].
    + split; [repeat constructor; left; exact I|].
      split; [contradiction | reflexivity].
    + split; [|split; [contradiction | intros _ Hl; contradiction]].
      constructor; [left; exact I|]. unfold startOBSPump. cbn [snd].
      destruct (processOf _ _) as [pid|]; cbn [app].
      * constructor; [right; right; eauto|]. constructor; [left; exact I|].
        constructor; [right; left; reflexivity | constructor].
      * constructor; [right; left; reflexivity | constructor].
Qed.

End Run.

End RelayRunProofs.

(** Runs of the relay used below: a relay that is given the primary of channel
    alpha as its source, and whose OBS pump has started. *)
Module RelayRuns.
Import Relay.

Definition primaryConfig : Config :=
  {| SourceURL := "rtmp://srs:1935/live/alpha-obs"; Destinations := ["rtmp://dst/live/key"];
     VideoBitrate := 4500; AudioBitrate := 128; KeyframeInterval := 2 |}.

Definition configured : State := fst (handleConfigChange (fun _ => true) primaryConfig initialState).

Definition onAir : State :=
  fst (fst (obsPumpLaunch (fun _ => true) "rtmp://srs:1935/live/alpha-obs" configured)).

End RelayRuns.

Module RelayRunWitnesses.
Import Relay RelayProofs FailoverProofs RelayRunProofs RelayRuns.

Lemma exactly_one_pump_forwards_witness :
  loopPumpForward ["x"%char] onAir = None /\ obsPumpForward ["x"%char] onAir = Some ["x"%char].
Proof.
  destruct (exactly_one_pump_forwards (fun _ => true) onAir ["x"%char]
              ltac:(apply reach_obs_launch; apply reach_config; apply reach_start))
    as [_ [[Hloop _]|Hobs]].
  - vm_compute in Hloop. discriminate.
  - exact Hobs.
Defined.

Lemma one_transcoder_unless_starts_overlap_witness :
  transcoderCmd (fst (spawnTranscoder (fun _ => true) initialState)) = Some 0%nat
  /\ transcoderCmd (fst (spawnTranscoder (fun _ => true)
                            (fst (spawnTranscoder (fun _ => true) initialState))))
     = Some 1%nat
  /\ transcoderCmd configured = Some 0%nat.
Proof.
  pose proof (one_transcoder_unless_starts_overlap (fun _ => true) initialState) as [_ Hrace].
  specialize (Hrace eq_refl eq_refl). cbv zeta in Hrace.
  destruct Hrace as (_ & _ & _ & Hfirst & Hsecond & _).
  split; [exact Hfirst|]. split; [exact Hsecond|].
  pose proof (one_transcoder_unless_starts_overlap (fun _ => true) configured) as [Hserial _].
  exact (proj2 (Hserial ltac:(apply reach_config; apply reach_start) 0%nat 0%nat
                  {| Args := transcoderArgs; Setpgid := true; Process := Some 2;
                     ProcessState := false |}
                  {| Args := transcoderArgs; Setpgid := true; Process := Some 2;
                     ProcessState := false |}
                  eq_refl eq_refl (conj (ex_intro _ 2 eq_refl) eq_refl)
                  eq_refl eq_refl (conj (ex_intro _ 2 eq_refl) eq_refl))).
Defined.



Lemma source_switch_is_seamless_witness :
  distributors (fst (handleConfigChange (fun _ => true) primaryConfig failing))
  = distributors failing
  /\ heap (fst (handleConfigChange (fun _ => true) primaryConfig failing)) = heap failing.
Proof.
  pose proof (source_switch_is_seamless (fun _ => true) primaryConfig failing
                ltac:(left; reflexivity)) as H.
  cbv zeta in H.
  assert (Hkeys : forall k, is_Some (distributors failing !! k)
                            <-> In k (Destinations primaryConfig)).
  { intros k. cbn [distributors failing Destinations primaryConfig].
    destruct (decide (k = "rtmp://dst/live/key")) as [->|Hne].
    - split; [left; reflexivity | intros _; rewrite lookup_singleton_eq; eauto].
    - rewrite lookup_singleton_ne by congruence. split; [intros [? [=]]|].
      intros [Heq|[]]. congruence. }
  specialize (H Hkeys).
  split; [exact (proj1 (proj2 (proj2 H))) | exact (proj1 (proj2 (proj2 (proj2 (proj2 H)))))].
Defined.

End RelayRunWitnesses.

(** ** The pumps and the transcoder's watchdog *)

Module PumpProofs.
Import Relay RelayProofs FailoverProofs.

Section Pumps.

Variable startOK : list string -> bool.

Lemma ensureTranscoder_effects (s : State) (e : Effect) :
  In e (snd (ensureTranscoder startOK s)) ->
  e = LogLine "[RELAY] Starting Transcoder (Pipe -> SRS Clean)"
  \/ (exists pid, e = Start transcoderArgs pid)
  \/ exists cmd, e = Go (TranscoderWait cmd).
Proof.
  unfold ensureTranscoder, startTranscoderProcess, spawnTranscoder.
  destruct (negb _); [|intros []].
  destruct (processOf s (transcoderCmd s)); [intros []|].
  unfold startCmd, started. cbn [fst snd].
  destruct (startOK transcoderArgs); cbn [app]; intros Hin.
  - destruct Hin as [<-|[<-|[<-|[]]]]; eauto.
  - destruct Hin as [<-|[<-|[]]]; eauto.
Qed.

Lemma manageDistributors_effects (destinations : list string) (s : State) (e : Effect) :
  In e (snd (manageDistributors destinations s)) ->
  (exists pid, e = Kill (- pid) "SIGTERM")
  \/ exists u, In u destinations
               /\ (e = LogLine ("[RELAY] Starting Dist: " +:+ u) \/ e = Go (Distributor u)).
Proof.
  unfold manageDistributors. cbn [snd]. intros Hin.
  apply in_app_or in Hin as [Hin|Hin].
  - apply dropStale_effects in Hin as [[]|Hkill]. left. exact Hkill.
  - apply addMissing_effects in Hin as [[]|Hadd]. right. exact Hadd.
Qed.

(** X18: whether a repeated update brings the OBS pump back.  When the OBS
    pump exits while it is the active source, the failover rewrites the
    configured source to the loop stream, so the controller's next update with
    the primary's URL is a change of source and starts the pump again.  When
    the pump's process cannot be started while the mode is LOOP, the
    configured source stays the primary's URL, so a repeated update is no
    change of source and starts no pump: the relay stays on the loop until the
    source URL differs. *)
Theorem repeated_update_and_the_pump (cfg : Config) (cmd : nat) (s : State) :
  SourceURL cfg <> loopStream ->
  (currentMode s = "OBS" ->
     currentMode (fst (obsPumpExit cmd s)) = "LOOP"
     /\ SourceURL (currentConfig (fst (obsPumpExit cmd s))) = loopStream
     /\ In (Go (ObsPump (SourceURL cfg)))
           (snd (handleConfigChange startOK cfg (fst (obsPumpExit cmd s)))))
  /\ (startOK (obsPumpArgs (SourceURL cfg)) = false ->
      currentMode s = "LOOP" -> currentConfig s = cfg ->
      currentMode (fst (fst (obsPumpLaunch startOK (SourceURL cfg) s))) = "LOOP"
      /\ currentConfig (fst (fst (obsPumpLaunch startOK (SourceURL cfg) s))) = cfg
      /\ obsCmd (fst (fst (obsPumpLaunch startOK (SourceURL cfg) s))) = obsCmd s
      /\ forall url,
           ~ In (Go (ObsPump url))
                (snd (handleConfigChange startOK cfg
                        (fst (fst (obsPumpLaunch startOK (SourceURL cfg) s)))))).
Proof.
  intros Hsrc. split.
  - intros Hobs.
    assert (Hexit : currentMode (fst (obsPumpExit cmd s)) = "LOOP"
                    /\ SourceURL (currentConfig (fst (obsPumpExit cmd s))) = loopStream).
    { unfold obsPumpExit. destruct (waited_frame cmd s) as (_ & Hmode & _).
      rewrite Hmode, Hobs. cbn [String.eqb Ascii.eqb Bool.eqb fst].
      split; [apply triggerFailover_mode|].
      apply triggerFailover_source. rewrite Hmode, Hobs. discriminate. }
    destruct Hexit as [Hmode Hurl]. split; [exact Hmode|]. split; [exact Hurl|].
    unfold handleConfigChange. cbn [snd]. rewrite Hurl.
    destruct (String.eqb_spec (SourceURL cfg) loopStream) as [Heq|_]; [contradiction|].
    apply in_or_app. left. unfold applySource. cbn [negb].
    destruct (String.eqb_spec (SourceURL cfg) loopStream) as [Heq|_]; [contradiction|].
    cbn [snd]. right. unfold startOBSPump. cbn [snd]. apply in_or_app. right. left. reflexivity.
  - intros Hfail Hloop Hcfg.
    assert (Hlaunch : fst (fst (obsPumpLaunch startOK (SourceURL cfg) s))
                      = fst (fst (startCmd startOK true (obsPumpArgs (SourceURL cfg)) s))).
    { unfold obsPumpLaunch. unfold startCmd at 1. cbn [snd]. rewrite Hfail.
      unfold triggerFailover. unfold startCmd at 1. cbn [fst currentMode]. rewrite Hloop.
      reflexivity. }
    rewrite Hlaunch.
    remember (fst (fst (startCmd startOK true (obsPumpArgs (SourceURL cfg)) s))) as s1 eqn:Hs1.
    assert (Hfacts : currentMode s1 = "LOOP" /\ currentConfig s1 = cfg /\ obsCmd s1 = obsCmd s).
    { subst s1. cbn [startCmd fst currentMode currentConfig obsCmd]. auto. }
    clear Hs1 Hlaunch. destruct Hfacts as (Hmode1 & Hcfg1 & Hobs1).
    split; [exact Hmode1|]. split; [exact Hcfg1|]. split; [exact Hobs1|].
    intros url Hin. unfold handleConfigChange in Hin. cbn [snd] in Hin.
    rewrite Hcfg1, String.eqb_refl in Hin. cbn [negb] in Hin.
    apply in_app_or in Hin as [Hin|Hin]; [destruct Hin|].
    apply in_app_or in Hin as [Hin|Hin].
    + apply ensureTranscoder_effects in Hin as [Heq|[[pid Heq]|[c Heq]]]; discriminate.
    + apply manageDistributors_effects in Hin as [[pid Heq]|(u & _ & [Heq|Heq])]; discriminate.
Qed.

Lemma startTranscoderProcess_fresh (s : State) :
  processOf s (transcoderCmd s) = None ->
  transcoderCmd (fst (startTranscoderProcess startOK s)) = Some (List.length (heap s))
  /\ isRunning (fst (startTranscoderProcess startOK s))
               (transcoderCmd (fst (startTranscoderProcess startOK s))) = true
  /\ snd (startTranscoderProcess startOK s)
     = [LogLine "[RELAY] Starting Transcoder (Pipe -> SRS Clean)"]
       ++ started transcoderArgs (if startOK transcoderArgs then Some (nextPid s) else None)
       ++ [Go (TranscoderWait (List.length (heap s)))].
Proof.
  intros Hnone. unfold startTranscoderProcess, spawnTranscoder. rewrite Hnone.
  cbn [fst snd startCmd transcoderCmd]. split; [reflexivity|]. split; [|reflexivity].
  unfold isRunning, deref. cbn [heap]. rewrite list_lookup_middle by reflexivity. reflexivity.
Qed.

(** X20: the transcoder is restarted by the goroutine that waited for it, and
    only by it.  When the goroutine of the current transcoder command runs
    after the command's exit, it waits 500 ms and starts a new transcoder,
    which becomes the current command and counts as running; the goroutine of
    a command that is no longer the current one starts nothing while the
    current one has a process; and a configuration change never replaces a
    transcoder command that has a process, exited or not. *)
Theorem transcoder_restarted_by_its_waiter (cmd : nat) (cfg : Config) (s : State) :
  (transcoderCmd s = Some cmd ->
     transcoderCmd (fst (transcoderExit startOK cmd s)) = Some (List.length (heap s))
     /\ isRunning (fst (transcoderExit startOK cmd s))
                  (transcoderCmd (fst (transcoderExit startOK cmd s))) = true
     /\ snd (transcoderExit startOK cmd s)
        = [ LogLine "[RELAY] Transcoder exited"; Sleep (500 * Millisecond);
            LogLine "[RELAY] Starting Transcoder (Pipe -> SRS Clean)" ]
          ++ started transcoderArgs (if startOK transcoderArgs then Some (nextPid s) else None)
          ++ [Go (TranscoderWait (List.length (heap s)))])
  /\ (transcoderCmd s <> Some cmd -> is_Some (processOf s (transcoderCmd s)) ->
      transcoderExit startOK cmd s
      = (waited cmd s, [LogLine "[RELAY] Transcoder exited"; Sleep (500 * Millisecond)]))
  /\ (is_Some (processOf s (transcoderCmd s)) ->
      transcoderCmd (fst (handleConfigChange startOK cfg s)) = transcoderCmd s
      /\ forall pid, ~ In (Start transcoderArgs pid) (snd (handleConfigChange startOK cfg s))).
Proof.
  destruct (waited_frame cmd s) as (_ & _ & (Ht & _ & _ & Hpid & _) & Hlen & Hproc).
  split; [|split].
  - intros Hcur. unfold transcoderExit. rewrite Ht, Hcur.
    rewrite bool_decide_eq_true_2 by reflexivity. cbn [fst snd].
    destruct (startTranscoderProcess_fresh (set_transcoderCmd None (waited cmd s)) eq_refl)
      as (Hnew & Hrun & Heff).
    cbn [heap nextPid set_transcoderCmd] in Hnew, Heff. rewrite Hlen in Hnew, Heff.
    rewrite Hpid in Heff. split; [exact Hnew|]. split; [exact Hrun|].
    rewrite Heff. reflexivity.
  - intros Hstale [pid Hp]. unfold transcoderExit. rewrite Ht.
    rewrite bool_decide_eq_false_2 by exact Hstale.
    unfold startTranscoderProcess, spawnTranscoder. rewrite Ht, Hproc, Hp. reflexivity.
  - intros [pid Hp].
    assert (Hkeep : forall s0, transcoderCmd s0 = transcoderCmd s -> heap s0 = heap s ->
                      ensureTranscoder startOK s0 = (s0, [])).
    { intros s0 Ht0 Hh0. apply ensureTranscoder_settled. right.
      unfold processOf, deref in *. rewrite Ht0, Hh0, Hp. eauto. }
    unfold handleConfigChange.
    set (sourced := applySource _ _ cfg (set_currentConfig cfg s)).
    destruct (applySource_frame (negb (String.eqb (SourceURL cfg) (SourceURL (currentConfig s))))
                (SourceURL (currentConfig s)) cfg (set_currentConfig cfg s))
      as (_ & _ & _ & Ht1 & Hh1 & _).
    fold sourced in Ht1, Hh1. cbv zeta in Ht1, Hh1.
    rewrite (Hkeep (fst sourced) Ht1 Hh1). cbn [fst snd app]. split.
    + destruct (manageDistributors_frame (Destinations cfg) (fst sourced))
        as (_ & _ & _ & _ & -> & _). exact Ht1.
    + intros pid' Hin. apply in_app_or in Hin as [Hin|Hin].
      * subst sourced. unfold applySource, startOBSPump, switchMode in Hin.
        repeat (match type of Hin with
                | context [if ?b then _ else _] => destruct b
                | context [match ?o with Some _ => _ | None => _ end] => destruct o
                end; cbn [fst snd app] in Hin).
        all: repeat (destruct Hin as [Hin|Hin]; [discriminate|]); destruct Hin.
      * apply manageDistributors_effects in Hin as [[p Heq]|(u & _ & [Heq|Heq])]; discriminate.
Qed.

End Pumps.

(** *** The stream the monitor watches *)

Lemma Split_nonempty (s : string) (sep : ascii) : Split s sep <> [].
Proof.
  destruct s as [|c rest]; cbn [Split]; [discriminate|].
  destruct (Ascii.eqb c sep); [discriminate|].
  destruct (Split rest sep); discriminate.
Qed.

Lemma Split_no_sep (s : string) (sep : ascii) :
  ~ In sep (list_ascii_of_string s) -> Split s sep = [s].
Proof.
  induction s as [|c rest IH]; intros Hno; [reflexivity|].
  cbn [Split]. destruct (Ascii.eqb_spec c sep) as [->|_].
  - exfalso. apply Hno. left. reflexivity.
  - rewrite IH by (intros Hin; apply Hno; right; exact Hin). reflexivity.
Qed.

Lemma last_cons_nonempty {A : Type} (a d : A) (l : list A) :
  l <> [] -> List.last (a :: l) d = List.last l d.
Proof. destruct l; [contradiction | reflexivity]. Qed.

Lemma Split_after_sep (p name : string) (sep : ascii) :
  (2 <= List.length (Split (p +:+ String sep name) sep))%nat
  /\ List.last (Split (p +:+ String sep name) sep) EmptyString
     = List.last (Split name sep) EmptyString.
Proof.
  induction p as [|c p [IHlen IHlast]].
  - change (EmptyString +:+ String sep name) with (String sep name).
    cbn [Split]. rewrite Ascii.eqb_refl. pose proof (Split_nonempty name sep) as Hne.
    split; [|apply last_cons_nonempty; exact Hne].
    destruct (Split name sep); [contradiction | cbn; lia].
  - change (String c p +:+ String sep name) with (String c (p +:+ String sep name)).
    cbn [Split]. destruct (Ascii.eqb c sep).
    + split; [cbn [List.length]; lia|].
      rewrite last_cons_nonempty by (apply Split_nonempty). exact IHlast.
    + destruct (Split (p +:+ String sep name) sep) as [|part [|part' parts]];
        cbn [List.length] in IHlen; try lia.
      split; [cbn [List.length]; lia|]. rewrite <- IHlast. reflexivity.
Qed.

(** X21: the monitor watches the stream the source URL names.  For a
    configured source [rtmp://srs:1935/live/{name}] ([name] without a slash and
    other than the loop stream's), a turn of the monitor that gets an answer
    from SRS leaves the relay as it is when the answer lists a stream of that
    name as actively published, and fails over (mode LOOP, and the configured
    source becomes the loop stream if the mode was OBS) when it does not; a
    turn that gets no answer changes nothing. *)
Theorem monitor_watches_source_stream (name : string) (streams : list (string * bool))
    (s : State) :
  SourceURL (currentConfig s) = "rtmp://srs:1935/live/" +:+ name ->
  ~ In "/"%char (list_ascii_of_string name) ->
  name <> "waheguru" ->
  (In (name, true) streams -> fst (monitorSRS (Some streams) s) = s)
  /\ (~ In (name, true) streams ->
      currentMode (fst (monitorSRS (Some streams) s)) = "LOOP"
      /\ (currentMode s = "OBS" ->
          SourceURL (currentConfig (fst (monitorSRS (Some streams) s))) = loopStream))
  /\ fst (monitorSRS None s) = s.
Proof.
  intros Hsrc Hslash Hname.
  assert (Hlast : List.last (Split (SourceURL (currentConfig s)) "/"%char) EmptyString = name).
  { rewrite Hsrc.
    change ("rtmp://srs:1935/live/" +:+ name)
      with ("rtmp://srs:1935/live" +:+ String "/"%char name).
    destruct (Split_after_sep "rtmp://srs:1935/live" name "/"%char) as [_ ->].
    rewrite Split_no_sep by exact Hslash. reflexivity. }
  assert (Hnotloop : String.eqb (SourceURL (currentConfig s)) loopStream = false).
  { apply String.eqb_neq. rewrite Hsrc. unfold loopStream. intros Heq.
    apply Hname. injection Heq as Heq. exact Heq. }
  assert (Hsrs : Contains (SourceURL (currentConfig s)) "srs:1935" = true).
  { rewrite Hsrc. reflexivity. }
  unfold monitorSRS. rewrite Hnotloop, Hsrs, Hlast. cbn [negb andb].
  split; [|split; [|reflexivity]].
  - intros Hin.
    assert (Hex : existsb (fun st => String.eqb (fst st) name && snd st) streams = true).
    { apply List.existsb_exists. exists (name, true). split; [exact Hin|].
      cbn [fst snd]. rewrite String.eqb_refl. reflexivity. }
    rewrite Hex. reflexivity.
  - intros Hout.
    assert (Hex : existsb (fun st => String.eqb (fst st) name && snd st) streams = false).
    { destruct (existsb _ streams) eqn:Hex; [|reflexivity]. exfalso. apply Hout.
      apply List.existsb_exists in Hex as ([n active] & Hin & Hm). cbn [fst snd] in Hm.
      apply andb_prop in Hm as [Hn Ha]. apply String.eqb_eq in Hn. subst n active. exact Hin. }
    rewrite Hex. cbn [fst]. split; [apply triggerFailover_mode|].
    intros Hobs. apply triggerFailover_source. rewrite Hobs. discriminate.
Qed.

Lemma monitor_watches_source_stream_witness :
  currentMode (fst (monitorSRS (Some [("alpha", true)]) RelayRuns.onAir)) = "LOOP".
Proof.
  exact (proj1 (proj1 (proj2 (monitor_watches_source_stream "alpha-obs" [("alpha", true)]
                                RelayRuns.onAir eq_refl
                                ltac:(vm_compute; intuition discriminate)
                                ltac:(discriminate)))
                      ltac:(vm_compute; intuition discriminate))).
Defined.

Lemma repeated_update_and_the_pump_witness :
  In (Go (ObsPump "rtmp://srs:1935/live/alpha-obs"))
     (snd (handleConfigChange (fun _ => true) RelayRuns.primaryConfig
             (fst (obsPumpExit 1 RelayRuns.onAir)))).
Proof.
  exact (proj2 (proj2 (proj1 (repeated_update_and_the_pump (fun _ => true)
                                RelayRuns.primaryConfig 1 RelayRuns.onAir
                                ltac:(vm_compute; discriminate))
                             ltac:(vm_compute; reflexivity)))).
Defined.

End PumpProofs.

(** ** The container supervisor (main.go:508-797) *)

Module SupervisorProofs.
Import Controller Supervisor.

Lemma ContainerCreate_fresh (d : Docker) (name : string) (k : Container) :
  d !! name = None -> ContainerCreate d name k = Some (<[name := k]> d).
Proof. intros Hnone. unfold ContainerCreate. rewrite Hnone. reflexivity. Qed.

Lemma startLoop_fresh now cfg enc ch name c (d : Docker) :
  d !! name = None ->
  startLoop now cfg enc ch name c d
  = (Log now "info" "docker" ("Starting loop container for " +:+ Name ch) c,
     <[name := running (loopConfig cfg enc ch)]> d).
Proof.
  intros Hnone. unfold startLoop. rewrite (ContainerCreate_fresh d name _ Hnone).
  cbv beta iota. unfold ContainerStart. rewrite alter_insert_eq. reflexivity.
Qed.

Lemma EnsureContainerRunning_running now cfg enc ch name c (d : Docker) info :
  d !! name = Some info -> Running info = true ->
  EnsureContainerRunning now cfg enc ch name c d = (c, d).
Proof.
  intros Hinfo Hrun. unfold EnsureContainerRunning, ContainerInspect. rewrite Hinfo, Hrun.
  reflexivity.
Qed.

Lemma EnsureContainerRunning_starts now cfg enc ch name c (d : Docker) :
  (forall info, d !! name = Some info -> Running info = false) ->
  EnsureContainerRunning now cfg enc ch name c d
  = (Log now "info" "docker" ("Starting loop container for " +:+ Name ch) c,
     <[name := running (loopConfig cfg enc ch)]> d).
Proof.
  intros Hdown. unfold EnsureContainerRunning, ContainerInspect.
  destruct (d !! name) as [info|] eqn:Hinfo.
  - rewrite (Hdown info eq_refl). unfold ContainerRemove.
    rewrite startLoop_fresh by apply lookup_delete_eq.
    rewrite insert_delete_eq. reflexivity.
  - apply startLoop_fresh. exact Hinfo.
Qed.

Lemma EnsureContainerRunning_up now cfg enc ch name c (d : Docker) :
  exists k, snd (EnsureContainerRunning now cfg enc ch name c d) !! name = Some k
            /\ Running k = true.
Proof.
  destruct (d !! name) as [info|] eqn:Hinfo; [destruct (Running info) eqn:Hrun|].
  - rewrite (EnsureContainerRunning_running now cfg enc ch name c d info Hinfo Hrun). eauto.
  - rewrite EnsureContainerRunning_starts
      by (intros info' Hi; rewrite Hinfo in Hi; injection Hi as <-; exact Hrun).
    cbn [snd]. rewrite lookup_insert_eq. eauto.
  - rewrite EnsureContainerRunning_starts by (intros info' Hi; rewrite Hinfo in Hi; discriminate).
    cbn [snd]. rewrite lookup_insert_eq. eauto.
Qed.

(** X22: the loop supervisor is idempotent and keeps one running container
    per name.  After [EnsureContainerRunning] a container of the given name
    exists and runs, and no other container is touched.  A container that was
    running is left exactly as it is (no restart, no log line); otherwise the
    container is the loop publisher's, created afresh from the channel's
    settings (the video bit rate 4500 when the channel has none) and started.
    Calling it again changes nothing. *)
Theorem loop_container_kept_running (now : Z) (cfg : Settings) (enc : Encoding) (ch : Channel)
    (name : string) (c : Controller) (d : Docker) :
  let result := EnsureContainerRunning now cfg enc ch name c d in
  (exists k, snd result !! name = Some k /\ Running k = true)
  /\ (forall other, other <> name -> snd result !! other = d !! other)
  /\ (forall info, d !! name = Some info -> Running info = true -> result = (c, d))
  /\ ((forall info, d !! name = Some info -> Running info = false) ->
      snd result = <[name := running (loopConfig cfg enc ch)]> d
      /\ fst result = Log now "info" "docker" ("Starting loop container for " +:+ Name ch) c)
  /\ (VideoBitrate enc <= 0 -> In "VIDEO_BITRATE=4500" (Env (loopConfig cfg enc ch)))
  /\ (forall now', EnsureContainerRunning now' cfg enc ch name (fst result) (snd result)
                   = result).
Proof.
  intros result. subst result.
  destruct (d !! name) as [info|] eqn:Hinfo; [destruct (Running info) eqn:Hrun|].
  - rewrite (EnsureContainerRunning_running now cfg enc ch name c d info Hinfo Hrun).
    cbn [fst snd]. split; [eauto|]. split; [reflexivity|]. split; [reflexivity|].
    split; [intros Hdown; rewrite (Hdown info eq_refl) in Hrun; discriminate|].
    split; [|intros now'; apply (EnsureContainerRunning_running now' cfg enc ch name c d info);
              assumption].
    intros Hv. unfold loopConfig, orDefault. cbn [Env].
    destruct (VideoBitrate enc <=? 0) eqn:Hle; [|apply Z.leb_gt in Hle; lia].
    right. right. right. left. reflexivity.
  - assert (Hdown : forall info', Some info = Some info' -> Running info' = false)
      by (intros info' [= <-]; exact Hrun).
    rewrite (EnsureContainerRunning_starts now cfg enc ch name c d) by (rewrite Hinfo; exact Hdown).
    cbn [fst snd]. split; [rewrite lookup_insert_eq; eauto|].
    split; [intros other Hne; apply lookup_insert_ne; congruence|].
    split; [intros info' [= <-] Hup; congruence|]. split; [auto|]. split.
    + intros Hv. unfold loopConfig, orDefault. cbn [Env].
      destruct (VideoBitrate enc <=? 0) eqn:Hle; [|apply Z.leb_gt in Hle; lia].
      right. right. right. left. reflexivity.
    + intros now'. eapply EnsureContainerRunning_running; [apply lookup_insert_eq | reflexivity].
  - assert (Hdown : forall info', None = Some info' -> Running info' = false)
      by (intros info' [=]).
    rewrite (EnsureContainerRunning_starts now cfg enc ch name c d) by (rewrite Hinfo; exact Hdown).
    cbn [fst snd]. split; [rewrite lookup_insert_eq; eauto|].
    split; [intros other Hne; apply lookup_insert_ne; congruence|].
    split; [intros info' [=]|]. split; [auto|]. split.
    + intros Hv. unfold loopConfig, orDefault. cbn [Env].
      destruct (VideoBitrate enc <=? 0) eqn:Hle; [|apply Z.leb_gt in Hle; lia].
      right. right. right. left. reflexivity.
    + intros now'. eapply EnsureContainerRunning_running; [apply lookup_insert_eq | reflexivity].
Qed.

(** *** The relay's container *)

Definition marked (status : string) (dests : list Destination) (row : Destination)
  : Destination :=
  if existsb (fun dest => negb (String.eqb (dest_Status dest) status)
                          && (dest_ID row =? dest_ID dest)) dests
  then set_status status row else row.

Lemma markAll_cons (status : string) (dest : Destination) (rest : list Destination) (db : DB) :
  markAll status (dest :: rest) db
  = markAll status rest
      (if negb (String.eqb (dest_Status dest) status)
       then UpdateDestinationStatus db (dest_ID dest) status else db).
Proof. reflexivity. Qed.

Lemma markAll_rows (status : string) (dests : list Destination) (db : DB) :
  channels (markAll status dests db) = channels db
  /\ audit_logs (markAll status dests db) = audit_logs db
  /\ destinations (markAll status dests db) = map (marked status dests) (destinations db).
Proof.
  revert db. induction dests as [|dest rest IH]; intros db.
  - cbn. rewrite List.map_id. auto.
  - rewrite markAll_cons.
    match goal with
    | |- context [markAll status rest ?db1] => destruct (IH db1) as (-> & -> & ->)
    end.
    destruct (negb (String.eqb (dest_Status dest) status)) eqn:Hdiff.
    + cbn [channels audit_logs destinations UpdateDestinationStatus].
      split; [reflexivity|]. split; [reflexivity|].
      rewrite List.map_map. apply map_ext. intros row. unfold marked. cbn [existsb].
      rewrite Hdiff. cbn [andb].
      destruct (dest_ID row =? dest_ID dest) eqn:Hid; cbn [orb]; [|reflexivity].
      cbn [set_status dest_ID]. destruct (existsb _ rest); reflexivity.
    + split; [reflexivity|]. split; [reflexivity|].
      apply map_ext. intros row. unfold marked. cbn [existsb]. rewrite Hdiff. reflexivity.
Qed.

Lemma marked_status (status : string) (dests : list Destination) (row : Destination) :
  In row dests -> dest_Status (marked status dests row) = status.
Proof.
  intros Hin. unfold marked.
  destruct (existsb _ dests) eqn:Hex; [reflexivity|].
  destruct (String.eqb_spec (dest_Status row) status) as [Heq|Hne]; [exact Heq|]. exfalso.
  assert (Hyes : existsb (fun dest => negb (String.eqb (dest_Status dest) status)
                                       && (dest_ID row =? dest_ID dest)) dests = true).
  { apply List.existsb_exists. exists row. split; [exact Hin|].
    rewrite Z.eqb_refl, andb_true_r. apply negb_true_iff. apply String.eqb_neq. exact Hne. }
  congruence.
Qed.

Lemma marked_cases (status : string) (dests : list Destination) (row : Destination) :
  marked status dests row = row \/ marked status dests row = set_status status row.
Proof. unfold marked. destruct (existsb _ dests); auto. Qed.

Section WithRelay.

Variable answer : Request -> option Z.

Lemma ReconcileDestinations_stops now cfg enc ch streamActive c (d : Docker) db :
  streamActive = false
  \/ (forall dest, In dest (Destinations ch) -> dest_Enabled dest = false) ->
  ReconcileDestinations answer now cfg enc ch streamActive c d db
  = Some (c, delete (relayContainer (Name ch)) d,
          markAll "DISCONNECTED" (Destinations ch) db, []).
Proof.
  intros Hstop.
  assert (Hcond : negb streamActive
                  || (List.length (List.filter dest_Enabled (Destinations ch)) =? 0)%nat = true).
  { destruct Hstop as [-> | Hnone]; [reflexivity|]. apply orb_true_iff. right.
    apply Nat.eqb_eq. apply List.length_zero_iff_nil.
    destruct (List.filter dest_Enabled (Destinations ch)) as [|dest rest] eqn:Hf; [reflexivity|].
    assert (Hin : In dest (List.filter dest_Enabled (Destinations ch)))
      by (rewrite Hf; left; reflexivity).
    apply List.filter_In in Hin as [Hin Hen]. rewrite (Hnone dest Hin) in Hen. discriminate. }
  unfold ReconcileDestinations. rewrite Hcond. reflexivity.
Qed.

(** X23: no stream or no enabled destination stops the relay.  When the
    tick reports the channel's stream as not active, or the channel has no
    enabled destination, [ReconcileDestinations] removes the relay's
    container, posts nothing, leaves the controller and the channel rows as
    they are, and marks the channel's destinations DISCONNECTED: every row of
    the store that is among the channel's destinations has that status
    afterwards, and every other row is unchanged or marked the same way. *)
Theorem relay_stopped_without_stream (now : Z) (cfg : Settings) (enc : Encoding)
    (ch : Channel) (streamActive : bool) (c : Controller) (d : Docker) (db : DB) :
  streamActive = false
  \/ (forall dest, In dest (Destinations ch) -> dest_Enabled dest = false) ->
  exists db',
    ReconcileDestinations answer now cfg enc ch streamActive c d db
    = Some (c, delete (relayContainer (Name ch)) d, db', [])
    /\ channels db' = channels db
    /\ destinations db' = map (marked "DISCONNECTED" (Destinations ch)) (destinations db)
    /\ (forall row, In row (destinations db) -> In row (Destinations ch) ->
          dest_Status (marked "DISCONNECTED" (Destinations ch) row) = "DISCONNECTED")
    /\ (forall row, marked "DISCONNECTED" (Destinations ch) row = row
                    \/ marked "DISCONNECTED" (Destinations ch) row
                       = set_status "DISCONNECTED" row).
Proof.
  intros Hstop.
  exists (markAll "DISCONNECTED" (Destinations ch) db).
  destruct (markAll_rows "DISCONNECTED" (Destinations ch) db) as (Hc & _ & Hd).
  split; [apply ReconcileDestinations_stops; exact Hstop|].
  split; [exact Hc|]. split; [exact Hd|].
  split; [intros row _ Hin; apply marked_status; exact Hin | apply marked_cases].
Qed.

Lemma EnsureRelayRunning_some now cfg enc ch destinations name c (d : Docker) db :
  destinations <> [] ->
  is_Some (EnsureRelayRunning answer now cfg enc ch destinations name c d db).
Proof.
  intros Hne. unfold EnsureRelayRunning.
  destruct (snd (inspectRelay now cfg name c d)) as [info|].
  - destruct (negb (Running info)); [eauto|].
    destruct (answer _) as [code|]; [destruct (code =? 200)|]; eauto.
  - destruct destinations as [|dest rest]; [contradiction|]. cbn [map].
    destruct (ContainerCreate _ _ _); eauto.
Qed.

Lemma ReconcileDestinations_some now cfg enc ch streamActive c (d : Docker) db :
  is_Some (ReconcileDestinations answer now cfg enc ch streamActive c d db).
Proof.
  unfold ReconcileDestinations.
  destruct (negb streamActive || _) eqn:Hcond; [eauto|].
  apply EnsureRelayRunning_some. intros Hnil. rewrite Hnil in Hcond. cbn in Hcond.
  rewrite orb_true_r in Hcond. discriminate.
Qed.

Lemma perform_some now cfg encoding call c (d : Docker) db :
  is_Some (perform answer now cfg encoding call c d db).
Proof. destruct call; cbn [perform]; eauto. apply ReconcileDestinations_some. Qed.

Lemma performAll_some now cfg encoding calls : forall c (d : Docker) db,
  is_Some (performAll answer now cfg encoding calls c d db).
Proof.
  induction calls as [|call rest IH]; intros c d db; cbn [performAll]; [eauto|].
  destruct (perform_some now cfg encoding call c d db) as [[[[c1 d1] db1] reqs] ->].
  destruct (IH c1 d1 db1) as [[[[c2 d2] db2] reqs'] ->]. eauto.
Qed.

(** X24: the supervisor never runs into the index panic.  On its own,
    [EnsureRelayRunning] panics at [destUrls[0]] when it is given no
    destination and has to create the container; [ReconcileDestinations]
    calls it only with a destination, so it always returns, and so does the
    whole sequence of calls of a tick, for every channel, stream map and state
    of the controller, of Docker and of the store. *)
Theorem supervisor_never_panics (now : Z) (cfg : Settings) (encoding : Z -> Encoding)
    (ch : Channel) (streams : gmap string SRSStream) (streamActive : bool)
    (c : Controller) (d : Docker) (db : DB) :
  is_Some (ReconcileDestinations answer now cfg (encoding (ID ch)) ch streamActive c d db)
  /\ is_Some (performAll answer now cfg encoding (snd (ReconcileChannel now ch streams c))
                (fst (ReconcileChannel now ch streams c)) d db)
  /\ (d !! relayContainer (Name ch) = None ->
      EnsureRelayRunning answer now cfg (encoding (ID ch)) ch [] (relayContainer (Name ch)) c d db
      = None).
Proof.
  split; [apply ReconcileDestinations_some|]. split; [apply performAll_some|].
  intros Hnone. unfold EnsureRelayRunning, inspectRelay, ContainerInspect. rewrite Hnone.
  reflexivity.
Qed.

(** What the calls of a tick do to a container no call names. *)
Lemma loopContainer_ne_relayContainer (a b : string) : loopContainer a <> relayContainer b.
Proof. unfold loopContainer, relayContainer. discriminate. Qed.

Lemma ReconcileDestinations_other now cfg enc ch streamActive c (d : Docker) db
    c' d' db' reqs other :
  ReconcileDestinations answer now cfg enc ch streamActive c d db = Some (c', d', db', reqs) ->
  other <> relayContainer (Name ch) ->
  d' !! other = d !! other.
Proof.
  unfold ReconcileDestinations. intros Hrun Hne.
  destruct (negb streamActive || _).
  { injection Hrun as <- <- <- <-. unfold EnsureContainerStopped, ContainerRemove.
    apply lookup_delete_ne. congruence. }
  unfold EnsureRelayRunning, inspectRelay, ContainerInspect, ContainerRemove,
    ContainerCreate, ContainerStart in Hrun.
  destruct (d !! relayContainer (Name ch)) as [info|] eqn:Hinfo.
  - destruct (negb (String.eqb (Image info) (RelayImage cfg))); cbn [fst snd] in Hrun.
    + destruct (map destURL _) as [|firstURL rest]; [discriminate|].
      rewrite lookup_delete_eq in Hrun. injection Hrun as <- <- <- <-.
      rewrite lookup_alter_ne by congruence. rewrite lookup_insert_ne by congruence.
      apply lookup_delete_ne. congruence.
    + destruct (negb (Running info)).
      * injection Hrun as <- <- <- <-. apply lookup_alter_ne. congruence.
      * destruct (answer _) as [code|]; [destruct (code =? 200)|];
          injection Hrun as <- <- <- <-; reflexivity.
  - cbn [fst snd] in Hrun.
    destruct (map destURL _) as [|firstURL rest]; [discriminate|].
    rewrite Hinfo in Hrun. injection Hrun as <- <- <- <-.
    rewrite lookup_alter_ne by congruence. apply lookup_insert_ne. congruence.
Qed.

(** X26: what a tick leaves of the loop container.  Carrying out the calls
    of one tick: for a disabled channel neither the loop container nor the
    relay container exists afterwards, and nothing is posted; for an enabled
    channel inside its takeover cooldown no loop container exists afterwards;
    for an enabled channel with the loop enabled and no cooldown entry the
    loop container exists and runs afterwards, whether or not it did
    before. *)
Theorem tick_supervises_containers (now : Z) (cfg : Settings) (encoding : Z -> Encoding)
    (ch : Channel) (streams : gmap string SRSStream) (c : Controller) (d : Docker) (db : DB) :
  exists c' d' db' requests,
    performAll answer now cfg encoding (snd (ReconcileChannel now ch streams c))
      (fst (ReconcileChannel now ch streams c)) d db = Some (c', d', db', requests)
    /\ (Enabled ch = false ->
        d' !! loopContainer (Name ch) = None /\ d' !! relayContainer (Name ch) = None
        /\ requests = [])
    /\ (forall t, Enabled ch = true -> takeoverCooldown c !! Name ch = Some t ->
          now - t < failoverTimeout ch -> d' !! loopContainer (Name ch) = None)
    /\ (Enabled ch = true -> takeoverCooldown c !! Name ch = None -> LoopEnabled ch = true ->
        exists k, d' !! loopContainer (Name ch) = Some k /\ Running k = true).
Proof.
  destruct (performAll_some now cfg encoding (snd (ReconcileChannel now ch streams c))
              (fst (ReconcileChannel now ch streams c)) d db)
    as [[[[c' d'] db'] requests] Hrun].
  exists c', d', db', requests. split; [exact Hrun|]. split; [|split].
  - intros Hdis. rewrite ReconcilerProofs.ReconcileChannel_disabled in Hrun by exact Hdis.
    cbn [fst snd performAll perform] in Hrun.
    rewrite ReconcileDestinations_stops in Hrun by (left; reflexivity).
    injection Hrun as <- <- <- <-.
    split; [|split; [apply lookup_delete_eq | reflexivity]].
    rewrite lookup_delete_ne by (intros Heq; symmetry in Heq;
                                 exact (loopContainer_ne_relayContainer _ _ Heq)).
    apply lookup_delete_eq.
  - intros t Hen Hcool Hin.
    rewrite (ReconcilerProofs.ReconcileChannel_enabled now ch streams c Hen) in Hrun.
    cbn [fst snd] in Hrun.
    erewrite ReconcilerProofs.superviseLoop_no_start in Hrun;
      [| rewrite ReconcilerProofs.selectSource_cooldown; exact Hcool | exact Hin].
    cbn [fst snd] in Hrun.
    remember (snd (fst (selectSource now ch streams c))) as selected eqn:Hsel.
    assert (Hcalls : forall call, In call selected -> call = GoUpdateActiveSource (ID ch) "OBS").
    { intros call Hcall. subst selected.
      eapply ReconcilerProofs.selectSource_calls. exact Hcall. }
    clear Hsel. revert Hrun. generalize (fst (fst (selectSource now ch streams c))).
    revert d db c' d' db' requests.
    induction selected as [|call rest IH]; intros d db c' d' db' requests c0 Hrun.
    + cbn [app performAll perform] in Hrun.
      destruct (ReconcileDestinations _ _ _ _ _ _ _ _ _) as [[[[c1 d1] db1] reqs]|] eqn:Hrd;
        [|discriminate].
      injection Hrun as <- <- <- <-.
      rewrite (ReconcileDestinations_other _ _ _ _ _ _ _ _ _ _ _ _ _ Hrd)
        by apply loopContainer_ne_relayContainer.
      apply lookup_delete_eq.
    + rewrite (Hcalls call ltac:(left; reflexivity)) in Hrun.
      cbn [app performAll perform] in Hrun.
      destruct (performAll _ _ _ _ (rest ++ _) _ _ _) as [[[[c2 d2] db2] reqs]|] eqn:Hrest;
        [|discriminate].
      injection Hrun as <- <- <- <-.
      eapply IH; [|exact Hrest]. intros call' Hin'. apply Hcalls. right. exact Hin'.
  - intros Hen Hcool Hloop.
    rewrite (ReconcilerProofs.ReconcileChannel_enabled now ch streams c Hen) in Hrun.
    cbn [fst snd] in Hrun.
    unfold superviseLoop in Hrun. cbn [Name with_source LoopEnabled] in Hrun.
    rewrite ReconcilerProofs.selectSource_cooldown, Hcool, Hloop in Hrun.
    cbn [fst snd] in Hrun.
    remember (snd (fst (selectSource now ch streams c))) as selected eqn:Hsel.
    assert (Hcalls : forall call, In call selected -> call = GoUpdateActiveSource (ID ch) "OBS").
    { intros call Hcall. subst selected.
      eapply ReconcilerProofs.selectSource_calls. exact Hcall. }
    clear Hsel. revert Hrun. generalize (fst (fst (selectSource now ch streams c))).
    revert d db c' d' db' requests.
    induction selected as [|call rest IH]; intros d db c' d' db' requests c0 Hrun.
    + cbn [app performAll perform] in Hrun.
      destruct (ReconcileDestinations _ _ _ _ _ _ _ _ _) as [[[[c1 d1] db1] reqs]|] eqn:Hrd;
        [|discriminate].
      injection Hrun as <- <- <- <-.
      rewrite (ReconcileDestinations_other _ _ _ _ _ _ _ _ _ _ _ _ _ Hrd)
        by apply loopContainer_ne_relayContainer.
      apply EnsureContainerRunning_up.
    + rewrite (Hcalls call ltac:(left; reflexivity)) in Hrun.
      cbn [app performAll perform] in Hrun.
      destruct (performAll _ _ _ _ (rest ++ _) _ _ _) as [[[[c2 d2] db2] reqs]|] eqn:Hrest;
        [|discriminate].
      injection Hrun as <- <- <- <-.
      eapply IH; [|exact Hrest]. intros call' Hin'. apply Hcalls. right. exact Hin'.
Qed.

End WithRelay.

End SupervisorProofs.

Module SupervisorWitnesses.
Import Controller Supervisor SupervisorProofs.

Definition youtube : Destination :=
  {| dest_ID := 7; dest_ChannelID := 1; dest_Name := "YouTube";
     RTMPURL := "rtmp://a.rtmp.youtube.com/live2"; StreamKey := "abcd-1234";
     dest_Enabled := true; dest_Status := "CONNECTED" |}.

Definition withYoutube : Channel :=
  {| ID := 1; Name := "alpha"; OBSToken := "primary-secret"; LoopToken := "loop-secret";
     LoopEnabled := false; Enabled := true; ActiveSource := "LOOP";
     OBSOverrideEnabled := true; FailoverTimeout := 10; Destinations := [youtube];
     ObsSourceStream := EmptyString |}.

Definition deployment : Settings :=
  {| DockerNetwork := "livestream-net"; LoopImage := "local/loop-publisher:latest";
     RelayImage := "local/relay-manager:latest"; MediaHostPath := "./media" |}.

Definition plain : Encoding :=
  {| LoopSourceFile := "alpha.mp4"; KeyframeInterval := 2; VideoBitrate := 0;
     AudioBitrate := 128; OutputResolution := EmptyString |}.

Definition withRelay : Docker :=
  {[ "relay-alpha" := running (relayConfig deployment withYoutube "rtmp://a.rtmp.youtube.com/live2/abcd-1234") ]}.

Definition destinationStore : DB :=
  {| channels := [HookProofs.alphaRow]; destinations := [youtube]; audit_logs := [] |}.

Lemma relay_stopped_without_stream_witness :
  exists db',
    ReconcileDestinations (fun _ => None) 30 deployment plain withYoutube false
      ReconcilerProofs.fresh withRelay destinationStore
    = Some (ReconcilerProofs.fresh, delete "relay-alpha" withRelay, db', [])
    /\ map dest_Status (destinations db') = ["DISCONNECTED"].
Proof.
  destruct (relay_stopped_without_stream (fun _ => None) 30 deployment plain withYoutube false
              ReconcilerProofs.fresh withRelay destinationStore ltac:(left; reflexivity))
    as (db' & Hrun & _ & Hrows & _).
  exists db'. split; [exact Hrun|]. rewrite Hrows. reflexivity.
Defined.

End SupervisorWitnesses.

(** ** From the controller's store to the relay and to the publish hook *)

Module EndToEndProofs.
Import Controller.

(** *** The update the controller posts, as the relay decodes it *)

Lemma storeInt_in_range (n old : Z) :
  -9223372036854775808 <= n <= 9223372036854775807 ->
  JSON.storeInt (JSON.Number (JSON.IntLit n)) old = (n, false).
Proof.
  intros [Hlo Hhi]. unfold JSON.storeInt.
  destruct (-9223372036854775808 <=? n) eqn:H1; [|apply Z.leb_gt in H1; lia].
  destruct (n <=? 9223372036854775807) eqn:H2; [reflexivity | apply Z.leb_gt in H2; lia].
Qed.

Lemma storeStringSlice_strings (urls old : list string) :
  JSON.storeStringSlice (JSON.Array (map JSON.Str urls)) old = (urls, false).
Proof.
  unfold JSON.storeStringSlice. f_equal.
  - rewrite List.map_map. cbn [JSON.storeString fst]. apply List.map_id.
  - induction urls as [|u rest IH]; [reflexivity|]. cbn [map existsb JSON.storeString snd orb].
    exact IH.
Qed.

Lemma orDefault_range (value fallback : Z) :
  0 < fallback <= 9223372036854775807 -> value <= 9223372036854775807 ->
  -9223372036854775808 <= Supervisor.orDefault value fallback <= 9223372036854775807.
Proof.
  intros Hf Hv. unfold Supervisor.orDefault.
  destruct (value <=? 0) eqn:Hle; [lia | apply Z.leb_gt in Hle; lia].
Qed.

Lemma storeConfigField_audio_bitrate cfg failed v :
  Relay.storeConfigField (cfg, failed) ("audio_bitrate", v)
  = ({| Relay.SourceURL := Relay.SourceURL cfg; Relay.Destinations := Relay.Destinations cfg;
        Relay.VideoBitrate := Relay.VideoBitrate cfg;
        Relay.AudioBitrate := fst (JSON.storeInt v (Relay.AudioBitrate cfg));
        Relay.KeyframeInterval := Relay.KeyframeInterval cfg |},
     failed || snd (JSON.storeInt v (Relay.AudioBitrate cfg))).
Proof. reflexivity. Qed.

Lemma storeConfigField_destinations cfg failed v :
  Relay.storeConfigField (cfg, failed) ("destinations", v)
  = ({| Relay.SourceURL := Relay.SourceURL cfg;
        Relay.Destinations := fst (JSON.storeStringSlice v (Relay.Destinations cfg));
        Relay.VideoBitrate := Relay.VideoBitrate cfg;
        Relay.AudioBitrate := Relay.AudioBitrate cfg;
        Relay.KeyframeInterval := Relay.KeyframeInterval cfg |},
     failed || snd (JSON.storeStringSlice v (Relay.Destinations cfg))).
Proof. reflexivity. Qed.

Lemma storeConfigField_keyframe_interval cfg failed v :
  Relay.storeConfigField (cfg, failed) ("keyframe_interval", v)
  = ({| Relay.SourceURL := Relay.SourceURL cfg; Relay.Destinations := Relay.Destinations cfg;
        Relay.VideoBitrate := Relay.VideoBitrate cfg;
        Relay.AudioBitrate := Relay.AudioBitrate cfg;
        Relay.KeyframeInterval := fst (JSON.storeInt v (Relay.KeyframeInterval cfg)) |},
     failed || snd (JSON.storeInt v (Relay.KeyframeInterval cfg))).
Proof. reflexivity. Qed.

Lemma storeConfigField_source_url cfg failed v :
  Relay.storeConfigField (cfg, failed) ("source_url", v)
  = ({| Relay.SourceURL := fst (JSON.storeString v (Relay.SourceURL cfg));
        Relay.Destinations := Relay.Destinations cfg;
        Relay.VideoBitrate := Relay.VideoBitrate cfg;
        Relay.AudioBitrate := Relay.AudioBitrate cfg;
        Relay.KeyframeInterval := Relay.KeyframeInterval cfg |},
     failed || snd (JSON.storeString v (Relay.SourceURL cfg))).
Proof. reflexivity. Qed.

Lemma storeConfigField_video_bitrate cfg failed v :
  Relay.storeConfigField (cfg, failed) ("video_bitrate", v)
  = ({| Relay.SourceURL := Relay.SourceURL cfg; Relay.Destinations := Relay.Destinations cfg;
        Relay.VideoBitrate := fst (JSON.storeInt v (Relay.VideoBitrate cfg));
        Relay.AudioBitrate := Relay.AudioBitrate cfg;
        Relay.KeyframeInterval := Relay.KeyframeInterval cfg |},
     failed || snd (JSON.storeInt v (Relay.VideoBitrate cfg))).
Proof. reflexivity. Qed.

Lemma decode_relayPayload (enc : Supervisor.Encoding) (ch : Channel)
    (dests : list Destination) (raw : string) :
  dests <> [] ->
  Supervisor.VideoBitrate enc <= 9223372036854775807 ->
  Supervisor.AudioBitrate enc <= 9223372036854775807 ->
  Supervisor.KeyframeInterval enc <= 9223372036854775807 ->
  Relay.decodeConfig {| JSON.raw := raw;
                        JSON.scanned := Some (Supervisor.relayPayload enc ch dests);
                        JSON.trailing := false |}
  = ({| Relay.SourceURL := Supervisor.relaySource ch;
        Relay.Destinations := map Supervisor.destURL dests;
        Relay.VideoBitrate := Supervisor.orDefault (Supervisor.VideoBitrate enc) 4500;
        Relay.AudioBitrate := Supervisor.orDefault (Supervisor.AudioBitrate enc) 128;
        Relay.KeyframeInterval := Supervisor.orDefault (Supervisor.KeyframeInterval enc) 2 |},
     false).
Proof.
  intros Hne Hv Ha Hk. unfold Relay.decodeConfig, Supervisor.relayPayload.
  cbn [JSON.scanned fold_left].
  assert (Harr : match dests with
                 | [] => JSON.Null
                 | _ => JSON.Array (map (fun dest => JSON.Str (Supervisor.destURL dest)) dests)
                 end = JSON.Array (map JSON.Str (map Supervisor.destURL dests))).
  { destruct dests; [contradiction|]. rewrite List.map_map. reflexivity. }
  rewrite Harr. clear Harr.
  rewrite storeConfigField_audio_bitrate, storeInt_in_range
    by (apply orDefault_range; [lia | exact Ha]).
  cbn [fst snd orb Relay.zeroConfig Relay.SourceURL Relay.Destinations Relay.VideoBitrate
       Relay.AudioBitrate Relay.KeyframeInterval].
  rewrite storeConfigField_destinations, storeStringSlice_strings.
  cbn [fst snd orb Relay.SourceURL Relay.Destinations Relay.VideoBitrate
       Relay.AudioBitrate Relay.KeyframeInterval].
  rewrite storeConfigField_keyframe_interval, storeInt_in_range
    by (apply orDefault_range; [lia | exact Hk]).
  cbn [fst snd orb Relay.SourceURL Relay.Destinations Relay.VideoBitrate
       Relay.AudioBitrate Relay.KeyframeInterval].
  rewrite storeConfigField_source_url.
  cbn [fst snd orb JSON.storeString Relay.SourceURL Relay.Destinations Relay.VideoBitrate
       Relay.AudioBitrate Relay.KeyframeInterval].
  rewrite storeConfigField_video_bitrate, storeInt_in_range
    by (apply orDefault_range; [lia | exact Hv]).
  reflexivity.
Qed.

Section Wire.

Variable answer : Supervisor.Request -> option Z.
Variable startOK : list string -> bool.

(** X25: the relay republishes to the enabled destinations, and to those
    only.  For a channel whose stream is active, with at least one enabled
    destination and a running relay container of the current image,
    [ReconcileDestinations] touches no container and posts one update to the
    relay's /update endpoint; when the relay handles that update, its
    configured source is the stream of the channel's active source, its
    destination list is the URLs of the channel's enabled destinations in
    their order (the stream key joined to the URL), its distributor map has
    exactly those URLs, and the bit rates are the channel's, or the defaults
    where the channel has none. *)
Theorem relay_gets_enabled_destinations (now : Z) (cfg : Supervisor.Settings)
    (enc : Supervisor.Encoding) (ch : Channel) (c : Controller)
    (d : gmap string Supervisor.Container) (db : DB) (info : Supervisor.Container)
    (raw : string) (s : Relay.State) :
  d !! Supervisor.relayContainer (Name ch) = Some info ->
  Supervisor.Image info = Supervisor.RelayImage cfg ->
  Supervisor.Running info = true ->
  List.filter dest_Enabled (Destinations ch) <> [] ->
  Supervisor.VideoBitrate enc <= 9223372036854775807 ->
  Supervisor.AudioBitrate enc <= 9223372036854775807 ->
  Supervisor.KeyframeInterval enc <= 9223372036854775807 ->
  let enabled := List.filter dest_Enabled (Destinations ch) in
  let payload := Supervisor.relayPayload enc ch enabled in
  let request := Supervisor.Post ("http://" +:+ Supervisor.relayContainer (Name ch)
                                  +:+ ":8080/update") payload in
  let s' := fst (fst (Relay.handleUpdate startOK "POST"
                        {| JSON.raw := raw; JSON.scanned := Some payload; JSON.trailing := false |} s)) in
  (exists db', Supervisor.ReconcileDestinations answer now cfg enc ch true c d db
               = Some (c, d, db', [request]))
  /\ Relay.SourceURL (Relay.currentConfig s') = Supervisor.relaySource ch
  /\ Relay.Destinations (Relay.currentConfig s') = map Supervisor.destURL enabled
  /\ (forall url, is_Some (Relay.distributors s' !! url)
                  <-> exists dest, In dest (Destinations ch) /\ dest_Enabled dest = true
                                   /\ Supervisor.destURL dest = url)
  /\ Relay.VideoBitrate (Relay.currentConfig s')
     = Supervisor.orDefault (Supervisor.VideoBitrate enc) 4500
  /\ Relay.AudioBitrate (Relay.currentConfig s')
     = Supervisor.orDefault (Supervisor.AudioBitrate enc) 128
  /\ Relay.KeyframeInterval (Relay.currentConfig s')
     = Supervisor.orDefault (Supervisor.KeyframeInterval enc) 2.
Proof.
  intros Hinfo Himage Hrun Hne Hv Ha Hk enabled payload request s'.
  split; [|].
  - unfold Supervisor.ReconcileDestinations.
    fold enabled. destruct enabled as [|dest rest] eqn:Hen; [contradiction|].
    cbn [List.length Nat.eqb negb orb].
    unfold Supervisor.EnsureRelayRunning, Supervisor.inspectRelay, Supervisor.ContainerInspect.
    rewrite Hinfo, Himage, String.eqb_refl. cbn [negb fst snd]. rewrite Hrun. cbn [negb].
    subst request payload. 
    destruct (answer _) as [code|]; [destruct (code =? 200)|]; eauto.
  - assert (Hcfg : Relay.currentConfig s'
                   = fst (Relay.decodeConfig
                            {| JSON.raw := raw; JSON.scanned := Some payload; JSON.trailing := false |})).
    { subst s'. unfold Relay.handleUpdate. cbn [String.eqb Ascii.eqb Bool.eqb negb fst].
      apply RelayProofs.handleConfigChange_config. }
    subst payload. rewrite decode_relayPayload in Hcfg by assumption. cbn [fst] in Hcfg.
    rewrite Hcfg. cbn [Relay.SourceURL Relay.Destinations Relay.VideoBitrate
                       Relay.AudioBitrate Relay.KeyframeInterval].
    split; [reflexivity|]. split; [reflexivity|]. split; [|repeat split; reflexivity].
    intros url. subst s'. unfold Relay.handleUpdate.
    cbn [String.eqb Ascii.eqb Bool.eqb negb fst]. unfold Relay.handleConfigChange. cbn [fst].
    rewrite RelayProofs.manageDistributors_keys, decode_relayPayload by assumption.
    cbn [fst Relay.Destinations]. rewrite in_map_iff. subst enabled. split.
    + intros (dest & Hurl & Hin). apply List.filter_In in Hin as [Hin Hen]. eauto.
    + intros (dest & Hin & Hen & Hurl). exists dest. split; [exact Hurl|].
      apply List.filter_In. auto.
Qed.

End Wire.

Lemma relay_gets_enabled_destinations_witness :
  Relay.Destinations
    (Relay.currentConfig
       (fst (fst (Relay.handleUpdate (fun _ => true) "POST"
                    {| JSON.raw := "update";
                       JSON.scanned := Some (Supervisor.relayPayload SupervisorWitnesses.plain
                                               SupervisorWitnesses.withYoutube
                                               [SupervisorWitnesses.youtube]);
                       JSON.trailing := false |}
                    Relay.initialState))))
  = ["rtmp://a.rtmp.youtube.com/live2/abcd-1234"].
Proof.
  destruct (relay_gets_enabled_destinations (fun _ => Some 200) (fun _ => true) 30
              SupervisorWitnesses.deployment SupervisorWitnesses.plain
              SupervisorWitnesses.withYoutube ReconcilerProofs.fresh
              SupervisorWitnesses.withRelay SupervisorWitnesses.destinationStore
              (Supervisor.running
                 (Supervisor.relayConfig SupervisorWitnesses.deployment
                    SupervisorWitnesses.withYoutube
                    "rtmp://a.rtmp.youtube.com/live2/abcd-1234"))
              "update" Relay.initialState)
    as (_ & _ & Hdest & _).
  - vm_compute. reflexivity.
  - reflexivity.
  - reflexivity.
  - vm_compute. discriminate.
  - vm_compute. discriminate.
  - vm_compute. discriminate.
  - vm_compute. discriminate.
  - exact Hdest.
Defined.

End EndToEndProofs.

(** ** A created channel and its first publish *)

Module AdminProofs.
Import Controller Admin.

Lemma append_cons a (s t : string) : String a s +:+ t = String a (s +:+ t).
Proof. reflexivity. Qed.

Lemma substring_whole (s : string) : String.substring 0 (String.length s) s = s.
Proof. induction s as [|a s IH]; [reflexivity|]. cbn. rewrite IH. reflexivity. Qed.

Lemma substring_append (s t : string) :
  String.substring 0 (String.length s) (s +:+ t) = s.
Proof.
  induction s as [|a s IH]; [destruct t; reflexivity|].
  rewrite append_cons. cbn [String.length String.substring]. rewrite IH. reflexivity.
Qed.

Lemma length_append (s t : string) :
  String.length (s +:+ t) = (String.length s + String.length t)%nat.
Proof.
  induction s as [|a s IH]; [reflexivity|].
  rewrite append_cons. cbn [String.length Nat.add]. rewrite IH. reflexivity.
Qed.

Lemma rev_app_append (s t acc : string) :
  String.rev_app (s +:+ t) acc = String.rev_app t (String.rev_app s acc).
Proof.
  revert acc. induction s as [|a s IH]; intros acc; [reflexivity|].
  rewrite append_cons. cbn [String.rev_app]. apply IH.
Qed.

Lemma prefix_empty (t : string) : String.prefix EmptyString t = true.
Proof. destruct t; reflexivity. Qed.

Lemma TrimPrefix_of_token (token : string) : TrimPrefix ("?token=" +:+ token) "?token=" = token.
Proof.
  unfold TrimPrefix, HasPrefix. rewrite !append_cons.
  change (EmptyString +:+ token) with token. cbn [String.prefix].
  cbn. rewrite prefix_empty, Nat.sub_0_r. apply substring_whole.
Qed.

Lemma HasSuffix_of_obs (name : string) : HasSuffix (name +:+ "-obs") "-obs" = true.
Proof.
  unfold HasSuffix, String.rev. rewrite rev_app_append. cbn. apply prefix_empty.
Qed.

Lemma TrimSuffix_of_obs (name : string) : TrimSuffix (name +:+ "-obs") "-obs" = name.
Proof.
  unfold TrimSuffix. rewrite HasSuffix_of_obs, length_append.
  replace (String.length name + String.length "-obs" - String.length "-obs")%nat
    with (String.length name) by lia.
  apply substring_append.
Qed.

Lemma find_none_weaker {A : Type} (f g : A -> bool) (l : list A) :
  (forall x, g x = true -> f x = true) -> List.find f l = None -> List.find g l = None.
Proof.
  intros Hfg. induction l as [|x l IH]; [reflexivity|]. cbn.
  destruct (f x) eqn:Hf; [discriminate|]. destruct (g x) eqn:Hg.
  - rewrite (Hfg x Hg) in Hf. discriminate.
  - exact IH.
Qed.

Lemma find_snoc {A : Type} (f : A -> bool) (l : list A) (x : A) :
  List.find f l = None -> f x = true -> List.find f (l ++ [x]) = Some x.
Proof.
  induction l as [|y l IH]; cbn.
  - intros _ ->. reflexivity.
  - destruct (f y); [discriminate | exact IH].
Qed.

(** The new row is the one a lookup by its name returns. *)
Lemma queryByName_created db row :
  queryAnyByName db (row_name row) = None -> row_enabled row = true ->
  queryByName (insertChannel db row) (row_name row) = Some row.
Proof.
  intros Hfree Hen. unfold queryByName, insertChannel. cbn [channels].
  apply find_snoc.
  - revert Hfree. unfold queryAnyByName. apply find_none_weaker.
    intros x Hx. apply andb_prop in Hx. tauto.
  - rewrite String.eqb_refl, Hen. reflexivity.
Qed.

Lemma ChannelsHandler_created now req rand org id c db r :
  decodeCreate req = Some r -> req_Name r <> EmptyString -> req_DisplayName r <> EmptyString ->
  queryAnyByName db (req_Name r) = None ->
  ChannelsHandler now req rand (Some org) id c db
  = (Log now "info" "api"
         ("Created channel " +:+ req_Name r +:+ " (" +:+ Supervisor.Itoa id +:+ ")") c,
     insertChannel db (createdRow id r (generateToken rand) (generateToken (skipn 16 rand))),
     {| status := 200; body := "created" |}).
Proof.
  intros Hreq Hname Hdisplay Hfree. unfold ChannelsHandler. rewrite Hreq.
  destruct (String.eqb_spec (req_Name r) "") as [He|_]; [contradiction|].
  destruct (String.eqb_spec (req_DisplayName r) "") as [He|_]; [contradiction|].
  cbn [orb]. rewrite Hfree. reflexivity.
Qed.

(** X27: a channel created through the API accepts its first publish.
    After POST /api/channels has created an enabled channel (a well-formed
    request with a name and a display name, an organization present, the name
    not taken), the publish hook answers 200 to the stream <name>-obs
    presented with the generated OBS token and authenticates it as the
    channel's OBS source; and, when the name does not itself end in -obs and
    the two generated tokens hash differently, it answers 200 to the stream
    <name> presented with the generated loop token and authenticates it as
    the LOOP source. *)
Theorem created_channel_accepts_its_tokens (now later : Z) (req : JSON.Body)
    (rand : list ascii) (org : string) (id : Z) (c : Controller) (db : DB)
    (r : CreateRequest) (hook : JSON.Body) (payload : HookPayload) :
  decodeCreate req = Some r ->
  req_Name r <> EmptyString -> req_DisplayName r <> EmptyString ->
  req_Enabled r = true ->
  queryAnyByName db (req_Name r) = None ->
  unmarshalHook hook = Some payload ->
  let created := ChannelsHandler now req rand (Some org) id c db in
  let c' := fst (fst created) in
  let db' := snd (fst created) in
  let obsToken := generateToken rand in
  let loopToken := generateToken (skipn 16 rand) in
  status (snd created) = 200
  /\ (Stream payload = req_Name r +:+ "-obs" -> Param payload = "?token=" +:+ obsToken ->
      authenticate hook db' = Accepted payload (req_Name r) "OBS"
      /\ snd (fst (OnPublishHandler later hook c' db')) = {| status := 200; body := "0" |})
  /\ (Stream payload = req_Name r -> Param payload = "?token=" +:+ loopToken ->
      HasSuffix (req_Name r) "-obs" = false ->
      Crypto.HashToken obsToken <> Crypto.HashToken loopToken ->
      authenticate hook db' = Accepted payload (req_Name r) "LOOP"
      /\ snd (fst (OnPublishHandler later hook c' db')) = {| status := 200; body := "0" |}).
Proof.
  intros Hreq Hname Hdisplay Hen Hfree Hhook created c' db' obsToken loopToken.
  assert (Hcreated := ChannelsHandler_created now req rand org id c db r
                        Hreq Hname Hdisplay Hfree).
  fold created in Hcreated.
  assert (Hdb : db' = insertChannel db (createdRow id r obsToken loopToken))
    by (subst db'; rewrite Hcreated; reflexivity).
  assert (Hrow : queryByName db' (req_Name r) = Some (createdRow id r obsToken loopToken)).
  { rewrite Hdb.
    apply (queryByName_created db (createdRow id r obsToken loopToken)); assumption. }
  split; [rewrite Hcreated; reflexivity|].
  assert (Hobs : Stream payload = req_Name r +:+ "-obs" ->
                 Param payload = "?token=" +:+ obsToken ->
                 authenticate hook db' = Accepted payload (req_Name r) "OBS").
  { intros Hstream Hparam. unfold authenticate, authenticateOn.
    rewrite Hhook, Hstream, Hparam, TrimPrefix_of_token, HasSuffix_of_obs, TrimSuffix_of_obs, Hrow.
    cbn [answered]. unfold matchSource, createdRow. cbn [obs_token obs_token_hash hashIs].
    rewrite !String.eqb_refl. reflexivity. }
  assert (Hloop : Stream payload = req_Name r -> Param payload = "?token=" +:+ loopToken ->
                  HasSuffix (req_Name r) "-obs" = false ->
                  Crypto.HashToken obsToken <> Crypto.HashToken loopToken ->
                  authenticate hook db' = Accepted payload (req_Name r) "LOOP").
  { intros Hstream Hparam Hplain Hdiff. unfold authenticate, authenticateOn.
    rewrite Hhook, Hstream, Hparam, TrimPrefix_of_token, Hplain, Hrow.
    cbn [answered andb]. unfold matchSource, createdRow.
    cbn [obs_token obs_token_hash loop_token_hash hashIs].
    destruct (String.eqb_spec (Crypto.HashToken obsToken) (Crypto.HashToken loopToken))
      as [He|_]; [contradiction|].
    rewrite String.eqb_refl. reflexivity. }
  split.
  - intros Hstream Hparam. split; [auto|].
    unfold OnPublishHandler. rewrite (Hobs Hstream Hparam). reflexivity.
  - intros Hstream Hparam Hplain Hdiff. split; [auto|].
    unfold OnPublishHandler. rewrite (Hloop Hstream Hparam Hplain Hdiff). reflexivity.
Qed.

Definition createAlpha : JSON.Body :=
  {| JSON.raw := "create alpha";
     JSON.scanned := Some (JSON.Object
       [ ("name", JSON.Str "alpha"); ("display_name", JSON.Str "Alpha");
         ("enabled", JSON.Bool true) ]);
     JSON.trailing := false |}.

Definition alphaRequest : CreateRequest :=
  {| req_Name := "alpha"; req_DisplayName := "Alpha"; req_LoopSourceFile := EmptyString;
     req_Enabled := true |}.

Definition entropy : list ascii := map ascii_of_nat (seq 1 32).

Definition emptyStore : DB := {| channels := []; destinations := []; audit_logs := [] |}.

Definition firstPublish : JSON.Body :=
  HookProofs.publishBody "alpha-obs" (generateToken entropy).

Definition firstPayload : HookPayload :=
  {| Action := "on_publish"; Stream := "alpha-obs";
     Param := "?token=" +:+ generateToken entropy; IP := "10.0.0.7" |}.

Lemma created_channel_accepts_its_tokens_witness :
  let created := ChannelsHandler 30 createAlpha entropy (Some "org-1") 2
                   ReconcilerProofs.fresh emptyStore in
  generateToken entropy = "0102030405060708090a0b0c0d0e0f10"
  /\ authenticate firstPublish (snd (fst created)) = Accepted firstPayload "alpha" "OBS"
  /\ snd (fst (OnPublishHandler 40 firstPublish (fst (fst created)) (snd (fst created))))
     = {| status := 200; body := "0" |}.
Proof.
  intros created. split; [reflexivity|].
  destruct (created_channel_accepts_its_tokens 30 40 createAlpha entropy "org-1" 2
              ReconcilerProofs.fresh emptyStore alphaRequest firstPublish firstPayload)
    as (_ & Hobs & _).
  - reflexivity.
  - discriminate.
  - discriminate.
  - reflexivity.
  - reflexivity.
  - reflexivity.
  - apply Hobs; reflexivity.
Defined.

End AdminProofs.
